(** * tg-golddog-alert: position / order lifecycle engine

    A shallow embedding of the trading core of the repository:
    - [TradingDatabase]  (database/tradingDb.ts): the three SQLite tables,
    - [OrderManager]     (trading/orderManager.ts),
    - [executeBuy], [executeSell] (trading/jupiterSwap.ts),
    - [PositionManager]  (trading/positionManager.ts),
    - [processToken]     (core/websocket.ts) and [filterToken].

    JavaScript numbers are IEEE-754 binary64 values, modelled by Rocq's
    primitive [float]; BigInt values and millisecond timestamps are [Z].
    A method of the program is a computation in the monad [M]: it threads
    the whole state of the process ([World]) and either returns a value or
    throws.  What the outside world answers (the chain, the swap venue, the
    clock, SQLite faults) is read from scripts stored in the [World], so every
    definition is executable.

    The program is asynchronous; each method is modelled as running to
    completion, which is how one tick of one instrument is processed. *)

From Stdlib Require Import Floats ZArith Lia Bool Ascii DecimalString Sorted.
From Stdlib Require DecimalZ.
From stdpp Require Import base strings gmap list.

Local Open Scope Z_scope.

(** A decimal literal denotes the nearest binary64 value, as in JavaScript. *)
#[local] Set Warnings "-inexact-float".

(** ** JavaScript numbers *)

Module JS.

Definition number := float.

(** [isNaN(x)] on a number. *)
Definition isNaN (x : number) : bool := PrimFloat.is_nan x.

(** [x >= y], [x <= y], [x > y], [x < y], [x === y] on numbers. *)
Definition ge (x y : number) : bool := PrimFloat.leb y x.
Definition le (x y : number) : bool := PrimFloat.leb x y.
Definition gt (x y : number) : bool := PrimFloat.ltb y x.
Definition lt (x y : number) : bool := PrimFloat.ltb x y.
Definition strict_eq (x y : number) : bool := PrimFloat.eqb x y.

(** Truthiness of a number: everything but [NaN], [+0] and [-0]. *)
Definition truthy (x : number) : bool :=
  negb (isNaN x || PrimFloat.eqb x PrimFloat.zero).

Definition is_neg_zero (x : number) : bool :=
  match PrimFloat.classify x with
  | NZero => true
  | _ => false
  end.

(** [Math.max(a, b)]: [NaN] if either argument is [NaN]; [+0] is larger
    than [-0]. *)
Definition Math_max (a b : number) : number :=
  if isNaN a || isNaN b then PrimFloat.nan
  else if PrimFloat.ltb a b then b
  else if PrimFloat.ltb b a then a
  else if is_neg_zero a then b else a.

(** [Math.min(a, b)]: [NaN] if either argument is [NaN]; [-0] is smaller
    than [+0]. *)
Definition Math_min (a b : number) : number :=
  if isNaN a || isNaN b then PrimFloat.nan
  else if PrimFloat.ltb a b then a
  else if PrimFloat.ltb b a then b
  else if is_neg_zero a then a else b.

(** [BigInt(x)] on a number: the integer [x] denotes, a [RangeError]
    ([None]) when [x] is not an integer. *)
Definition BigInt (x : number) : option Z :=
  match Prim2SF x with
  | S754_zero _ => Some 0
  | S754_finite s m e =>
      let magnitude :=
        if 0 <=? e then Some (Z.pos m * 2 ^ e)
        else if Z.pos m mod 2 ^ (- e) =? 0 then Some (Z.pos m / 2 ^ (- e))
        else None in
      option_map (fun z => if s then - z else z) magnitude
  | _ => None
  end.

(** [Number(z)] on an integer: the nearest binary64 value. *)
Definition Number (z : Z) : number :=
  SF2Prim (binary_normalize prec emax z 0 false).

(** [x || null] on an optional string, number or timestamp. *)
Definition or_null_string (x : option string) : option string :=
  match x with
  | Some s => if String.eqb s "" then None else Some s
  | None => None
  end.

Definition or_null_Z (x : option Z) : option Z :=
  match x with
  | Some z => if z =? 0 then None else Some z
  | None => None
  end.

(** Decimal rendering of an integer inside a template string. *)
Definition toString (z : Z) : string := NilZero.string_of_int (Z.to_int z).

End JS.

(** ** types/index.ts *)

Inductive OrderType := MARKET_BUY | STOP_LOSS | TAKE_PROFIT | LFG_SELL.
Inductive OrderStatus :=
  PENDING | TRIGGERED | EXECUTING | COMPLETED | FAILED | CANCELLED.
Inductive TriggerType := PRICE | GAIN_PERCENT | LFG_FLAG | IMMEDIATE.
Inductive TriggerCondition := GTE | LTE | EQ.
Inductive PositionStatus := ACTIVE.

#[global] Instance OrderType_eq_dec : EqDecision OrderType.
Proof. solve_decision. Defined.
#[global] Instance OrderStatus_eq_dec : EqDecision OrderStatus.
Proof. solve_decision. Defined.
#[global] Instance PositionStatus_eq_dec : EqDecision PositionStatus.
Proof. solve_decision. Defined.

Definition OrderType_name (t : OrderType) : string :=
  match t with
  | MARKET_BUY => "MARKET_BUY"
  | STOP_LOSS => "STOP_LOSS"
  | TAKE_PROFIT => "TAKE_PROFIT"
  | LFG_SELL => "LFG_SELL"
  end.

Module Order.
Record Order := mk {
  id : string;
  positionId : string;
  type : OrderType;
  status : OrderStatus;
  sellRatio : JS.number;
  triggerType : TriggerType;
  triggerCondition : TriggerCondition;
  triggerValue : JS.number;
  triggerDescription : string;
  createdAt : Z;
  triggeredAt : option Z;
  executedAt : option Z;
  signature : option string;
  error : option string;
  retryCount : Z;
  description : string
}.

(** Assignment to the fields the program mutates. *)
Definition set_status (v : OrderStatus) (o : Order) : Order :=
  mk (id o) (positionId o) (type o) v (sellRatio o) (triggerType o)
     (triggerCondition o) (triggerValue o) (triggerDescription o)
     (createdAt o) (triggeredAt o) (executedAt o) (signature o) (error o)
     (retryCount o) (description o).
Definition set_triggeredAt (v : option Z) (o : Order) : Order :=
  mk (id o) (positionId o) (type o) (status o) (sellRatio o) (triggerType o)
     (triggerCondition o) (triggerValue o) (triggerDescription o)
     (createdAt o) v (executedAt o) (signature o) (error o)
     (retryCount o) (description o).
Definition set_executedAt (v : option Z) (o : Order) : Order :=
  mk (id o) (positionId o) (type o) (status o) (sellRatio o) (triggerType o)
     (triggerCondition o) (triggerValue o) (triggerDescription o)
     (createdAt o) (triggeredAt o) v (signature o) (error o)
     (retryCount o) (description o).
Definition set_signature (v : option string) (o : Order) : Order :=
  mk (id o) (positionId o) (type o) (status o) (sellRatio o) (triggerType o)
     (triggerCondition o) (triggerValue o) (triggerDescription o)
     (createdAt o) (triggeredAt o) (executedAt o) v (error o)
     (retryCount o) (description o).
Definition set_error (v : option string) (o : Order) : Order :=
  mk (id o) (positionId o) (type o) (status o) (sellRatio o) (triggerType o)
     (triggerCondition o) (triggerValue o) (triggerDescription o)
     (createdAt o) (triggeredAt o) (executedAt o) (signature o) v
     (retryCount o) (description o).
Definition set_retryCount (v : Z) (o : Order) : Order :=
  mk (id o) (positionId o) (type o) (status o) (sellRatio o) (triggerType o)
     (triggerCondition o) (triggerValue o) (triggerDescription o)
     (createdAt o) (triggeredAt o) (executedAt o) (signature o) (error o)
     v (description o).
End Order.
Abbreviation Order := Order.Order.

Module Position.
Record Position := mk {
  id : string;
  address : string;
  symbol : option string;
  entryPrice : JS.number;
  currentPrice : JS.number;
  highestPrice : JS.number;
  lowestPrice : JS.number;
  solInvested : JS.number;
  entryTime : Z;
  lastUpdated : Z;
  status : PositionStatus;
  lfg : JS.number
}.

(** The five assignments of [PositionManager.updatePosition], and the five
    columns written by [TradingDatabase.updatePosition]. *)
Definition set_prices
    (current highest lowest : JS.number) (updated : Z) (flag : JS.number)
    (p : Position) : Position :=
  mk (id p) (address p) (symbol p) (entryPrice p) current highest lowest
     (solInvested p) (entryTime p) updated (status p) flag.
End Position.
Abbreviation Position := Position.Position.

Record OrderCreationParams := {
  params_positionId : string;
  params_type : OrderType;
  params_sellRatio : JS.number;
  params_triggerType : TriggerType;
  params_triggerCondition : TriggerCondition;
  params_triggerValue : JS.number;
  params_triggerDescription : string;
  params_description : string
}.

Record OrderExecutionResult := {
  success : bool;
  result_signature : option string;
  result_error : option string
}.

Module TradeHistoryRecord.
Record TradeHistoryRecord := mk {
  positionId : string;
  orderId : string;
  symbol : option string;
  address : string;
  type : OrderType;
  sellRatio : JS.number;
  entryPrice : JS.number;
  exitPrice : JS.number;
  gainPercent : JS.number;
  executedAt : Z;
  signature : option string;
  reason : option string
}.
End TradeHistoryRecord.
Abbreviation TradeHistoryRecord := TradeHistoryRecord.TradeHistoryRecord.

(** The fields of a tick that the core reads. *)
Module TokenData.
Record TokenData := mk {
a : string;
s : option string;
mc : JS.number;
hd : JS.number;
pg : option JS.number;
d_ts : string;
s_brs : string;
t10 : JS.number;
mt : string;
ct : JS.number;
v1h : option JS.number;
t70_shr : option JS.number;
m_t : option string;
m_w : option string;
m_x : option string;
etpr : option JS.number;
rat : option JS.number;
lc_flg : JS.number;
kol : JS.number
}.
End TokenData.
Abbreviation TokenData := TokenData.TokenData.

Record TradingConfig := {
  TRADE_ENABLED : bool;
  SOL_INVESTMENT_AMOUNT : JS.number;
  (** [parseInt] of the setting: an integer. *)
  MAX_POSITIONS : Z;
  INITIAL_STOP_LOSS : JS.number;
  DOUBLE_PROFIT_THRESHOLD : JS.number;
  DOUBLE_SELL_RATIO : JS.number;
  TARGET_MC_1 : JS.number;
  TARGET_MC_1_RATIO : JS.number;
  TARGET_MC_2 : JS.number;
  TARGET_MC_2_RATIO : JS.number;
  LFG_SELL_RATIO : JS.number
}.

Record SwapParams := {
  inputMint : string;
  outputMint : string;
  amount : JS.number;
  slippageBps : Z
}.

(** ** The state of the process and of its surroundings *)

(** One answer of the chain to [getTokenBalance(new PublicKey(address))]:
    building the key throws, or the query yields the amount held, [null] when
    the account cannot be read. *)
Inductive BalanceAnswer :=
  | PublicKeyError (message : string)
  | Balance (amount : option Z).

Record World := mkWorld {
  (** TradingDatabase: the rows of the three tables, oldest first. *)
  positions : list Position;
  orders : list Order;
  trade_history : list TradeHistoryRecord;
  (** OrderManager: [executingOrders], [orderCounter]. *)
  executingOrders : gset string;
  orderCounter : Z;
  (** WebSocketHandler: [processing]. *)
  processing : gset string;
  (** [Date.now()]. *)
  clock : Z;
  (** What the surroundings will answer: one entry per SQLite statement (an
      error message when the statement fails), per [Math.random()] draw,
      per balance query and per swap (the transaction signature, [null] on
      failure).  An exhausted script answers: no fault, 0, [null], [null]. *)
  db_faults : list (option string);
  randoms : list Z;
  balance_answers : list BalanceAnswer;
  swap_answers : list (option string);
  (** What the process sent out: swaps submitted, and the category of each
      Telegram message. *)
  swaps_sent : list SwapParams;
  notifications : list string
}.

Definition set_positions (v : list Position) (w : World) : World :=
  mkWorld v (orders w) (trade_history w) (executingOrders w) (orderCounter w)
    (processing w) (clock w) (db_faults w) (randoms w) (balance_answers w)
    (swap_answers w) (swaps_sent w) (notifications w).
Definition set_orders (v : list Order) (w : World) : World :=
  mkWorld (positions w) v (trade_history w) (executingOrders w) (orderCounter w)
    (processing w) (clock w) (db_faults w) (randoms w) (balance_answers w)
    (swap_answers w) (swaps_sent w) (notifications w).
Definition set_trade_history (v : list TradeHistoryRecord) (w : World) : World :=
  mkWorld (positions w) (orders w) v (executingOrders w) (orderCounter w)
    (processing w) (clock w) (db_faults w) (randoms w) (balance_answers w)
    (swap_answers w) (swaps_sent w) (notifications w).
Definition set_executingOrders (v : gset string) (w : World) : World :=
  mkWorld (positions w) (orders w) (trade_history w) v (orderCounter w)
    (processing w) (clock w) (db_faults w) (randoms w) (balance_answers w)
    (swap_answers w) (swaps_sent w) (notifications w).
Definition set_orderCounter (v : Z) (w : World) : World :=
  mkWorld (positions w) (orders w) (trade_history w) (executingOrders w) v
    (processing w) (clock w) (db_faults w) (randoms w) (balance_answers w)
    (swap_answers w) (swaps_sent w) (notifications w).
Definition set_processing (v : gset string) (w : World) : World :=
  mkWorld (positions w) (orders w) (trade_history w) (executingOrders w)
    (orderCounter w) v (clock w) (db_faults w) (randoms w) (balance_answers w)
    (swap_answers w) (swaps_sent w) (notifications w).
Definition set_clock (v : Z) (w : World) : World :=
  mkWorld (positions w) (orders w) (trade_history w) (executingOrders w)
    (orderCounter w) (processing w) v (db_faults w) (randoms w) (balance_answers w)
    (swap_answers w) (swaps_sent w) (notifications w).
Definition set_db_faults (v : list (option string)) (w : World) : World :=
  mkWorld (positions w) (orders w) (trade_history w) (executingOrders w)
    (orderCounter w) (processing w) (clock w) v (randoms w) (balance_answers w)
    (swap_answers w) (swaps_sent w) (notifications w).
Definition set_randoms (v : list Z) (w : World) : World :=
  mkWorld (positions w) (orders w) (trade_history w) (executingOrders w)
    (orderCounter w) (processing w) (clock w) (db_faults w) v (balance_answers w)
    (swap_answers w) (swaps_sent w) (notifications w).
Definition set_balance_answers (v : list BalanceAnswer) (w : World) : World :=
  mkWorld (positions w) (orders w) (trade_history w) (executingOrders w)
    (orderCounter w) (processing w) (clock w) (db_faults w) (randoms w) v
    (swap_answers w) (swaps_sent w) (notifications w).
Definition set_swap_answers (v : list (option string)) (w : World) : World :=
  mkWorld (positions w) (orders w) (trade_history w) (executingOrders w)
    (orderCounter w) (processing w) (clock w) (db_faults w) (randoms w)
    (balance_answers w) v (swaps_sent w) (notifications w).
Definition set_swaps_sent (v : list SwapParams) (w : World) : World :=
  mkWorld (positions w) (orders w) (trade_history w) (executingOrders w)
    (orderCounter w) (processing w) (clock w) (db_faults w) (randoms w)
    (balance_answers w) (swap_answers w) v (notifications w).
Definition set_notifications (v : list string) (w : World) : World :=
  mkWorld (positions w) (orders w) (trade_history w) (executingOrders w)
    (orderCounter w) (processing w) (clock w) (db_faults w) (randoms w)
    (balance_answers w) (swap_answers w) (swaps_sent w) v.

(** ** Computations that return or throw *)

Inductive Outcome (A : Type) :=
  | Ret (value : A)
  | Throw (message : string).
Arguments Ret {A} value.
Arguments Throw {A} message.

Definition M (A : Type) : Type := World -> Outcome A * World.

#[global] Instance M_ret : MRet M := fun A v w => (Ret v, w).

#[global] Instance M_bind : MBind M := fun A B f m w =>
  match m w with
  | (Ret v, w') => f v w'
  | (Throw e, w') => (Throw e, w')
  end.

Definition throw {A : Type} (message : string) : M A :=
  fun w => (Throw message, w).

(** [try { body } catch (error) { handler(error.message) }]. *)
Definition try_catch {A : Type} (body : M A) (handler : string -> M A) : M A :=
  fun w =>
    match body w with
    | (Ret v, w') => (Ret v, w')
    | (Throw e, w') => handler e w'
    end.

(** [try { body } finally { cleanup }]: the cleanup runs on every exit and
    the outcome of the body stands unless the cleanup itself throws. *)
Definition try_finally {A : Type} (body : M A) (cleanup : M unit) : M A :=
  fun w =>
    match body w with
    | (r, w') =>
        match cleanup w' with
        | (Ret _, w'') => (r, w'')
        | (Throw e, w'') => (Throw e, w'')
        end
    end.

Definition gets {A : Type} (f : World -> A) : M A := fun w => (Ret (f w), w).
Definition modify (f : World -> World) : M unit := fun w => (Ret tt, f w).

(** ** The surroundings *)

Definition Date_now : M Z := gets clock.

(** [Math.floor(Math.random() * 1000)]. *)
Definition Math_random_1000 : M Z := fun w =>
  match randoms w with
  | [] => (Ret 0, w)
  | r :: rest => (Ret (r mod 1000), set_randoms rest w)
  end.

(** [sendToTelegram(text, category)]: fire and forget. *)
Definition sendToTelegram (category : string) : M unit :=
  modify (fun w => set_notifications (notifications w ++ [category]) w).

(** [getTokenBalance(new PublicKey(address))].balance *)
Definition getTokenBalance (address : string) : M (option Z) := fun w =>
  match balance_answers w with
  | [] => (Ret None, w)
  | PublicKeyError e :: rest => (Throw e, set_balance_answers rest w)
  | Balance b :: rest => (Ret b, set_balance_answers rest w)
  end.

(** [executeJupiterSwap(params)]: quote, sign and send; every error is caught
    inside and reported as [null]. *)
Definition executeJupiterSwap (params : SwapParams) : M (option string) := fun w =>
  let w1 := set_swaps_sent (swaps_sent w ++ [params]) w in
  match swap_answers w1 with
  | [] => (Ret None, w1)
  | answer :: rest => (Ret answer, set_swap_answers rest w1)
  end.

(** [await wait(ms)]: time passes. *)
Definition wait (ms : Z) : M unit :=
  modify (fun w => set_clock (clock w + ms) w).

(** ** database/tradingDb.ts *)

Module TradingDatabase.

(** Every method runs one prepared statement, which SQLite may refuse. *)
Definition run_statement : M unit := fun w =>
  match db_faults w with
  | [] => (Ret tt, w)
  | None :: rest => (Ret tt, set_db_faults rest w)
  | Some e :: rest => (Throw e, set_db_faults rest w)
  end.

(** [id TEXT PRIMARY KEY], [address TEXT UNIQUE NOT NULL]. *)
Definition insertPosition (position : Position) : M unit :=
  run_statement;;
  rows ← gets positions;
  if existsb (fun r =>
       String.eqb (Position.id r) (Position.id position)
       || String.eqb (Position.address r) (Position.address position)) rows
  then throw "UNIQUE constraint failed: positions"
  else modify (set_positions (rows ++ [position])).

(** [UPDATE positions SET current_price, highest_price, lowest_price,
    last_updated, lfg WHERE id = ?], with [position.lfg || 0].  The
    [NOT NULL] constraints on the three price columns are not modelled:
    SQLite binds NaN as [NULL] and refuses the write, here a NaN is stored
    as it is; and a negative zero, which SQLite reads back as zero, keeps
    its sign. *)
Definition update_row (position : Position) (r : Position) : Position :=
  if String.eqb (Position.id r) (Position.id position)
  then Position.set_prices
         (Position.currentPrice position) (Position.highestPrice position)
         (Position.lowestPrice position) (Position.lastUpdated position)
         (if JS.truthy (Position.lfg position) then Position.lfg position
          else PrimFloat.zero)
         r
  else r.

Definition updatePosition (position : Position) : M unit :=
  run_statement;;
  modify (fun w => set_positions (map (update_row position) (positions w)) w).

(** [SELECT * FROM positions WHERE address = ?], first row. *)
Definition getPosition (address : string) : M (option Position) :=
  run_statement;;
  gets (fun w =>
    List.find (fun r => String.eqb (Position.address r) address) (positions w)).

(** [DELETE FROM positions WHERE id = ?]; the orders of the position go
    with it ([ON DELETE CASCADE], foreign keys are switched on). *)
Definition deletePosition (positionId : string) : M unit :=
  run_statement;;
  modify (fun w =>
    set_orders (filter (fun o => Order.positionId o ≠ positionId) (orders w))
      (set_positions
         (filter (fun r => Position.id r ≠ positionId) (positions w)) w)).

(** [SELECT COUNT( * ) FROM positions WHERE status = 'ACTIVE']. *)
Definition getPositionCount : M Z :=
  run_statement;;
  gets (fun w =>
    Z.of_nat (length (filter (fun r => Position.status r = ACTIVE) (positions w)))).

(** [INSERT INTO orders]: twelve columns are written, the four others are
    [NULL].  [id] is the primary key and [position_id] references a
    position.  The [NOT NULL] constraints on [sell_ratio] and
    [trigger_value] are not modelled: SQLite binds NaN as [NULL] and refuses
    the row, here a NaN is stored as it is. *)
Definition insertOrder (order : Order) : M unit :=
  run_statement;;
  w ← gets (fun w => w);
  if existsb (fun r => String.eqb (Order.id r) (Order.id order)) (orders w)
  then throw "UNIQUE constraint failed: orders.id"
  else if existsb (fun r => String.eqb (Position.id r) (Order.positionId order))
            (positions w)
  then
    modify (set_orders (orders w ++
      [Order.set_triggeredAt None (Order.set_executedAt None
        (Order.set_signature None (Order.set_error None order)))]))
  else throw "FOREIGN KEY constraint failed".

(** [UPDATE orders SET status, triggered_at, executed_at, signature, error,
    retry_count WHERE id = ?]. *)
Definition update_order_row (order : Order) (r : Order) : Order :=
  if String.eqb (Order.id r) (Order.id order)
  then Order.set_status (Order.status order)
         (Order.set_triggeredAt (JS.or_null_Z (Order.triggeredAt order))
         (Order.set_executedAt (JS.or_null_Z (Order.executedAt order))
         (Order.set_signature (JS.or_null_string (Order.signature order))
         (Order.set_error (JS.or_null_string (Order.error order))
         (Order.set_retryCount (Order.retryCount order) r)))))
  else r.

Definition updateOrder (order : Order) : M unit :=
  run_statement;;
  modify (fun w => set_orders (map (update_order_row order) (orders w)) w).

(** [ORDER BY created_at DESC]: rows of equal [created_at] keep the order
    of the table. *)
Fixpoint insert_created_at_desc (o : Order) (sorted : list Order) : list Order :=
  match sorted with
  | [] => [o]
  | x :: rest =>
      if Order.createdAt x <=? Order.createdAt o then o :: x :: rest
      else x :: insert_created_at_desc o rest
  end.

Definition order_by_created_at_desc (rows : list Order) : list Order :=
  foldr insert_created_at_desc [] rows.

(** [SELECT * FROM orders WHERE position_id = ? ORDER BY created_at DESC]. *)
Definition getPositionOrders (positionId : string) : M (list Order) :=
  run_statement;;
  gets (fun w =>
    order_by_created_at_desc
      (filter (fun o => Order.positionId o = positionId) (orders w))).

(** [UPDATE orders SET status = 'CANCELLED' WHERE position_id = ? AND
    status = 'PENDING'], returning the number of rows changed. *)
Definition cancel_row (positionId : string) (r : Order) : Order :=
  if bool_decide (Order.positionId r = positionId ∧ Order.status r = PENDING)
  then Order.set_status CANCELLED r
  else r.

Definition cancelPositionOrders (positionId : string) : M Z :=
  run_statement;;
  rows ← gets orders;
  modify (set_orders (map (cancel_row positionId) rows));;
  mret (Z.of_nat (length (filter
    (fun r => Order.positionId r = positionId ∧ Order.status r = PENDING) rows))).

(** [INSERT INTO trade_history], with [trade.reason || null]. *)
Definition insertTradeHistory (trade : TradeHistoryRecord) : M unit :=
  run_statement;;
  modify (fun w => set_trade_history (trade_history w ++
    [TradeHistoryRecord.mk
       (TradeHistoryRecord.positionId trade) (TradeHistoryRecord.orderId trade)
       (TradeHistoryRecord.symbol trade) (TradeHistoryRecord.address trade)
       (TradeHistoryRecord.type trade) (TradeHistoryRecord.sellRatio trade)
       (TradeHistoryRecord.entryPrice trade) (TradeHistoryRecord.exitPrice trade)
       (TradeHistoryRecord.gainPercent trade) (TradeHistoryRecord.executedAt trade)
       (TradeHistoryRecord.signature trade)
       (JS.or_null_string (TradeHistoryRecord.reason trade))]) w).

(** [ORDER BY entry_time DESC]: rows of equal [entry_time] keep the order
    of the table. *)
Fixpoint insert_entry_time_desc (p : Position) (sorted : list Position)
  : list Position :=
  match sorted with
  | [] => [p]
  | x :: rest =>
      if Position.entryTime x <=? Position.entryTime p then p :: x :: rest
      else x :: insert_entry_time_desc p rest
  end.

Definition order_by_entry_time_desc (rows : list Position) : list Position :=
  foldr insert_entry_time_desc [] rows.

(** [SELECT * FROM positions WHERE status = 'ACTIVE' ORDER BY entry_time DESC]. *)
Definition getActivePositions : M (list Position) :=
  run_statement;;
  gets (fun w =>
    order_by_entry_time_desc
      (filter (fun r => Position.status r = ACTIVE) (positions w))).

(** [SELECT * FROM orders WHERE id = ?], first row. *)
Definition getOrder (orderId : string) : M (option Order) :=
  run_statement;;
  gets (fun w => List.find (fun r => String.eqb (Order.id r) orderId) (orders w)).

(** [ORDER BY created_at ASC]: rows of equal [created_at] keep the order of
    the table. *)
Fixpoint insert_created_at_asc (o : Order) (sorted : list Order) : list Order :=
  match sorted with
  | [] => [o]
  | x :: rest =>
      if Order.createdAt o <=? Order.createdAt x then o :: x :: rest
      else x :: insert_created_at_asc o rest
  end.

Definition order_by_created_at_asc (rows : list Order) : list Order :=
  foldr insert_created_at_asc [] rows.

(** [SELECT * FROM orders WHERE status = 'PENDING' ORDER BY created_at ASC]. *)
Definition getPendingOrders : M (list Order) :=
  run_statement;;
  gets (fun w =>
    order_by_created_at_asc
      (filter (fun o => Order.status o = PENDING) (orders w))).

(** [UPDATE orders SET status = 'CANCELLED' WHERE id = ? AND status =
    'PENDING'], returning [result.changes > 0]. *)
Definition cancel_order_row (orderId : string) (r : Order) : Order :=
  if bool_decide (Order.id r = orderId ∧ Order.status r = PENDING)
  then Order.set_status CANCELLED r
  else r.

Definition cancelOrder (orderId : string) : M bool :=
  run_statement;;
  rows ← gets orders;
  modify (set_orders (map (cancel_order_row orderId) rows));;
  mret (0 <? Z.of_nat (length (filter
    (fun r => Order.id r = orderId ∧ Order.status r = PENDING) rows))).

(** [DELETE FROM orders WHERE position_id = ?]. *)
Definition deletePositionOrders (positionId : string) : M unit :=
  run_statement;;
  modify (fun w =>
    set_orders (filter (fun o => Order.positionId o ≠ positionId) (orders w)) w).

(** [DELETE FROM trade_history WHERE executed_at < ?], bound to
    [Math.floor((Date.now() - 30 * 24 * 60 * 60 * 1000) / 1000)]. *)
Definition cleanOldData : M unit :=
  now ← Date_now;
  let thirtyDaysAgo := (now - 30 * 24 * 60 * 60 * 1000) / 1000 in
  run_statement;;
  modify (fun w =>
    set_trade_history
      (filter (fun t => ¬ (TradeHistoryRecord.executedAt t < thirtyDaysAgo))
         (trade_history w)) w).

End TradingDatabase.

(** [((position.currentPrice - position.entryPrice) / position.entryPrice) * 100],
    the expression the program repeats wherever it needs the gain. *)
Definition gain_percent (position : Position) : JS.number :=
  ((Position.currentPrice position - Position.entryPrice position)
   / Position.entryPrice position * 100)%float.

Definition succeeded (signature : option string) : OrderExecutionResult :=
  {| success := true; result_signature := signature; result_error := None |}.

Definition failed (message : string) : OrderExecutionResult :=
  {| success := false; result_signature := None; result_error := Some message |}.

(** [if (signature)] on [string | null]. *)
Definition truthy_signature (signature : option string) : bool :=
  match signature with
  | Some text => negb (String.eqb text "")
  | None => false
  end.

(** ** trading/jupiterSwap.ts *)

Module JupiterSwap.
Section WithConfig.
Variable CONFIG : TradingConfig.

Definition SOL_MINT : string := "So11111111111111111111111111111111111111112".
Definition LAMPORTS_PER_SOL : JS.number := 1000000000%float.

Definition executeBuy (position : Position) : M OrderExecutionResult :=
  try_catch
    (if negb (TRADE_ENABLED CONFIG) then mret (succeeded None)
     else
       let solAmountLamports :=
         (Position.solInvested position * LAMPORTS_PER_SOL)%float in
       let swapParams :=
         {| inputMint := SOL_MINT;
            outputMint := Position.address position;
            amount := solAmountLamports;
            slippageBps := 4000 |} in
       signature ← executeJupiterSwap swapParams;
       if truthy_signature signature then
         sendToTelegram "Trade";;
         mret (succeeded signature)
       else mret (failed "Failed to get swap signature"))
    (fun message => mret (failed message)).

Definition executeSell
    (address : string) (symbol : option string) (gain sellRatio : JS.number)
    (reason : string) : M OrderExecutionResult :=
  try_catch
    (if negb (TRADE_ENABLED CONFIG) then mret (succeeded None)
     else
       balance ← getTokenBalance address;
       match balance with
       | None => mret (failed "No token balance found")
       | Some totalTokenBalance =>
           if totalTokenBalance =? 0 then mret (failed "No token balance found")
           else
             match JS.BigInt sellRatio with
             | None => throw "The number cannot be converted to a BigInt because it is not an integer"
             | Some ratio =>
                 let tokenAmountToSell := Z.quot (totalTokenBalance * ratio) 100 in
                 let swapParams :=
                   {| inputMint := address;
                      outputMint := SOL_MINT;
                      amount := JS.Number tokenAmountToSell;
                      slippageBps := 4000 |} in
                 signature ← executeJupiterSwap swapParams;
                 if truthy_signature signature then
                   sendToTelegram "Trade";;
                   mret (succeeded signature)
                 else mret (failed "Failed to get swap signature")
             end
       end)
    (fun message => mret (failed message)).

End WithConfig.
End JupiterSwap.

(** ** trading/orderManager.ts *)

Module OrderManager.
Section WithConfig.
Variable CONFIG : TradingConfig.

Definition generateOrderId (positionId : string) (type : OrderType) : M string :=
  modify (fun w => set_orderCounter (orderCounter w + 1) w);;
  timestamp ← Date_now;
  random ← Math_random_1000;
  counter ← gets orderCounter;
  mret (positionId +:+ "_" +:+ OrderType_name type +:+ "_" +:+ JS.toString timestamp
        +:+ "_" +:+ JS.toString counter +:+ "_" +:+ JS.toString random).

Definition createOrder (params : OrderCreationParams) : M Order :=
  id ← generateOrderId (params_positionId params) (params_type params);
  now ← Date_now;
  let order :=
    Order.mk id (params_positionId params) (params_type params) PENDING
      (params_sellRatio params) (params_triggerType params)
      (params_triggerCondition params) (params_triggerValue params)
      (params_triggerDescription params) now None None None None 0
      (params_description params) in
  TradingDatabase.insertOrder order;;
  mret order.

Definition checkCondition
    (actual : JS.number) (condition : TriggerCondition) (target : JS.number) : bool :=
  match condition with
  | GTE => JS.ge actual target
  | LTE => JS.le actual target
  | EQ => JS.strict_eq actual target
  end.

Definition shouldTriggerOrder (order : Order) (position : Position) : bool :=
  match Order.triggerType order with
  | PRICE =>
      checkCondition (Position.currentPrice position)
        (Order.triggerCondition order) (Order.triggerValue order)
  | GAIN_PERCENT =>
      let gain := gain_percent position in
      checkCondition gain (Order.triggerCondition order) (Order.triggerValue order)
  | LFG_FLAG => JS.strict_eq (Position.lfg position) (Order.triggerValue order)
  | IMMEDIATE => true
  end.

Definition executeBuyOrder (order : Order) (position : Position)
  : M OrderExecutionResult :=
  try_catch
    (JupiterSwap.executeBuy CONFIG position)
    (fun message => mret (failed message)).

Definition NO_BALANCE : string :=
  "No token balance available & shouldClosePosition".

Definition executeSellOrder (order : Order) (position : Position)
  : M OrderExecutionResult :=
  try_catch
    ((if bool_decide (Order.type order = LFG_SELL) then wait 2000 else mret tt);;
     currentTokenBalance ← getTokenBalance (Position.address position);
     if bool_decide (currentTokenBalance = Some 0) then
       mret {| success := true;
               result_signature := None;
               result_error := Some NO_BALANCE |}
     else
       let gain := gain_percent position in
       JupiterSwap.executeSell CONFIG
         (Position.address position) (Position.symbol position) gain
         (Order.sellRatio order) (Order.description order))
    (fun message => mret (failed message)).

Definition recordTradeHistory
    (order : Order) (position : Position) (result : OrderExecutionResult) : M unit :=
  if bool_decide (Order.type order = MARKET_BUY)
     || negb (truthy_signature (result_signature result))
  then mret tt
  else
    let gain := gain_percent position in
    now ← Date_now;
    TradingDatabase.insertTradeHistory
      (TradeHistoryRecord.mk
         (Position.id position) (Order.id order) (Position.symbol position)
         (Position.address position) (Order.type order) (Order.sellRatio order)
         (Position.entryPrice position) (Position.currentPrice position)
         gain (now / 1000) (result_signature result)
         (Some (Order.description order))).

Definition sendOrderNotification
    (order : Order) (position : Position) (result : OrderExecutionResult) : M unit :=
  if bool_decide (Order.type order = MARKET_BUY) then sendToTelegram "Trade"
  else
    let messageType :=
      if bool_decide (Order.type order = STOP_LOSS) then "StopLoss"
      else "TakeProfit" in
    sendToTelegram messageType.

(** A statement of the [try] block of [executeOrder], run while the order
    object is [order]: when it throws, control passes to the [catch] block,
    which sees the order as mutated so far and whose value is the value of
    the whole block. *)
Definition in_try {A B : Type}
    (order : Order) (statement : M A) (handler : Order -> string -> M B)
    (rest : A -> M B) : M B :=
  fun w =>
    match statement w with
    | (Ret v, w') => rest v w'
    | (Throw e, w') => handler order e w'
    end.

(** The [catch] block of [executeOrder]. *)
Definition executeOrder_catch (order : Order) (message : string)
  : M (Order * OrderExecutionResult) :=
  let order := Order.set_status FAILED order in
  let order := Order.set_error (Some message) order in
  let order := Order.set_retryCount (Order.retryCount order + 1) order in
  TradingDatabase.updateOrder order;;
  mret (order, failed message).

(** The [try] block of [executeOrder]. *)
Definition executeOrder_try (order : Order) (position : Position)
  : M (Order * OrderExecutionResult) :=
  in_try order
    (if bool_decide (Order.type order = MARKET_BUY)
     then executeBuyOrder order position
     else executeSellOrder order position)
    executeOrder_catch
    (fun result =>
       if success result then
         now ← Date_now;
         let order := Order.set_status COMPLETED order in
         let order := Order.set_executedAt (Some now) order in
         let order := Order.set_signature (result_signature result) order in
         in_try order (recordTradeHistory order position result) executeOrder_catch
           (fun _ =>
         in_try order (sendOrderNotification order position result) executeOrder_catch
           (fun _ =>
         in_try order (TradingDatabase.updateOrder order) executeOrder_catch
           (fun _ => mret (order, result))))
       else
         let order := Order.set_status FAILED order in
         let order := Order.set_error (result_error result) order in
         let order := Order.set_retryCount (Order.retryCount order + 1) order in
         in_try order (TradingDatabase.updateOrder order) executeOrder_catch
           (fun _ => mret (order, result))).

(** [executeOrder] returns its result; the order object it was given is
    mutated in place, and its final state is returned with the result. *)
Definition executeOrder (order : Order) (position : Position)
  : M (Order * OrderExecutionResult) :=
  executing ← gets executingOrders;
  if bool_decide (Order.id order ∈ executing) then
    mret (order, failed "Order already executing")
  else
    modify (fun w => set_executingOrders ({[Order.id order]} ∪ executingOrders w) w);;
    let order := Order.set_status EXECUTING order in
    TradingDatabase.updateOrder order;;
    try_finally
      (executeOrder_try order position)
      (modify (fun w =>
         set_executingOrders (executingOrders w ∖ {[Order.id order]}) w)).

(** The [for] loop of [checkAndExecuteOrders]; [shouldClosePosition] is
    the value returned. *)
Fixpoint checkAndExecuteOrders_loop
    (pendingOrders : list Order) (position : Position) : M bool :=
  match pendingOrders with
  | [] => mret false
  | order :: rest =>
      if shouldTriggerOrder order position then
        now ← Date_now;
        let order := Order.set_status TRIGGERED order in
        let order := Order.set_triggeredAt (Some now) order in
        TradingDatabase.updateOrder order;;
        '(order, result) ← executeOrder order position;
        if negb (success result)
           && bool_decide (result_error result = Some NO_BALANCE)
        then mret true
        else if success result && JS.ge (Order.sellRatio order) 100%float
        then mret true
        else checkAndExecuteOrders_loop rest position
      else checkAndExecuteOrders_loop rest position
  end.

Definition checkAndExecuteOrders (position : Position) : M bool :=
  orders ← TradingDatabase.getPositionOrders (Position.id position);
  let pendingOrders := filter (fun order => Order.status order = PENDING) orders in
  checkAndExecuteOrders_loop pendingOrders position.

Definition createAndExecuteImmediateOrder
    (params : OrderCreationParams) (position : Position) : M bool :=
  order ← createOrder params;
  '(_, result) ← executeOrder order position;
  mret (success result).

(** The methods that hand a request over to the database. *)
Definition cancelOrder (orderId : string) : M bool :=
  TradingDatabase.cancelOrder orderId.

Definition cancelPositionOrders (positionId : string) : M Z :=
  TradingDatabase.cancelPositionOrders positionId.

Definition getOrder (orderId : string) : M (option Order) :=
  TradingDatabase.getOrder orderId.

Definition getPositionOrders (positionId : string) : M (list Order) :=
  TradingDatabase.getPositionOrders positionId.

Definition getPendingOrders : M (list Order) :=
  TradingDatabase.getPendingOrders.

End WithConfig.
End OrderManager.

(** ** trading/positionManager.ts *)

Module PositionManager.
Section WithConfig.
Variable CONFIG : TradingConfig.
(** The text of a number inside a template string (order descriptions). *)
Variable Number_toString : JS.number -> string.

Definition createDefaultOrders (position : Position) : M unit :=
  OrderManager.createOrder
    {| params_positionId := Position.id position;
       params_type := STOP_LOSS;
       params_sellRatio := 100%float;
       params_triggerType := GAIN_PERCENT;
       params_triggerCondition := LTE;
       params_triggerValue := INITIAL_STOP_LOSS CONFIG;
       params_triggerDescription :=
         "止损 " +:+ Number_toString (INITIAL_STOP_LOSS CONFIG) +:+ "%";
       params_description :=
         "Initial stop loss at " +:+ Number_toString (INITIAL_STOP_LOSS CONFIG) +:+ "%" |};;
  (if JS.gt (DOUBLE_SELL_RATIO CONFIG) 0%float
      && JS.lt (Position.entryPrice position) 30000%float
   then
     OrderManager.createOrder
       {| params_positionId := Position.id position;
          params_type := TAKE_PROFIT;
          params_sellRatio := DOUBLE_SELL_RATIO CONFIG;
          params_triggerType := GAIN_PERCENT;
          params_triggerCondition := GTE;
          params_triggerValue := DOUBLE_PROFIT_THRESHOLD CONFIG;
          params_triggerDescription :=
            "翻倍止盈 " +:+ Number_toString (DOUBLE_PROFIT_THRESHOLD CONFIG) +:+ "%";
          params_description :=
            "Double profit at " +:+ Number_toString (DOUBLE_PROFIT_THRESHOLD CONFIG) +:+ "%" |};;
     mret tt
   else mret tt);;
  (if JS.gt (TARGET_MC_1 CONFIG) 0%float then
     OrderManager.createOrder
       {| params_positionId := Position.id position;
          params_type := TAKE_PROFIT;
          params_sellRatio := TARGET_MC_1_RATIO CONFIG;
          params_triggerType := PRICE;
          params_triggerCondition := GTE;
          params_triggerValue := TARGET_MC_1 CONFIG;
          params_triggerDescription :=
            "目标市值 " +:+ Number_toString (TARGET_MC_1 CONFIG);
          params_description :=
            "Target MC " +:+ Number_toString (TARGET_MC_1 CONFIG) |};;
     mret tt
   else mret tt);;
  (if JS.gt (TARGET_MC_2 CONFIG) 0%float then
     OrderManager.createOrder
       {| params_positionId := Position.id position;
          params_type := TAKE_PROFIT;
          params_sellRatio := TARGET_MC_2_RATIO CONFIG;
          params_triggerType := PRICE;
          params_triggerCondition := GTE;
          params_triggerValue := TARGET_MC_2 CONFIG;
          params_triggerDescription :=
            "目标市值 " +:+ Number_toString (TARGET_MC_2 CONFIG);
          params_description :=
            "Target MC " +:+ Number_toString (TARGET_MC_2 CONFIG) |};;
     mret tt
   else mret tt);;
  (if JS.gt (LFG_SELL_RATIO CONFIG) 0%float then
     OrderManager.createOrder
       {| params_positionId := Position.id position;
          params_type := LFG_SELL;
          params_sellRatio := LFG_SELL_RATIO CONFIG;
          params_triggerType := LFG_FLAG;
          params_triggerCondition := EQ;
          params_triggerValue := 1%float;
          params_triggerDescription := "LFG标志触发";
          params_description := "LFG triggered sell" |};;
     mret tt
   else mret tt).

(** The [try] block of [createPosition]. *)
Definition createPosition_try (position : Position) : M (option Position) :=
  TradingDatabase.insertPosition position;;
  createDefaultOrders position;;
  buyResult ← JupiterSwap.executeBuy CONFIG position;
  if negb (success buyResult) then
    TradingDatabase.deletePosition (Position.id position);;
    mret None
  else mret (Some position).

Definition createPosition (token : TokenData) (solInvested : JS.number)
  : M (option Position) :=
  let address := TokenData.a token in
  let symbol := TokenData.s token in
  let currentPrice := TokenData.mc token in
  activeCount ← TradingDatabase.getPositionCount;
  if MAX_POSITIONS CONFIG <=? activeCount then mret None
  else
    existing ← TradingDatabase.getPosition address;
    match existing with
    | Some _ => mret None
    | None =>
        entryTime ← Date_now;
        lastUpdated ← Date_now;
        let position :=
          Position.mk address address symbol currentPrice currentPrice
            currentPrice currentPrice solInvested entryTime lastUpdated
            ACTIVE 0%float in
        try_catch (createPosition_try position) (fun _ => mret None)
    end.

Definition closePosition (address : string) : M unit :=
  position ← TradingDatabase.getPosition address;
  match position with
  | None => mret tt
  | Some position =>
      cancelledCount ← TradingDatabase.cancelPositionOrders (Position.id position);
      TradingDatabase.deletePosition (Position.id position)
  end.

Definition updatePosition (address : string) (newPrice lfg : JS.number)
  : M (option Position) :=
  position ← TradingDatabase.getPosition address;
  match position with
  | None => mret None
  | Some position =>
      let currentPrice := newPrice in
      let highestPrice := JS.Math_max (Position.highestPrice position) newPrice in
      let lowestPrice := JS.Math_min (Position.lowestPrice position) newPrice in
      lastUpdated ← Date_now;
      let position :=
        Position.set_prices currentPrice highestPrice lowestPrice lastUpdated
          (if JS.truthy lfg then 1%float else 0%float) position in
      TradingDatabase.updatePosition position;;
      shouldClosePosition ← OrderManager.checkAndExecuteOrders CONFIG position;
      if shouldClosePosition : bool then
        closePosition address;;
        mret None
      else mret (Some position)
  end.

Definition closePositionManually (address : string) : M bool :=
  position ← TradingDatabase.getPosition address;
  match position with
  | None => mret false
  | Some position =>
      success ← OrderManager.createAndExecuteImmediateOrder CONFIG
        {| params_positionId := Position.id position;
           params_type := TAKE_PROFIT;
           params_sellRatio := 100%float;
           params_triggerType := IMMEDIATE;
           params_triggerCondition := EQ;
           params_triggerValue := 0%float;
           params_triggerDescription := "手动平仓";
           params_description := "Manual position close" |}
        position;
      if success : bool then
        closePosition address;;
        mret true
      else mret false
  end.

Definition getPosition (address : string) : M (option Position) :=
  TradingDatabase.getPosition address.

Definition getActivePositions : M (list Position) :=
  TradingDatabase.getActivePositions.

(** [{...orderParams, positionId: position.id}]. *)
Definition with_positionId (positionId : string) (params : OrderCreationParams)
  : OrderCreationParams :=
  {| params_positionId := positionId;
     params_type := params_type params;
     params_sellRatio := params_sellRatio params;
     params_triggerType := params_triggerType params;
     params_triggerCondition := params_triggerCondition params;
     params_triggerValue := params_triggerValue params;
     params_triggerDescription := params_triggerDescription params;
     params_description := params_description params |}.

(** [orderParams] is untyped in the source; it is taken here to carry the
    fields of [OrderCreationParams]. *)
Definition addCustomOrder (address : string) (orderParams : OrderCreationParams)
  : M bool :=
  position ← TradingDatabase.getPosition address;
  match position with
  | None => mret false
  | Some position =>
      try_catch
        (OrderManager.createOrder
           (with_positionId (Position.id position) orderParams);;
         mret true)
        (fun _ => mret false)
  end.

Definition removeOrder (address orderId : string) : M bool :=
  position ← TradingDatabase.getPosition address;
  match position with
  | None => mret false
  | Some _ => TradingDatabase.cancelOrder orderId
  end.

(** The [for] loop of [emergencyCloseAll], over the positions read when the
    method started. *)
Fixpoint emergencyCloseAll_loop (positions : list Position) : M unit :=
  match positions with
  | [] => mret tt
  | position :: rest =>
      closePositionManually (Position.address position);;
      emergencyCloseAll_loop rest
  end.

Definition emergencyCloseAll : M unit :=
  positions ← TradingDatabase.getActivePositions;
  emergencyCloseAll_loop positions.

Definition calculateGain (position : Position) : JS.number :=
  ((Position.currentPrice position - Position.entryPrice position)
   / Position.entryPrice position * 100)%float.

Definition calculateDrawdown (position : Position) : JS.number :=
  ((Position.highestPrice position - Position.currentPrice position)
   / Position.highestPrice position * 100)%float.

End WithConfig.
End PositionManager.

(** ** core/filterToken.ts and core/websocket.ts *)

(** A comparison whose left operand may be [undefined] is false then. *)
Definition optional (test : JS.number -> bool) (x : option JS.number) : bool :=
  match x with
  | Some v => test v
  | None => false
  end.

(** Truthiness of an optional string. *)
Definition truthy_string (x : option string) : bool :=
  match x with
  | Some text => negb (String.eqb text "")
  | None => false
  end.

Definition filterToken (item : TokenData) : M bool :=
  now ← Date_now;
  let currentTime := (JS.Number now / 1000)%float in
  let createdTime := TokenData.ct item in
  let ageInMinutes := ((currentTime - createdTime) / 60)%float in
  let oneSocial :=
    truthy_string (TokenData.m_t item) || truthy_string (TokenData.m_w item)
    || truthy_string (TokenData.m_x item) in
  let flgFilter :=
    JS.ge (TokenData.mc item) 20000%float
    && JS.le (TokenData.mc item) 50000%float
    && JS.gt (TokenData.hd item) 200%float
    && optional JS.truthy (TokenData.pg item)
    && optional (fun v => JS.lt v 1%float) (TokenData.pg item)
    && optional (fun v => JS.lt v 8%float) (TokenData.etpr item)
    && optional (fun v => JS.lt v 8%float) (TokenData.rat item)
    && optional (fun v => JS.gt v 10000%float) (TokenData.v1h item)
    && optional (fun v => JS.lt v 0.25%float) (TokenData.t70_shr item)
    && JS.ge (TokenData.kol item) 4%float
    && JS.ge (TokenData.t10 item) 0.15%float
    && JS.le (TokenData.t10 item) 0.30%float
    && JS.gt ageInMinutes 3%float in
  mret (flgFilter
        && String.eqb (TokenData.d_ts item) "creator_close"
        && String.eqb (TokenData.s_brs item) "burn"
        && String.eqb (TokenData.mt item) "full"
        && negb (JS.truthy (TokenData.lc_flg item))
        && oneSocial).

Module WebSocketHandler.
Section WithConfig.
Variable CONFIG : TradingConfig.
Variable Number_toString : JS.number -> string.

(** The [try] block of [processToken]. *)
Definition processToken_try (token : TokenData) : M unit :=
  let address := TokenData.a token in
  let price := TokenData.mc token in
  position ← PositionManager.getPosition address;
  match position with
  | None =>
      admitted ← filterToken token;
      if admitted : bool then
        position ← PositionManager.createPosition CONFIG Number_toString token
                     (SOL_INVESTMENT_AMOUNT CONFIG);
        match position with
        | Some _ => sendToTelegram "Signal"
        | None => mret tt
        end
      else mret tt
  | Some _ =>
      PositionManager.updatePosition CONFIG address price (TokenData.lc_flg token);;
      mret tt
  end.

Definition processToken (token : TokenData) : M unit :=
  let address := TokenData.a token in
  let symbol := TokenData.s token in
  let price := TokenData.mc token in
  if String.eqb address "" || negb (truthy_string symbol)
     || JS.isNaN price || JS.le price 0%float
  then mret tt
  else
    busy ← gets processing;
    if bool_decide (address ∈ busy) then mret tt
    else
      modify (fun w => set_processing ({[address]} ∪ processing w) w);;
      try_finally
        (try_catch (processToken_try token) (fun _ => mret tt))
        (modify (fun w => set_processing (processing w ∖ {[address]}) w)).

End WithConfig.
End WebSocketHandler.

(** ** config/index.ts *)

(** The messages that [validateConfig] collects, in order. *)
Definition validateConfig_errors (CONFIG : TradingConfig) : list string :=
  (if JS.le (SOL_INVESTMENT_AMOUNT CONFIG) 0%float
   then ["SOL_INVESTMENT_AMOUNT must be greater than 0"] else [])
  ++ (if MAX_POSITIONS CONFIG <=? 0
      then ["MAX_POSITIONS must be greater than 0"] else [])
  ++ (if JS.ge (INITIAL_STOP_LOSS CONFIG) 0%float
      then ["INITIAL_STOP_LOSS must be negative (e.g., -15)"] else [])
  ++ (if JS.le (DOUBLE_PROFIT_THRESHOLD CONFIG) 0%float
      then ["DOUBLE_PROFIT_THRESHOLD must be greater than 0"] else [])
  ++ (if JS.lt (DOUBLE_SELL_RATIO CONFIG) 0%float
         || JS.gt (DOUBLE_SELL_RATIO CONFIG) 100%float
      then ["DOUBLE_SELL_RATIO must be between 0 and 100"] else [])
  ++ (if JS.lt (TARGET_MC_1_RATIO CONFIG) 0%float
         || JS.gt (TARGET_MC_1_RATIO CONFIG) 100%float
      then ["TARGET_MC_1_RATIO must be between 0 and 100"] else [])
  ++ (if JS.lt (TARGET_MC_2_RATIO CONFIG) 0%float
         || JS.gt (TARGET_MC_2_RATIO CONFIG) 100%float
      then ["TARGET_MC_2_RATIO must be between 0 and 100"] else [])
  ++ (if JS.lt (LFG_SELL_RATIO CONFIG) 0%float
         || JS.gt (LFG_SELL_RATIO CONFIG) 100%float
      then ["LFG_SELL_RATIO must be between 0 and 100"] else []).

(** [validateConfig()], for the settings [CONFIG]: false when an error was
    collected. *)
Definition validateConfig (CONFIG : TradingConfig) : bool :=
  if (0 <? length (validateConfig_errors CONFIG))%nat then false else true.

(** * Reasoning about computations *)

(** ** Frame conditions

    [preserves R m]: whatever [m] does and however it ends, the world it
    leaves is related by [R] to the world it started in.  [R] is a preorder
    that ignores some components of the world ([Ignores]), so a frame
    condition of a method follows from the frame conditions of the statements
    it is built from. *)

Definition preserves {A : Type} (R : relation World) (m : M A) : Prop :=
  forall w, R w (m w).2.

Class Ignores {V : Type} (R : relation World) (setter : V -> World -> World) : Prop :=
  ignores : forall v w, R w (setter v w).

(** [R] is a preorder that ignores what the surroundings script and record. *)
Class IgnoresSurroundings (R : relation World) : Prop := {
  surroundings_preorder :: PreOrder R;
  surroundings_randoms :: Ignores R set_randoms;
  surroundings_balance_answers :: Ignores R set_balance_answers;
  surroundings_swap_answers :: Ignores R set_swap_answers;
  surroundings_swaps_sent :: Ignores R set_swaps_sent;
  surroundings_notifications :: Ignores R set_notifications;
  surroundings_clock :: Ignores R set_clock;
  surroundings_orderCounter :: Ignores R set_orderCounter
}.

(** [R] is kept by every status write on the order [orderId]. *)
Class UpdatesOrder (R : relation World) (orderId : string) : Prop :=
  updates_order : forall order,
    Order.id order = orderId -> preserves R (TradingDatabase.updateOrder order).

(** The component [f] of the world is left as it was. *)
Definition keeps {V : Type} (f : World -> V) : relation World :=
  fun w w' => f w' = f w.

(** No position row is added. *)
Definition no_new_position : relation World :=
  fun w w' => sublist (positions w') (positions w).

(** Rows of the orders table are only updated in place, and only those whose
    identity is [orderId]. *)
Definition only_order (orderId : string) : relation World :=
  fun w w' => forall r, r ∈ orders w -> Order.id r ≠ orderId -> r ∈ orders w'.

Ltac unfold_monad :=
  unfold mbind, M_bind, mret, M_ret, throw, gets, modify, try_catch,
    try_finally, OrderManager.in_try in *.

(** ** The trigger table of the specification

    [spec_compare] and [spec_trigger] follow the words of the specification
    (section 4.2), to be compared with [OrderManager.checkCondition] and
    [OrderManager.shouldTriggerOrder]. *)

Definition spec_compare
    (actual : JS.number) (cmp : TriggerCondition) (target : JS.number) : bool :=
  match cmp with
  | GTE => PrimFloat.leb target actual
  | LTE => PrimFloat.leb actual target
  | EQ => PrimFloat.eqb actual target
  end.

Definition spec_gainPercent (position : Position) : JS.number :=
  PrimFloat.mul
    (PrimFloat.div
       (PrimFloat.sub (Position.currentPrice position) (Position.entryPrice position))
       (Position.entryPrice position))
    100%float.

Definition spec_trigger
    (kind : TriggerType) (cmp : TriggerCondition) (threshold : JS.number)
    (position : Position) : bool :=
  match kind with
  | PRICE => spec_compare (Position.currentPrice position) cmp threshold
  | GAIN_PERCENT => spec_compare (spec_gainPercent position) cmp threshold
  | LFG_FLAG => PrimFloat.eqb (Position.lfg position) threshold
  | IMMEDIATE => true
  end.

(** ** Ticks that the dispatcher drops *)

Definition rejected_tick (token : TokenData) : Prop :=
  TokenData.a token = ""
  \/ TokenData.s token = None
  \/ TokenData.s token = Some ""
  \/ JS.isNaN (TokenData.mc token) = true
  \/ JS.gt (TokenData.mc token) 0%float = false.

(** ** Concrete values for worked examples *)

Module Examples.

(** The settings of config/index.ts when the environment sets none. *)
Definition CONFIG : TradingConfig :=
  {| TRADE_ENABLED := true;
     SOL_INVESTMENT_AMOUNT := 0.01%float;
     MAX_POSITIONS := 30;
     INITIAL_STOP_LOSS := (-65)%float;
     DOUBLE_PROFIT_THRESHOLD := 100%float;
     DOUBLE_SELL_RATIO := 50%float;
     TARGET_MC_1 := 200000%float;
     TARGET_MC_1_RATIO := 50%float;
     TARGET_MC_2 := 900000%float;
     TARGET_MC_2_RATIO := 100%float;
     LFG_SELL_RATIO := 65%float |}.

(** The same settings with room for a single position. *)
Definition CONFIG_one : TradingConfig :=
  {| TRADE_ENABLED := true;
     SOL_INVESTMENT_AMOUNT := 0.01%float;
     MAX_POSITIONS := 1;
     INITIAL_STOP_LOSS := (-65)%float;
     DOUBLE_PROFIT_THRESHOLD := 100%float;
     DOUBLE_SELL_RATIO := 50%float;
     TARGET_MC_1 := 200000%float;
     TARGET_MC_1_RATIO := 50%float;
     TARGET_MC_2 := 900000%float;
     TARGET_MC_2_RATIO := 100%float;
     LFG_SELL_RATIO := 65%float |}.

(** Order descriptions do not matter below; numbers are rendered as "#". *)
Definition Number_toString (x : JS.number) : string := "#".

(** A tick for the instrument "Mint1" at market cap [price]. *)
Definition tick (symbol : option string) (price : JS.number) : TokenData :=
  TokenData.mk "Mint1" symbol price 0%float None "" "" 0%float "" 0%float
    None None None None None None None 0%float 0%float.

(** A process that has just started: empty tables, nothing in flight, and
    surroundings that answer by default. *)
Definition fresh : World :=
  mkWorld [] [] [] ∅ 0 ∅ 1700000000000 [] [] [] [] [] [].

(** An open position on "Mint1", entered at 50000. *)
Definition position (current highest lowest : JS.number) : Position :=
  Position.mk "Mint1" "Mint1" (Some "DOG") 50000%float current highest lowest
    0.01%float 1700000000000 1700000000000 ACTIVE 0%float.

(** A pending take-profit order on "Mint1": sell [ratio] percent once the
    market cap reaches [target]. *)
Definition take_profit (id : string) (ratio target : JS.number) : Order :=
  Order.mk id "Mint1" TAKE_PROFIT PENDING ratio PRICE GTE target "" 1700000000000
    None None None None 0 "take profit".

(** A process that holds the position on "Mint1" (entered and last seen at
    50000) with the given pending orders; the chain and the swap venue will
    answer as scripted, and no database statement fails. *)
Definition holding
    (rows : list Order) (balances : list BalanceAnswer)
    (swaps : list (option string)) : World :=
  mkWorld [position 50000%float 50000%float 50000%float] rows [] ∅ 0 ∅
    1700000060000 [] [] balances swaps [] [].

(** The same process while the order "o1" is being executed. *)
Definition busy (rows : list Order) : World :=
  mkWorld [position 50000%float 50000%float 50000%float] rows [] {["o1"]} 0 ∅
    1700000060000 [] [] [] [] [] [].

(** A fresh process in which the database statements fail as scripted and
    the swap venue answers as scripted. *)
Definition starting
    (faults : list (option string)) (swaps : list (option string)) : World :=
  mkWorld [] [] [] ∅ 0 ∅ 1700000000000 faults [] [] swaps [] [].

End Examples.

(** ** The audit row of an execution *)

(** The row that [recordTradeHistory] builds for an order executed on a
    position with a given result, at time [now] in milliseconds. *)
Definition history_row
    (order : Order) (position : Position) (result : OrderExecutionResult)
    (now : Z) : TradeHistoryRecord :=
  TradeHistoryRecord.mk
    (Position.id position) (Order.id order) (Position.symbol position)
    (Position.address position) (Order.type order) (Order.sellRatio order)
    (Position.entryPrice position) (Position.currentPrice position)
    (gain_percent position) (now / 1000) (result_signature result)
    (JS.or_null_string (Some (Order.description order))).

(** The execution produced a transaction reference and the order is a sell. *)
Definition recorded (order : Order) (result : OrderExecutionResult) : bool :=
  success result
  && truthy_signature (result_signature result)
  && negb (bool_decide (Order.type order = MARKET_BUY)).

(** The two branches of [executeOrder]: buy orders and all the others. *)
Definition dispatch
    (CONFIG : TradingConfig) (order : Order) (position : Position)
  : M OrderExecutionResult :=
  if bool_decide (Order.type order = MARKET_BUY)
  then OrderManager.executeBuyOrder CONFIG order position
  else OrderManager.executeSellOrder CONFIG order position.

(** ** One iteration of the evaluation pass *)

(** The statements of the loop body of [checkAndExecuteOrders] that follow a
    trigger test that held: mark the order TRIGGERED, persist, execute. *)
Definition trigger_and_execute
    (CONFIG : TradingConfig) (order : Order) (position : Position)
  : M (Order * OrderExecutionResult) :=
  now ← Date_now;
  let order := Order.set_status TRIGGERED order in
  let order := Order.set_triggeredAt (Some now) order in
  TradingDatabase.updateOrder order;;
  OrderManager.executeOrder CONFIG order position.

(** ** Postconditions on the value returned

    [returns_only P m]: every value that [m] returns satisfies [P]. *)


(** ** What the store holds *)

(** The number of active positions, as [getPositionCount] reports it. *)
Definition active_count (w : World) : Z :=
  Z.of_nat (length (filter (fun r => Position.status r = ACTIVE) (positions w))).

(** The position stored for an instrument, as [getPosition] reports it. *)
Definition find_position (address : string) (w : World) : option Position :=
  List.find (fun r => String.eqb (Position.address r) address) (positions w).

(** The world after [n] database statements that wrote nothing: only their
    entries of the fault script are consumed. *)
Definition statements_run (n : nat) (w : World) : World :=
  set_db_faults (drop n (db_faults w)) w.

(** At most one position per instrument address. *)
Definition unique_addresses (w : World) : Prop :=
  NoDup (map Position.address (positions w)).

(** ** What an update writes *)

(** The position object after the five assignments of [updatePosition]. *)
Definition updated (newPrice lfg : JS.number) (now : Z) (p : Position) : Position :=
  Position.set_prices newPrice
    (JS.Math_max (Position.highestPrice p) newPrice)
    (JS.Math_min (Position.lowestPrice p) newPrice)
    now (if JS.truthy lfg then 1%float else 0%float) p.


(** ** The order of binary64 values, for proofs

    [rank] places the values that are not NaN on a lexicographic scale:
    negative infinity, the negative finite values, the zeros, the positive
    finite values, positive infinity. *)

Definition rank (x : spec_float) : Z * Z * Z :=
  match x with
  | S754_nan => (0, 0, 0)
  | S754_infinity true => (-2, 0, 0)
  | S754_infinity false => (2, 0, 0)
  | S754_zero _ => (0, 0, 0)
  | S754_finite true m e => (-1, - e, - Z.pos m)
  | S754_finite false m e => (1, e, Z.pos m)
  end.

Definition lex_le (x y : Z * Z * Z) : Prop :=
  x.1.1 < y.1.1
  \/ (x.1.1 = y.1.1 /\ (x.1.2 < y.1.2 \/ (x.1.2 = y.1.2 /\ x.2 <= y.2))).

(** ** A sequence of updates of one instrument *)

(** The world after [updatePosition] was called, for one instrument, with
    each (price, flag) of [ticks] in turn. *)
Fixpoint update_all
    (CONFIG : TradingConfig) (address : string)
    (ticks : list (JS.number * JS.number)) (w : World) : World :=
  match ticks with
  | [] => w
  | (newPrice, lfg) :: rest =>
      update_all CONFIG address rest
        (PositionManager.updatePosition CONFIG address newPrice lfg w).2
  end.

(** ** Invariants of the engine

    [Invariant CONFIG R]: the relation [R] between the world before and the
    world after is a preorder that every write of the database layer and
    every trade respects, and that does not look at the bookkeeping of the
    process (clock, counters, scripts of the surroundings, messages sent,
    in-flight set).  Inserting an order and inserting a position are kept
    apart, for the relations that forbid them. *)

Class Invariant (CONFIG : TradingConfig) (R : relation World) : Prop := {
  invariant_preorder :: PreOrder R;
  invariant_randoms :: Ignores R set_randoms;
  invariant_balance_answers :: Ignores R set_balance_answers;
  invariant_notifications :: Ignores R set_notifications;
  invariant_clock :: Ignores R set_clock;
  invariant_orderCounter :: Ignores R set_orderCounter;
  invariant_db_faults :: Ignores R set_db_faults;
  invariant_executingOrders :: Ignores R set_executingOrders;
  invariant_executeBuy position :
    preserves R (JupiterSwap.executeBuy CONFIG position);
  invariant_executeSell address symbol gain sellRatio reason :
    preserves R (JupiterSwap.executeSell CONFIG address symbol gain sellRatio reason);
  invariant_updatePosition position :
    preserves R (TradingDatabase.updatePosition position);
  invariant_deletePosition positionId :
    preserves R (TradingDatabase.deletePosition positionId);
  invariant_updateOrder order :
    preserves R (TradingDatabase.updateOrder order);
  invariant_cancelPositionOrders positionId :
    preserves R (TradingDatabase.cancelPositionOrders positionId);
  invariant_cancelOrder orderId :
    preserves R (TradingDatabase.cancelOrder orderId);
  invariant_insertTradeHistory trade :
    preserves R (TradingDatabase.insertTradeHistory trade)
}.

Class CreatesOrders (R : relation World) : Prop :=
  creates_orders : forall order, preserves R (TradingDatabase.insertOrder order).

Class OpensPositions (R : relation World) : Prop :=
  opens_positions : forall position,
    preserves R (TradingDatabase.insertPosition position).

(** ** The constraints of the schema

    [id] is the primary key of positions and of orders, [address] is unique
    among positions, and [position_id] of an order references a position. *)

Definition consistent (w : World) : Prop :=
  NoDup (map Position.id (positions w))
  /\ NoDup (map Position.address (positions w))
  /\ NoDup (map Order.id (orders w))
  /\ (forall o, o ∈ orders w ->
        Order.positionId o ∈ map Position.id (positions w)).

Definition stays_consistent : relation World :=
  fun w w' => consistent w -> consistent w'.

(** The trade history only grows, at its end. *)
Definition history_grows : relation World :=
  fun w w' => trade_history w `prefix_of` trade_history w'.

(** No instrument is added to the positions held. *)
Definition no_new_instrument : relation World :=
  fun w w' =>
    sublist (map Position.address (positions w'))
            (map Position.address (positions w)).

(** Two order values agree on what defines the order: identity, position,
    type, sell ratio, trigger, creation time and descriptions. *)
Definition same_definition (o o' : Order) : Prop :=
  Order.id o' = Order.id o
  /\ Order.positionId o' = Order.positionId o
  /\ Order.type o' = Order.type o
  /\ Order.sellRatio o' = Order.sellRatio o
  /\ Order.triggerType o' = Order.triggerType o
  /\ Order.triggerCondition o' = Order.triggerCondition o
  /\ Order.triggerValue o' = Order.triggerValue o
  /\ Order.triggerDescription o' = Order.triggerDescription o
  /\ Order.createdAt o' = Order.createdAt o
  /\ Order.description o' = Order.description o.

(** Every order stored afterwards is an order stored before, with the same
    definition. *)
Definition orders_redefined_nowhere : relation World :=
  fun w w' =>
    forall o', o' ∈ orders w' -> exists o, o ∈ orders w /\ same_definition o o'.

(** ** More concrete values *)

Module MoreExamples.

(** The default settings with trading switched off. *)
Definition CONFIG_dry : TradingConfig :=
  {| TRADE_ENABLED := false;
     SOL_INVESTMENT_AMOUNT := 0.01%float;
     MAX_POSITIONS := 30;
     INITIAL_STOP_LOSS := (-65)%float;
     DOUBLE_PROFIT_THRESHOLD := 100%float;
     DOUBLE_SELL_RATIO := 50%float;
     TARGET_MC_1 := 200000%float;
     TARGET_MC_1_RATIO := 50%float;
     TARGET_MC_2 := 900000%float;
     TARGET_MC_2_RATIO := 100%float;
     LFG_SELL_RATIO := 65%float |}.

(** Settings whose floating-point entries are all NaN, the value that
    [parseFloat] gives for a variable that is not a number. *)
Definition CONFIG_nan : TradingConfig :=
  {| TRADE_ENABLED := true;
     SOL_INVESTMENT_AMOUNT := (0 / 0)%float;
     MAX_POSITIONS := 30;
     INITIAL_STOP_LOSS := (0 / 0)%float;
     DOUBLE_PROFIT_THRESHOLD := (0 / 0)%float;
     DOUBLE_SELL_RATIO := (0 / 0)%float;
     TARGET_MC_1 := (0 / 0)%float;
     TARGET_MC_1_RATIO := (0 / 0)%float;
     TARGET_MC_2 := (0 / 0)%float;
     TARGET_MC_2_RATIO := (0 / 0)%float;
     LFG_SELL_RATIO := (0 / 0)%float |}.

(** A tick for "Mint2" that passes the filter: market cap 25000, 300
    holders, created long before the clock of the examples. *)
Definition good_tick : TokenData :=
  TokenData.mk "Mint2" (Some "CAT") 25000%float 300%float (Some 0.5%float)
    "creator_close" "burn" 0.2%float "full" 1600000000%float
    (Some 20000%float) (Some 0.1%float) (Some "t.me/cat") None None
    (Some 1%float) (Some 1%float) 0%float 5%float.

(** The pending order of the position on "Mint1": sell half at 100000. *)
Definition held_order : Order := Examples.take_profit "o1" 50%float 100000%float.

(** An order of the same position that has been executed. *)
Definition done_order : Order :=
  Order.set_status COMPLETED (Examples.take_profit "o2" 50%float 60000%float).

(** The process that holds "Mint1" with [held_order] pending; the chain will
    report 1000 units held, to the two queries of a sale, and the swap venue
    will accept one swap. *)
Definition held : World :=
  Examples.holding [held_order] [Balance (Some 1000); Balance (Some 1000)]
    [Some "5ig"].

(** The same process with the executed order beside the pending one. *)
Definition held_twice : World :=
  Examples.holding [held_order; done_order]
    [Balance (Some 1000); Balance (Some 1000)] [Some "5ig"].

(** A pending stop-loss order of the same position, created 30 seconds
    after [held_order]. *)
Definition newer_order : Order :=
  Order.mk "o3" "Mint1" STOP_LOSS PENDING 100%float GAIN_PERCENT LTE (-65)%float
    "" 1700000030000 None None None None 0 "stop loss".

(** The process with the three orders, in the order they were inserted. *)
Definition held_thrice : World :=
  Examples.holding [held_order; done_order; newer_order] [] [].

(** "Mint1" seen at 200000, four times the entry. *)
Definition rise : TokenData := Examples.tick (Some "DOG") 200000%float.

(** The position on "Mint1" after that tick. *)
Definition risen : Position :=
  Examples.position 200000%float 200000%float 50000%float.

(** A fresh process whose swap venue will accept one swap. *)
Definition ready : World := Examples.starting [] [Some "5ig"].

(** A custom order: sell a quarter once the gain reaches 300 percent. *)
Definition quarter_at_300 : OrderCreationParams :=
  {| params_positionId := "Mint1";
     params_type := TAKE_PROFIT;
     params_sellRatio := 25%float;
     params_triggerType := GAIN_PERCENT;
     params_triggerCondition := GTE;
     params_triggerValue := 300%float;
     params_triggerDescription := "gain >= 300%";
     params_description := "custom take profit" |}.







(** The process that holds "Mint1" when its next database statement fails. *)
Definition failing_write : World :=
  set_db_faults [Some "disk I/O error"] MoreExamples.held.

End MoreExamples.

(** ** What opening a position stores *)

(** The position object that [createPosition] builds from a tick, at time
    [now]. *)
Definition opened (token : TokenData) (solInvested : JS.number) (now : Z)
  : Position :=
  Position.mk (TokenData.a token) (TokenData.a token) (TokenData.s token)
    (TokenData.mc token) (TokenData.mc token) (TokenData.mc token)
    (TokenData.mc token) solInvested now now ACTIVE 0%float.

(** ** Ordered queries

    [insert_before R o sorted] puts [o] before the first row that may follow
    it in the order [R]; the [ORDER BY] clauses of the queries are instances
    of it. *)
Fixpoint insert_before {A : Type} (R : relation A) `{!forall x y, Decision (R x y)}
    (o : A) (sorted : list A) : list A :=
  match sorted with
  | [] => [o]
  | x :: rest =>
      if decide (R o x) then o :: x :: rest else x :: insert_before R o rest
  end.

(** Newest first, oldest first. *)
Definition created_not_before : relation Order :=
  fun a b => Order.createdAt b <= Order.createdAt a.

Definition created_not_after : relation Order :=
  fun a b => Order.createdAt a <= Order.createdAt b.

Definition entered_not_before : relation Position :=
  fun a b => Position.entryTime b <= Position.entryTime a.

(** ** The orders a position starts with *)

(** Every order stored before is stored after, as it was. *)
Definition orders_kept : relation World :=
  fun w w' => forall o, o ∈ orders w -> o ∈ orders w'.

(** [o] is the initial stop-loss order of the position [p]: pending, selling
    everything once the gain falls to [INITIAL_STOP_LOSS]. *)
Definition initial_stop_loss (CONFIG : TradingConfig) (p : Position) (o : Order)
  : Prop :=
  Order.positionId o = Position.id p
  /\ Order.type o = STOP_LOSS
  /\ Order.status o = PENDING
  /\ Order.sellRatio o = 100%float
  /\ Order.triggerType o = GAIN_PERCENT
  /\ Order.triggerCondition o = LTE
  /\ Order.triggerValue o = INITIAL_STOP_LOSS CONFIG.

(** ** Settings that make sense *)

(** A percentage between 0 and 100. *)
Definition percentage (x : JS.number) : Prop :=
  JS.ge x 0%float = true /\ JS.le x 100%float = true.

(** The seven settings that [validateConfig] compares are numbers. *)
Definition settings_are_numbers (CONFIG : TradingConfig) : Prop :=
  JS.isNaN (SOL_INVESTMENT_AMOUNT CONFIG) = false
  /\ JS.isNaN (INITIAL_STOP_LOSS CONFIG) = false
  /\ JS.isNaN (DOUBLE_PROFIT_THRESHOLD CONFIG) = false
  /\ JS.isNaN (DOUBLE_SELL_RATIO CONFIG) = false
  /\ JS.isNaN (TARGET_MC_1_RATIO CONFIG) = false
  /\ JS.isNaN (TARGET_MC_2_RATIO CONFIG) = false
  /\ JS.isNaN (LFG_SELL_RATIO CONFIG) = false.

(** What the messages of [validateConfig] ask for. *)
Definition settings_in_range (CONFIG : TradingConfig) : Prop :=
  JS.gt (SOL_INVESTMENT_AMOUNT CONFIG) 0%float = true
  /\ 0 < MAX_POSITIONS CONFIG
  /\ JS.lt (INITIAL_STOP_LOSS CONFIG) 0%float = true
  /\ JS.gt (DOUBLE_PROFIT_THRESHOLD CONFIG) 0%float = true
  /\ percentage (DOUBLE_SELL_RATIO CONFIG)
  /\ percentage (TARGET_MC_1_RATIO CONFIG)
  /\ percentage (TARGET_MC_2_RATIO CONFIG)
  /\ percentage (LFG_SELL_RATIO CONFIG).

(** * Lemmas *)

(** ** Comparison of binary64 values *)

Lemma SFcompare_refl (x : spec_float) :
  x <> S754_nan -> SFcompare x x = Some Eq.
Proof.
  destruct x as [sx|sx| |sx m e]; simpl; try congruence; intros _.
  - destruct sx; reflexivity.
  - destruct sx; rewrite Z.compare_refl, Pos.compare_cont_refl; reflexivity.
Qed.

Lemma SFcompare_antisym (x y : spec_float) :
  SFcompare y x = option_map CompOpp (SFcompare x y).
Proof.
  destruct x as [sx|sx| |sx m e], y as [sy|sy| |sy m' e']; simpl; try reflexivity;
    try (destruct sx; reflexivity); try (destruct sy; reflexivity);
    try (destruct sx, sy; reflexivity).
  destruct sx, sy; try reflexivity; f_equal;
    rewrite (Z.compare_antisym e e'); destruct (e ?= e')%Z; simpl; try reflexivity;
    rewrite (Pos.compare_cont_antisym m m' Eq); simpl; try reflexivity.
Qed.

Lemma SFcompare_nan (x y : spec_float) :
  SFcompare x y = None -> x = S754_nan \/ y = S754_nan.
Proof.
  destruct x as [sx|sx| |sx m e], y as [sy|sy| |sy m' e']; simpl; auto; discriminate.
Qed.

Lemma isNaN_false (x : float) : JS.isNaN x = false -> Prim2SF x <> S754_nan.
Proof.
  unfold JS.isNaN, is_nan. rewrite FloatAxioms.eqb_spec. unfold SFeqb. intros H E.
  rewrite E in H. discriminate.
Qed.

Lemma leb_refl (x : float) : JS.isNaN x = false -> PrimFloat.leb x x = true.
Proof.
  intros H. rewrite FloatAxioms.leb_spec. unfold SFleb.
  rewrite SFcompare_refl by (apply isNaN_false; exact H). reflexivity.
Qed.

Lemma ltb_leb (x y : float) : PrimFloat.ltb x y = true -> PrimFloat.leb x y = true.
Proof.
  rewrite FloatAxioms.ltb_spec, FloatAxioms.leb_spec. unfold SFltb, SFleb.
  destruct (SFcompare (Prim2SF x) (Prim2SF y)) as [[]|]; congruence.
Qed.

Lemma not_ltb_leb (x y : float) :
  JS.isNaN x = false -> JS.isNaN y = false ->
  PrimFloat.ltb x y = false -> PrimFloat.leb y x = true.
Proof.
  intros Hx Hy. rewrite FloatAxioms.ltb_spec, FloatAxioms.leb_spec. unfold SFltb, SFleb.
  rewrite (SFcompare_antisym (Prim2SF x) (Prim2SF y)).
  destruct (SFcompare (Prim2SF x) (Prim2SF y)) as [[]|] eqn:E; simpl; try congruence.
  intros _. apply SFcompare_nan in E.
  destruct E as [E|E]; [ apply isNaN_false in Hx | apply isNaN_false in Hy ]; contradiction.
Qed.

Lemma Math_max_cases (a b : float) :
  JS.isNaN a = false -> JS.isNaN b = false ->
  (JS.Math_max a b = a \/ JS.Math_max a b = b)
  /\ PrimFloat.leb a (JS.Math_max a b) = true
  /\ PrimFloat.leb b (JS.Math_max a b) = true.
Proof.
  intros Ha Hb. unfold JS.Math_max. rewrite Ha, Hb. simpl.
  destruct (PrimFloat.ltb a b) eqn:Hab.
  { split; [auto|]. split; [apply ltb_leb; exact Hab | apply leb_refl; exact Hb]. }
  destruct (PrimFloat.ltb b a) eqn:Hba.
  { split; [auto|]. split; [apply leb_refl; exact Ha | apply ltb_leb; exact Hba]. }
  pose proof (not_ltb_leb a b Ha Hb Hab) as Hle1.
  pose proof (not_ltb_leb b a Hb Ha Hba) as Hle2.
  destruct (JS.is_neg_zero a).
  - split; [auto|]. split; [exact Hle2 | apply leb_refl; exact Hb].
  - split; [auto|]. split; [apply leb_refl; exact Ha | exact Hle1].
Qed.

Lemma Math_min_cases (a b : float) :
  JS.isNaN a = false -> JS.isNaN b = false ->
  (JS.Math_min a b = a \/ JS.Math_min a b = b)
  /\ PrimFloat.leb (JS.Math_min a b) a = true
  /\ PrimFloat.leb (JS.Math_min a b) b = true.
Proof.
  intros Ha Hb. unfold JS.Math_min. rewrite Ha, Hb. simpl.
  destruct (PrimFloat.ltb a b) eqn:Hab.
  { split; [auto|]. split; [apply leb_refl; exact Ha | apply ltb_leb; exact Hab]. }
  destruct (PrimFloat.ltb b a) eqn:Hba.
  { split; [auto|]. split; [apply ltb_leb; exact Hba | apply leb_refl; exact Hb]. }
  pose proof (not_ltb_leb a b Ha Hb Hab) as Hle1.
  pose proof (not_ltb_leb b a Hb Ha Hba) as Hle2.
  destruct (JS.is_neg_zero a).
  - split; [auto|]. split; [apply leb_refl; exact Ha | exact Hle2].
  - split; [auto|]. split; [exact Hle1 | apply leb_refl; exact Hb].
Qed.

Lemma Math_max_not_NaN (a b : float) :
  JS.isNaN a = false -> JS.isNaN b = false -> JS.isNaN (JS.Math_max a b) = false.
Proof.
  intros Ha Hb. destruct (Math_max_cases a b Ha Hb) as [[E|E] _]; rewrite E; assumption.
Qed.

Lemma Math_min_not_NaN (a b : float) :
  JS.isNaN a = false -> JS.isNaN b = false -> JS.isNaN (JS.Math_min a b) = false.
Proof.
  intros Ha Hb. destruct (Math_min_cases a b Ha Hb) as [[E|E] _]; rewrite E; assumption.
Qed.

Lemma SFleb_rank (x y : spec_float) :
  x <> S754_nan -> y <> S754_nan ->
  SFleb x y = true <-> lex_le (rank x) (rank y).
Proof.
  intros Hx Hy. unfold SFleb, lex_le.
  destruct x as [sx|sx| |sx m e], y as [sy|sy| |sy m' e']; try congruence;
    try destruct sx; try destruct sy; simpl;
    try (split; [intros _; lia | reflexivity]);
    try (split; [discriminate | lia]).
  all: change (Pos.compare_cont Eq m m') with (Pos.compare m m');
    destruct (Z.compare_spec e e'); destruct (Pos.compare_spec m m'); simpl;
    try (split; [intros _; lia | reflexivity]);
    try (split; [discriminate | lia]).
Qed.

Lemma SFleb_not_nan (x y : spec_float) :
  SFleb x y = true -> x <> S754_nan /\ y <> S754_nan.
Proof.
  unfold SFleb. destruct x, y; simpl; intros H; split; congruence.
Qed.

(** [<=] on numbers is transitive. *)
Lemma leb_trans (x y z : float) :
  PrimFloat.leb x y = true -> PrimFloat.leb y z = true -> PrimFloat.leb x z = true.
Proof.
  rewrite !FloatAxioms.leb_spec. intros Hxy Hyz.
  destruct (SFleb_not_nan _ _ Hxy) as [Hx Hy].
  destruct (SFleb_not_nan _ _ Hyz) as [_ Hz].
  apply (SFleb_rank _ _ Hx Hy) in Hxy. apply (SFleb_rank _ _ Hy Hz) in Hyz.
  apply (SFleb_rank _ _ Hx Hz). unfold lex_le in *. lia.
Qed.

(** ** Frame conditions of the combinators *)

Section Combinators.
Context (R : relation World) `{!PreOrder R}.

Lemma preserves_ret {A : Type} (v : A) : preserves R (mret v).
Proof. intros w. simpl. reflexivity. Qed.

Lemma preserves_throw {A : Type} (e : string) : preserves R (@throw A e).
Proof. intros w. simpl. reflexivity. Qed.

Lemma preserves_gets {A : Type} (f : World -> A) : preserves R (gets f).
Proof. intros w. simpl. reflexivity. Qed.

Lemma preserves_modify (g : World -> World) :
  (forall w, R w (g w)) -> preserves R (modify g).
Proof. intros H w. simpl. apply H. Qed.

Lemma preserves_bind {A B : Type} (m : M A) (f : A -> M B) :
  preserves R m -> (forall v, preserves R (f v)) -> preserves R (m ≫= f).
Proof.
  intros Hm Hf w. unfold mbind, M_bind. specialize (Hm w).
  destruct (m w) as [[v|e] w1]; simpl in *.
  - transitivity w1; [exact Hm | apply Hf].
  - exact Hm.
Qed.

Lemma preserves_try_catch {A : Type} (body : M A) (handler : string -> M A) :
  preserves R body -> (forall e, preserves R (handler e)) ->
  preserves R (try_catch body handler).
Proof.
  intros Hm Hh w. unfold try_catch. specialize (Hm w).
  destruct (body w) as [[v|e] w1]; simpl in *.
  - exact Hm.
  - transitivity w1; [exact Hm | apply Hh].
Qed.

Lemma preserves_try_finally {A : Type} (body : M A) (cleanup : M unit) :
  preserves R body -> preserves R cleanup -> preserves R (try_finally body cleanup).
Proof.
  intros Hm Hc w. unfold try_finally. specialize (Hm w).
  destruct (body w) as [r w1]. specialize (Hc w1).
  destruct (cleanup w1) as [[v|e] w2]; simpl in *; transitivity w1; assumption.
Qed.

Lemma preserves_in_try {A B : Type}
    (order : Order) (statement : M A) (handler : Order -> string -> M B)
    (rest : A -> M B) :
  preserves R statement -> (forall e, preserves R (handler order e)) ->
  (forall v, preserves R (rest v)) ->
  preserves R (OrderManager.in_try order statement handler rest).
Proof.
  intros Hm Hh Hr w. unfold OrderManager.in_try. specialize (Hm w).
  destruct (statement w) as [[v|e] w1]; simpl in *.
  - transitivity w1; [exact Hm | apply Hr].
  - transitivity w1; [exact Hm | apply Hh].
Qed.

End Combinators.

Lemma preserves_weaken {A : Type} (R R' : relation World) (m : M A) :
  (forall w w', R w w' -> R' w w') -> preserves R m -> preserves R' m.
Proof. intros H Hm w. apply H, Hm. Qed.

(** One step of a frame proof: peel a combinator or split on a test. *)
Ltac frame_step :=
  lazymatch goal with
  | |- preserves _ (mbind _ _) => apply preserves_bind; [ try tc_solve | | intros ]
  | |- preserves _ (mret _) => apply preserves_ret; tc_solve
  | |- preserves _ (throw _) => apply preserves_throw; tc_solve
  | |- preserves _ (gets _) => apply preserves_gets; tc_solve
  | |- preserves _ (modify _) => apply preserves_modify; intros
  | |- preserves _ (try_catch _ _) => apply preserves_try_catch; [ try tc_solve | | intros ]
  | |- preserves _ (try_finally _ _) => apply preserves_try_finally; [ try tc_solve | | ]
  | |- preserves _ (OrderManager.in_try _ _ _ _) =>
      apply preserves_in_try; [ try tc_solve | | intros | intros ]
  | |- preserves _ (if ?b then _ else _) => destruct b
  | |- preserves _ (match ?x with _ => _ end) => destruct x
  | |- preserves _ (let _ := _ in _) => cbv zeta
  end.

(** ** Frame conditions of the statements *)

#[global] Instance keeps_preorder {V : Type} (f : World -> V) : PreOrder (keeps f).
Proof.
  split.
  - intros w. reflexivity.
  - intros w1 w2 w3 H12 H23. unfold keeps in *. congruence.
Qed.

#[global] Instance no_new_position_preorder : PreOrder no_new_position.
Proof.
  split.
  - intros w. unfold no_new_position. reflexivity.
  - intros w1 w2 w3 H12 H23. unfold no_new_position in *. etransitivity; eassumption.
Qed.

#[global] Instance only_order_preorder (orderId : string) : PreOrder (only_order orderId).
Proof.
  split.
  - intros w r Hr _. exact Hr.
  - intros w1 w2 w3 H12 H23 r Hr Hne. apply H23; [apply H12|]; assumption.
Qed.

#[global] Hint Extern 1 (Ignores (keeps _) _) =>
  (intros ? ?; reflexivity) : typeclass_instances.
#[global] Hint Extern 1 (Ignores no_new_position _) =>
  (intros ? ?; unfold no_new_position; simpl; reflexivity) : typeclass_instances.
#[global] Hint Extern 1 (Ignores (only_order _) _) =>
  (intros ? ? ? ? ?; simpl; assumption) : typeclass_instances.

#[global] Instance keeps_surroundings_positions : IgnoresSurroundings (keeps positions).
Proof. split; tc_solve. Qed.
#[global] Instance keeps_surroundings_orders : IgnoresSurroundings (keeps orders).
Proof. split; tc_solve. Qed.
#[global] Instance keeps_surroundings_trade_history :
  IgnoresSurroundings (keeps trade_history).
Proof. split; tc_solve. Qed.
#[global] Instance keeps_surroundings_executingOrders :
  IgnoresSurroundings (keeps executingOrders).
Proof. split; tc_solve. Qed.
#[global] Instance keeps_surroundings_processing : IgnoresSurroundings (keeps processing).
Proof. split; tc_solve. Qed.
#[global] Instance no_new_position_surroundings : IgnoresSurroundings no_new_position.
Proof. split; tc_solve. Qed.
#[global] Instance only_order_surroundings (orderId : string) :
  IgnoresSurroundings (only_order orderId).
Proof. split; tc_solve. Qed.

Create HintDb frame.

Section Statements.
Context (R : relation World) `{!IgnoresSurroundings R}.

Lemma preserves_Date_now : preserves R Date_now.
Proof. apply preserves_gets. tc_solve. Qed.

Lemma preserves_Math_random_1000 : preserves R Math_random_1000.
Proof.
  intros w. unfold Math_random_1000.
  destruct (randoms w); simpl; [reflexivity | apply ignores].
Qed.

Lemma preserves_sendToTelegram (category : string) :
  preserves R (sendToTelegram category).
Proof. intros w. simpl. apply ignores. Qed.

Lemma preserves_wait (ms : Z) : preserves R (wait ms).
Proof. intros w. simpl. apply ignores. Qed.

Lemma preserves_getTokenBalance (address : string) :
  preserves R (getTokenBalance address).
Proof.
  intros w. unfold getTokenBalance.
  destruct (balance_answers w) as [|[e|b] rest]; simpl; try reflexivity; apply ignores.
Qed.

Lemma preserves_executeJupiterSwap (params : SwapParams) :
  preserves R (executeJupiterSwap params).
Proof.
  intros w. unfold executeJupiterSwap.
  destruct (swap_answers (set_swaps_sent (swaps_sent w ++ [params]) w)); simpl.
  - apply ignores.
  - etransitivity; [apply (ignores (setter := set_swaps_sent)) | apply ignores].
Qed.

Context `{!Ignores R set_db_faults}.

Lemma preserves_run_statement : preserves R TradingDatabase.run_statement.
Proof.
  intros w. unfold TradingDatabase.run_statement.
  destruct (db_faults w) as [|[e|] rest]; simpl; try reflexivity; apply ignores.
Qed.

Lemma preserves_getPosition (address : string) :
  preserves R (TradingDatabase.getPosition address).
Proof.
  apply preserves_bind; [tc_solve | apply preserves_run_statement | intros].
  apply preserves_gets. tc_solve.
Qed.

Lemma preserves_getPositionCount : preserves R TradingDatabase.getPositionCount.
Proof.
  apply preserves_bind; [tc_solve | apply preserves_run_statement | intros].
  apply preserves_gets. tc_solve.
Qed.

Lemma preserves_getPositionOrders (positionId : string) :
  preserves R (TradingDatabase.getPositionOrders positionId).
Proof.
  apply preserves_bind; [tc_solve | apply preserves_run_statement | intros].
  apply preserves_gets. tc_solve.
Qed.

Lemma preserves_insertTradeHistory `{!Ignores R set_trade_history}
    (trade : TradeHistoryRecord) :
  preserves R (TradingDatabase.insertTradeHistory trade).
Proof.
  apply preserves_bind; [tc_solve | apply preserves_run_statement | intros].
  apply preserves_modify. intros w. apply ignores.
Qed.

Lemma preserves_updateOrder `{!Ignores R set_orders} (order : Order) :
  preserves R (TradingDatabase.updateOrder order).
Proof.
  apply preserves_bind; [tc_solve | apply preserves_run_statement | intros].
  apply preserves_modify. intros w. apply ignores.
Qed.

Lemma preserves_insertOrder `{!Ignores R set_orders} (order : Order) :
  preserves R (TradingDatabase.insertOrder order).
Proof.
  apply preserves_bind; [tc_solve | apply preserves_run_statement | intros].
  apply preserves_bind; [tc_solve | apply preserves_gets; tc_solve | intros w].
  destruct (existsb _ _); [apply preserves_throw; tc_solve|].
  destruct (existsb _ _); [|apply preserves_throw; tc_solve].
  apply preserves_modify. intros w'. apply ignores.
Qed.

Lemma preserves_cancelPositionOrders `{!Ignores R set_orders} (positionId : string) :
  preserves R (TradingDatabase.cancelPositionOrders positionId).
Proof.
  apply preserves_bind; [tc_solve | apply preserves_run_statement | intros].
  apply preserves_bind; [tc_solve | apply preserves_gets; tc_solve | intros rows].
  apply preserves_bind; [tc_solve | | intros; apply preserves_ret; tc_solve].
  apply preserves_modify. intros w. apply ignores.
Qed.

End Statements.

#[global] Instance updates_order_ignored
    (R : relation World) `{!IgnoresSurroundings R} `{!Ignores R set_db_faults}
    `{!Ignores R set_orders} (orderId : string) :
  UpdatesOrder R orderId.
Proof. intros order _. apply preserves_updateOrder; assumption. Qed.

#[global] Instance updates_order_only (orderId : string) :
  UpdatesOrder (only_order orderId) orderId.
Proof.
  intros order Hid. unfold TradingDatabase.updateOrder.
  apply preserves_bind; [tc_solve | apply preserves_run_statement; tc_solve | intros _].
  apply preserves_modify. intros w r Hr Hne. simpl.
  apply list_elem_of_fmap. exists r. split; [|exact Hr].
  unfold TradingDatabase.update_order_row.
  destruct (String.eqb (Order.id r) (Order.id order)) eqn:E; [|reflexivity].
  apply String.eqb_eq in E. congruence.
Qed.

#[global] Hint Resolve preserves_run_statement preserves_Date_now
  preserves_Math_random_1000 preserves_sendToTelegram preserves_wait
  preserves_getTokenBalance preserves_executeJupiterSwap preserves_getPosition
  preserves_getPositionCount preserves_getPositionOrders
  preserves_insertTradeHistory preserves_updateOrder preserves_insertOrder
  preserves_cancelPositionOrders : frame.

(** Close a frame condition of a method built from such statements. *)
Ltac frame :=
  repeat frame_step;
  try solve [ eauto with frame typeclass_instances
            | apply ignores
            | tc_solve
            | eapply updates_order; reflexivity ].

(** ** Frame conditions of the methods *)

Section Methods.
Context (R : relation World) `{!IgnoresSurroundings R}.
Context (CONFIG : TradingConfig).

Lemma preserves_executeBuy (position : Position) :
  preserves R (JupiterSwap.executeBuy CONFIG position).
Proof. unfold JupiterSwap.executeBuy. frame. Qed.

Lemma preserves_executeSell
    (address : string) (symbol : option string) (gain sellRatio : JS.number)
    (reason : string) :
  preserves R (JupiterSwap.executeSell CONFIG address symbol gain sellRatio reason).
Proof. unfold JupiterSwap.executeSell. frame. Qed.

Hint Resolve preserves_executeBuy preserves_executeSell : frame.

Lemma preserves_executeBuyOrder (order : Order) (position : Position) :
  preserves R (OrderManager.executeBuyOrder CONFIG order position).
Proof. unfold OrderManager.executeBuyOrder. frame. Qed.

Lemma preserves_executeSellOrder (order : Order) (position : Position) :
  preserves R (OrderManager.executeSellOrder CONFIG order position).
Proof. unfold OrderManager.executeSellOrder. frame. Qed.

Lemma preserves_sendOrderNotification
    (order : Order) (position : Position) (result : OrderExecutionResult) :
  preserves R (OrderManager.sendOrderNotification order position result).
Proof. unfold OrderManager.sendOrderNotification. frame. Qed.

Context `{!Ignores R set_db_faults}.

Lemma preserves_recordTradeHistory `{!Ignores R set_trade_history}
    (order : Order) (position : Position) (result : OrderExecutionResult) :
  preserves R (OrderManager.recordTradeHistory order position result).
Proof. unfold OrderManager.recordTradeHistory. frame. Qed.

Lemma preserves_generateOrderId (positionId : string) (type : OrderType) :
  preserves R (OrderManager.generateOrderId positionId type).
Proof. unfold OrderManager.generateOrderId. frame. Qed.

Hint Resolve preserves_executeBuyOrder preserves_executeSellOrder
  preserves_sendOrderNotification preserves_recordTradeHistory
  preserves_generateOrderId : frame.

Lemma preserves_executeOrder_catch
    (order : Order) `{!UpdatesOrder R (Order.id order)} (message : string) :
  preserves R (OrderManager.executeOrder_catch order message).
Proof. unfold OrderManager.executeOrder_catch. frame. Qed.

Hint Resolve preserves_executeOrder_catch : frame.

Lemma preserves_executeOrder_try
    (order : Order) `{!UpdatesOrder R (Order.id order)}
    `{!Ignores R set_trade_history} (position : Position) :
  preserves R (OrderManager.executeOrder_try CONFIG order position).
Proof. unfold OrderManager.executeOrder_try. frame. Qed.

Hint Resolve preserves_executeOrder_try : frame.

Lemma preserves_executeOrder
    (order : Order) `{!UpdatesOrder R (Order.id order)}
    `{!Ignores R set_trade_history} `{!Ignores R set_executingOrders}
    (position : Position) :
  preserves R (OrderManager.executeOrder CONFIG order position).
Proof. unfold OrderManager.executeOrder. frame. Qed.

Hint Resolve preserves_executeOrder : frame.

Lemma preserves_checkAndExecuteOrders_loop
    `{!Ignores R set_orders} `{!Ignores R set_trade_history}
    `{!Ignores R set_executingOrders}
    (pendingOrders : list Order) (position : Position) :
  preserves R (OrderManager.checkAndExecuteOrders_loop CONFIG pendingOrders position).
Proof.
  induction pendingOrders as [|order rest IH]; simpl.
  - frame.
  - destruct (OrderManager.shouldTriggerOrder order position); [|exact IH].
    frame.
Qed.

Hint Resolve preserves_checkAndExecuteOrders_loop : frame.

Lemma preserves_checkAndExecuteOrders
    `{!Ignores R set_orders} `{!Ignores R set_trade_history}
    `{!Ignores R set_executingOrders}
    (position : Position) :
  preserves R (OrderManager.checkAndExecuteOrders CONFIG position).
Proof. unfold OrderManager.checkAndExecuteOrders. frame. Qed.

Lemma preserves_createOrder `{!Ignores R set_orders} (params : OrderCreationParams) :
  preserves R (OrderManager.createOrder params).
Proof. unfold OrderManager.createOrder. frame. Qed.

Hint Resolve preserves_createOrder : frame.

Lemma preserves_createDefaultOrders `{!Ignores R set_orders}
    (Number_toString : JS.number -> string) (position : Position) :
  preserves R (PositionManager.createDefaultOrders CONFIG Number_toString position).
Proof. unfold PositionManager.createDefaultOrders. frame. Qed.

End Methods.

#[global] Hint Resolve preserves_executeBuy preserves_executeSell
  preserves_executeBuyOrder preserves_executeSellOrder
  preserves_sendOrderNotification preserves_recordTradeHistory
  preserves_generateOrderId preserves_executeOrder_catch
  preserves_executeOrder_try preserves_executeOrder
  preserves_checkAndExecuteOrders_loop preserves_checkAndExecuteOrders
  preserves_createOrder preserves_createDefaultOrders : frame.

(** ** Running a computation step by step *)

Lemma bind_run {A B : Type} (m : M A) (f : A -> M B) (w : World) :
  (m ≫= f) w
  = match m w with
    | (Ret v, w1) => f v w1
    | (Throw e, w1) => (Throw e, w1)
    end.
Proof. reflexivity. Qed.

Lemma set_db_faults_same (w : World) : set_db_faults (db_faults w) w = w.
Proof. destruct w. reflexivity. Qed.

Lemma run_statement_eq (w : World) :
  TradingDatabase.run_statement w
  = (match db_faults w with
     | Some e :: _ => Throw e
     | _ => Ret tt
     end, statements_run 1 w).
Proof.
  unfold TradingDatabase.run_statement, statements_run.
  destruct (db_faults w) as [|[e|] rest] eqn:E; simpl; try reflexivity.
  rewrite <- E, set_db_faults_same. reflexivity.
Qed.

Lemma statements_run_twice (w : World) :
  statements_run 1 (statements_run 1 w) = statements_run 2 w.
Proof.
  unfold statements_run. simpl. destruct (db_faults w) as [|x [|y rest]]; reflexivity.
Qed.

Lemma statements_run_no_fault (n : nat) (w : World) :
  db_faults w = [] -> statements_run n w = w.
Proof.
  intros H. unfold statements_run. rewrite H, drop_nil, <- H.
  apply set_db_faults_same.
Qed.

(** * Properties of the engine *)

(** ** Trigger evaluation *)

(** C7: the trigger predicate of the code is the trigger table of the
    specification.  Absolute-price orders compare the current price with the
    threshold, gain-percent orders compare (current - entry) / entry * 100,
    flag orders test the flag for equality with the threshold, immediate
    orders always fire; GTE is [actual >= target], LTE is [actual <= target]
    and EQ is exact equality of numbers. *)
Theorem shouldTriggerOrder_spec (order : Order) (position : Position) :
  OrderManager.shouldTriggerOrder order position
  = spec_trigger (Order.triggerType order) (Order.triggerCondition order)
      (Order.triggerValue order) position.
Proof.
  unfold OrderManager.shouldTriggerOrder, spec_trigger.
  destruct (Order.triggerType order); try reflexivity;
    unfold OrderManager.checkCondition, spec_compare;
    destruct (Order.triggerCondition order); reflexivity.
Qed.

(** ** The ingress guard *)

(** C10: a tick whose address is empty, whose symbol is missing or empty, or
    whose price is NaN or not strictly positive is dropped: [processToken]
    returns and the world is exactly as before, so no position is created or
    updated and no order is evaluated or executed. *)
Theorem processToken_rejects
    (CONFIG : TradingConfig) (Number_toString : JS.number -> string)
    (token : TokenData) (w : World) :
  rejected_tick token ->
  WebSocketHandler.processToken CONFIG Number_toString token w = (Ret tt, w).
Proof.
  unfold rejected_tick, WebSocketHandler.processToken. intros H.
  destruct (String.eqb (TokenData.a token) "") eqn:Ha; [reflexivity|].
  destruct H as [H|H].
  { apply String.eqb_eq in H. congruence. }
  destruct (truthy_string (TokenData.s token)) eqn:Hs; simpl.
  2: reflexivity.
  destruct H as [H|[H|H]].
  { rewrite H in Hs. discriminate. }
  { rewrite H in Hs. discriminate. }
  destruct (JS.isNaN (TokenData.mc token)) eqn:Hn; [reflexivity|]. simpl.
  destruct H as [H|H]; [discriminate|].
  unfold JS.gt in H. unfold JS.le.
  rewrite (not_ltb_leb 0%float (TokenData.mc token) eq_refl Hn H). reflexivity.
Qed.

Lemma processToken_rejects_witness :
  rejected_tick (Examples.tick (Some "DOG") PrimFloat.nan)
  /\ WebSocketHandler.processToken Examples.CONFIG Examples.Number_toString
       (Examples.tick (Some "DOG") PrimFloat.nan) Examples.fresh
     = (Ret tt, Examples.fresh).
Proof.
  split.
  - right. right. right. left. reflexivity.
  - apply processToken_rejects. right. right. right. left. reflexivity.
Defined.

(** ** The in-flight set of [executeOrder] *)

Lemma run_statement_cases (w : World) :
  (exists e rest, db_faults w = Some e :: rest
     /\ TradingDatabase.run_statement w = (Throw e, set_db_faults rest w))
  \/ (exists w', TradingDatabase.run_statement w = (Ret tt, w')
        /\ positions w' = positions w /\ orders w' = orders w
        /\ trade_history w' = trade_history w
        /\ executingOrders w' = executingOrders w
        /\ processing w' = processing w
        /\ (db_faults w = [] -> w' = w)).
Proof.
  unfold TradingDatabase.run_statement.
  destruct (db_faults w) as [|[e|] rest] eqn:E.
  - right. exists w. repeat split; reflexivity.
  - left. exists e, rest. split; reflexivity.
  - right. eexists. split; [reflexivity|]. repeat split; try reflexivity.
    discriminate.
Qed.

(** Adding a marker that was absent and deleting it gives the set back. *)
Lemma release_marker (marked : gset string) (orderId : string) :
  orderId ∉ marked -> ({[orderId]} ∪ marked) ∖ {[orderId]} = marked.
Proof.
  intros Habsent. apply set_eq. intros x.
  rewrite elem_of_difference, elem_of_union, elem_of_singleton. split.
  - intros [[->|Hx] Hne]; [exfalso; apply Hne; reflexivity | exact Hx].
  - intros Hx. split; [right; exact Hx | intros ->; exact (Habsent Hx)].
Qed.

(** The in-flight guard of [executeOrder].  A call for an order that is
    already in the in-flight set returns the failure "Order already
    executing" at once and changes neither the order nor anything else.  On
    every other call, when [executeOrder] returns, the in-flight set is what
    it was before the call and the order's identity is not in it.  When
    [executeOrder] throws, either the marker has been released in the same
    way, or what threw is the status write that precedes the [try] block and
    the order's identity is left in the set. *)
Lemma executeOrder_in_flight
    (CONFIG : TradingConfig) (order : Order) (position : Position) (w : World) :
  let outcome := (OrderManager.executeOrder CONFIG order position w).1 in
  let w' := (OrderManager.executeOrder CONFIG order position w).2 in
  (Order.id order ∈ executingOrders w ->
     outcome = Ret (order, failed "Order already executing") /\ w' = w)
  /\ (Order.id order ∉ executingOrders w ->
      (forall v, outcome = Ret v ->
         executingOrders w' = executingOrders w
         /\ Order.id order ∉ executingOrders w')
      /\ (forall e, outcome = Throw e ->
            ((exists rest, db_faults w = Some e :: rest)
             /\ Order.id order ∈ executingOrders w')
            \/ (executingOrders w' = executingOrders w
                /\ Order.id order ∉ executingOrders w'))).
Proof.
  cbv zeta. split; intros Hin.
  - unfold OrderManager.executeOrder. unfold_monad.
    rewrite bool_decide_eq_true_2 by exact Hin. split; reflexivity.
  - destruct (OrderManager.executeOrder CONFIG order position w) as [out w'] eqn:E.
    simpl. unfold OrderManager.executeOrder, TradingDatabase.updateOrder in E.
    unfold_monad. rewrite bool_decide_eq_false_2 in E by exact Hin.
    set (w1 := set_executingOrders _ w) in E.
    destruct (run_statement_cases w1)
      as [(e & rest & Hf & Hrun)|(w2 & Hrun & _ & _ & _ & Hex & _)];
      rewrite Hrun in E.
    + injection E as <- <-. split; [discriminate|].
      intros e' He'. injection He' as <-. left. split; [exists rest; exact Hf|].
      subst w1. simpl. apply elem_of_union_l, elem_of_singleton_2. reflexivity.
    + assert (Hreleased : executingOrders w' = executingOrders w
                          /\ Order.id order ∉ executingOrders w').
      { pose proof (preserves_executeOrder_try (keeps executingOrders) CONFIG
                      (Order.set_status EXECUTING order) position
                      (set_orders
                         (map (TradingDatabase.update_order_row
                                 (Order.set_status EXECUTING order)) (orders w2)) w2))
          as Hkeep.
        destruct (OrderManager.executeOrder_try CONFIG _ position _) as [r w4].
        unfold keeps in Hkeep. simpl in *. injection E as _ <-. simpl.
        rewrite Hkeep, Hex. subst w1. simpl.
        rewrite (release_marker _ _ Hin). split; [reflexivity|exact Hin]. }
      split; intros; [|right]; exact Hreleased.
Qed.

(** The status write of [executeOrder] that precedes the [try] block: when
    it throws, [executeOrder] throws with the order's identity added to the
    in-flight set and not removed; a later call for that order is refused. *)
Lemma executeOrder_status_write_throws
    (CONFIG : TradingConfig) (order : Order) (position : Position) (w : World)
    (e : string) (rest : list (option string)) :
  Order.id order ∉ executingOrders w ->
  db_faults w = Some e :: rest ->
  let w' :=
    set_db_faults rest
      (set_executingOrders ({[Order.id order]} ∪ executingOrders w) w) in
  OrderManager.executeOrder CONFIG order position w = (Throw e, w')
  /\ Order.id order ∈ executingOrders w'
  /\ forall again position',
       Order.id again = Order.id order ->
       OrderManager.executeOrder CONFIG again position' w'
       = (Ret (again, failed "Order already executing"), w').
Proof.
  intros Hidle Hfault. cbv zeta.
  assert (Hmarked : Order.id order
                    ∈ executingOrders
                        (set_db_faults rest
                           (set_executingOrders
                              ({[Order.id order]} ∪ executingOrders w) w))).
  { simpl. apply elem_of_union_l, elem_of_singleton_2. reflexivity. }
  split; [|split; [exact Hmarked|]].
  - unfold OrderManager.executeOrder, TradingDatabase.updateOrder,
      TradingDatabase.run_statement.
    unfold_monad. rewrite bool_decide_eq_false_2 by exact Hidle.
    simpl. rewrite Hfault. reflexivity.
  - intros again position' Hid.
    unfold OrderManager.executeOrder. unfold_monad.
    rewrite bool_decide_eq_true_2 by (rewrite Hid; exact Hmarked). reflexivity.
Qed.

(** ** The trade history *)

(** Read a field of an order through the assignments made to it. *)
Ltac order_fields :=
  cbn [Order.id Order.positionId Order.type Order.status Order.sellRatio
       Order.description Order.retryCount Order.triggeredAt Order.executedAt
       Order.signature Order.error Order.createdAt
       Order.set_status Order.set_triggeredAt Order.set_executedAt
       Order.set_signature Order.set_error Order.set_retryCount] in *.

Lemma run_statement_ok (w : World) :
  db_faults w = [] -> TradingDatabase.run_statement w = (Ret tt, w).
Proof. unfold TradingDatabase.run_statement. intros ->. reflexivity. Qed.

Lemma updateOrder_ok (order : Order) (w : World) :
  db_faults w = [] ->
  TradingDatabase.updateOrder order w
  = (Ret tt, set_orders (map (TradingDatabase.update_order_row order) (orders w)) w).
Proof.
  intros H. unfold TradingDatabase.updateOrder. unfold_monad.
  rewrite run_statement_ok by exact H. reflexivity.
Qed.

Lemma try_catch_returns {A : Type} (body : M A) (f : string -> A) (w : World) :
  exists v, (try_catch body (fun message => mret (f message)) w).1 = Ret v.
Proof.
  unfold try_catch. destruct (body w) as [[v|e] w1]; simpl; eauto.
Qed.

(** Buying and selling never throw, and touch neither the tables nor the
    script of database faults. *)
Lemma dispatch_returns
    (CONFIG : TradingConfig) (order : Order) (position : Position) (w : World) :
  exists result w',
    dispatch CONFIG order position w = (Ret result, w')
    /\ trade_history w' = trade_history w
    /\ orders w' = orders w
    /\ positions w' = positions w
    /\ executingOrders w' = executingOrders w
    /\ db_faults w' = db_faults w.
Proof.
  assert (Hret : exists v, (dispatch CONFIG order position w).1 = Ret v).
  { unfold dispatch. destruct (bool_decide _); apply try_catch_returns. }
  assert (Hk : forall {V} (f : World -> V), IgnoresSurroundings (keeps f) ->
               f (dispatch CONFIG order position w).2 = f w).
  { intros V f Hf. unfold dispatch.
    destruct (bool_decide _);
      [ apply (preserves_executeBuyOrder (keeps f))
      | apply (preserves_executeSellOrder (keeps f)) ]. }
  destruct Hret as [v Hv].
  destruct (dispatch CONFIG order position w) as [out w'] eqn:E. simpl in *.
  subst out. exists v, w'. split; [reflexivity|].
  repeat split; apply Hk; split; tc_solve.
Qed.

(** From a run [E : m w0 = (out, w1)] of a computation that leaves the trade
    history alone, conclude that [w1] has the history of [w0]. *)
Ltac history_kept_in E :=
  lazymatch type of E with
  | ?m ?w0 = (_, ?w1) =>
      let H := fresh "Hkept" in
      assert (H : preserves (keeps trade_history) m) by frame;
      specialize (H w0); unfold keeps in H; rewrite E in H; simpl in H
  end.

(** Whatever happens in the [try] block, the trade history gains at most one
    row, and then it is the row of a successful, signed execution of a sell. *)
Lemma executeOrder_try_history
    (CONFIG : TradingConfig) (order : Order) (position : Position) (w : World) :
  let w' := (OrderManager.executeOrder_try CONFIG order position w).2 in
  trade_history w' = trade_history w
  \/ exists result now,
       recorded order result = true
       /\ trade_history w'
          = trade_history w ++ [history_row order position result now].
Proof.
  cbv zeta.
  destruct (OrderManager.executeOrder_try CONFIG order position w) as [out w'] eqn:E.
  simpl. unfold OrderManager.executeOrder_try in E.
  unfold OrderManager.in_try at 1 in E. fold (dispatch CONFIG order position) in E.
  destruct (dispatch_returns CONFIG order position w)
    as (result & w3 & Hd & Hth & _). rewrite Hd in E.
  destruct (success result) eqn:Hs.
  - rewrite bind_run in E. unfold Date_now, gets in E. cbv beta iota zeta in E.
    unfold OrderManager.in_try at 1 in E.
    unfold OrderManager.recordTradeHistory in E. order_fields.
    destruct (bool_decide (Order.type order = MARKET_BUY)) eqn:Hbuy;
      [|destruct (truthy_signature (result_signature result)) eqn:Hsig];
      cbn [orb negb] in E.
    + unfold mret at 1, M_ret at 1 in E. left. history_kept_in E. congruence.
    + rewrite bind_run in E. unfold Date_now, gets in E. cbv beta iota in E.
      unfold TradingDatabase.insertTradeHistory in E.
      rewrite bind_run, run_statement_eq in E.
      destruct (db_faults w3) as [|[e|] faults]; unfold modify in E;
        cbv beta iota in E.
      2: { left. history_kept_in E. congruence. }
      all: right; exists result, (clock w3);
        (split; [unfold recorded; rewrite Hs, Hsig, Hbuy; reflexivity|]);
        history_kept_in E; rewrite Hkept, Hth; reflexivity.
    + unfold mret at 1, M_ret at 1 in E. left. history_kept_in E. congruence.
  - left. history_kept_in E. congruence.
Qed.

(** When no database statement fails, [executeOrder] returns, with or
    without a new row in the history according to its result. *)
Lemma executeOrder_history_no_fault
    (CONFIG : TradingConfig) (order : Order) (position : Position) (w : World) :
  db_faults w = [] ->
  exists order' result w',
    OrderManager.executeOrder CONFIG order position w = (Ret (order', result), w')
    /\ trade_history w'
       = if recorded order result
         then trade_history w ++ [history_row order position result (clock w')]
         else trade_history w.
Proof.
  intros Hdb. unfold OrderManager.executeOrder.
  unfold mbind at 1, M_bind at 1, gets at 1.
  destruct (bool_decide (Order.id order ∈ executingOrders w)).
  { eexists _, _, _. split; [reflexivity|]. reflexivity. }
  unfold mbind at 1, M_bind at 1, modify at 1.
  set (w1 := set_executingOrders _ w).
  unfold mbind at 1, M_bind at 1.
  rewrite updateOrder_ok by exact Hdb.
  set (w2 := set_orders _ w1).
  unfold try_finally, OrderManager.executeOrder_try, OrderManager.in_try.
  fold (dispatch CONFIG (Order.set_status EXECUTING order) position).
  destruct (dispatch_returns CONFIG (Order.set_status EXECUTING order) position w2)
    as (result & w3 & Hd & Hth & _ & _ & _ & Hdb3).
  rewrite Hd.
  assert (Hdb3' : db_faults w3 = []) by (rewrite Hdb3; exact Hdb).
  assert (Hth' : trade_history w3 = trade_history w) by (rewrite Hth; reflexivity).
  unfold recorded.
  destruct (success result) eqn:Hs.
  - unfold mbind at 1, M_bind at 1, Date_now, gets at 1.
    unfold OrderManager.recordTradeHistory, OrderManager.sendOrderNotification.
    order_fields.
    destruct (bool_decide (Order.type order = MARKET_BUY)) eqn:Hbuy;
      [|destruct (truthy_signature (result_signature result)) eqn:Hsig];
      cbn [orb negb andb];
      unfold Date_now, sendToTelegram, TradingDatabase.insertTradeHistory;
      unfold_monad; cbv beta iota;
      repeat (rewrite run_statement_ok by (simpl; exact Hdb3'); cbv beta iota);
      rewrite updateOrder_ok by (simpl; exact Hdb3');
      (eexists _, _, _; split; [reflexivity|]); simpl;
      rewrite ?Hs, ?Hsig, ?andb_false_r; cbn [andb]; rewrite Hth'; reflexivity.
  - rewrite updateOrder_ok by exact Hdb3'.
    eexists _, _, _. split; [reflexivity|]. simpl. rewrite Hs. exact Hth'.
Qed.

(** Whatever happens, [executeOrder] adds at most the row of a successful,
    signed execution of a sell. *)
Lemma executeOrder_history
    (CONFIG : TradingConfig) (order : Order) (position : Position) (w : World) :
  let w' := (OrderManager.executeOrder CONFIG order position w).2 in
  trade_history w' = trade_history w
  \/ exists result now,
       recorded order result = true
       /\ trade_history w'
          = trade_history w ++ [history_row order position result now].
Proof.
  cbv zeta.
  destruct (OrderManager.executeOrder CONFIG order position w) as [out w'] eqn:E.
  simpl. unfold OrderManager.executeOrder in E.
  rewrite bind_run in E. unfold gets in E. cbv beta iota in E.
  destruct (bool_decide (Order.id order ∈ executingOrders w)).
  { injection E as _ <-. left. reflexivity. }
  rewrite bind_run in E. unfold modify at 1 in E. cbv beta iota in E.
  rewrite bind_run in E.
  pose proof (preserves_updateOrder (keeps trade_history)
                (Order.set_status EXECUTING order)
                (set_executingOrders ({[Order.id order]} ∪ executingOrders w) w))
    as Hupdate.
  destruct (TradingDatabase.updateOrder _ _) as [[[]|e] w2];
    unfold keeps in Hupdate; simpl in Hupdate.
  2: { injection E as _ <-. left. exact Hupdate. }
  unfold try_finally in E.
  pose proof (executeOrder_try_history CONFIG (Order.set_status EXECUTING order)
                position w2) as Htry.
  cbv zeta in Htry.
  destruct (OrderManager.executeOrder_try CONFIG _ position w2) as [r w3].
  simpl in E, Htry. injection E as _ <-. simpl.
  rewrite Hupdate in Htry. exact Htry.
Qed.

(** C8: the trade history under [executeOrder].  Whatever happens, the
    history gains at most one row, and a row it gains is the row of a
    successful execution that carries a signature, for an order that is not a
    buy order.  When no database statement fails, [executeOrder] returns, and
    the history has gained the row of this execution exactly when the result
    returned is a success that carries a signature and the order is not a buy
    order; otherwise the history is as before.  A success without a signature
    (the zero-balance result, a simulated trade) and any buy therefore leave
    no row. *)
Theorem trade_history_row_iff
    (CONFIG : TradingConfig) (order : Order) (position : Position) (w : World) :
  let w' := (OrderManager.executeOrder CONFIG order position w).2 in
  (trade_history w' = trade_history w
   \/ exists result now,
        recorded order result = true
        /\ trade_history w'
           = trade_history w ++ [history_row order position result now])
  /\ (db_faults w = [] ->
      exists order' result,
        OrderManager.executeOrder CONFIG order position w = (Ret (order', result), w')
        /\ trade_history w'
           = if recorded order result
             then trade_history w ++ [history_row order position result (clock w')]
             else trade_history w).
Proof.
  cbv zeta. split.
  - apply executeOrder_history.
  - intros Hdb.
    destruct (executeOrder_history_no_fault CONFIG order position w Hdb)
      as (order' & result & w' & Hrun & Hhistory).
    exists order', result. rewrite Hrun. simpl. split; [reflexivity|exact Hhistory].
Qed.

(** ** The evaluation pass *)

Lemma checkAndExecuteOrders_loop_cons
    (CONFIG : TradingConfig) (order : Order) (rest : list Order)
    (position : Position) (w : World) :
  OrderManager.checkAndExecuteOrders_loop CONFIG (order :: rest) position w
  = if OrderManager.shouldTriggerOrder order position then
      match trigger_and_execute CONFIG order position w with
      | (Ret (order', result), w1) =>
          if negb (success result)
             && bool_decide (result_error result = Some OrderManager.NO_BALANCE)
          then (Ret true, w1)
          else if success result && JS.ge (Order.sellRatio order') 100%float
          then (Ret true, w1)
          else OrderManager.checkAndExecuteOrders_loop CONFIG rest position w1
      | (Throw e, w1) => (Throw e, w1)
      end
    else OrderManager.checkAndExecuteOrders_loop CONFIG rest position w.
Proof.
  simpl. destruct (OrderManager.shouldTriggerOrder order position); [|reflexivity].
  unfold trigger_and_execute. unfold Date_now. unfold_monad.
  destruct (TradingDatabase.updateOrder _ w) as [[[]|e] w1]; [|reflexivity].
  destruct (OrderManager.executeOrder CONFIG _ position w1) as [[[order' result]|e] w2];
    [|reflexivity].
  destruct (negb (success result) && _); [reflexivity|].
  destruct (success result && _); reflexivity.
Qed.

Lemma preserves_trigger_and_execute
    (R : relation World) `{!IgnoresSurroundings R} `{!Ignores R set_db_faults}
    (CONFIG : TradingConfig) (order : Order) `{!UpdatesOrder R (Order.id order)}
    `{!Ignores R set_trade_history} `{!Ignores R set_executingOrders}
    (position : Position) :
  preserves R (trigger_and_execute CONFIG order position).
Proof.
  unfold trigger_and_execute. frame.
Qed.

Section Postconditions.
Context {A B : Type}.





End Postconditions.



Lemma elem_of_insert_created_at_desc (x o : Order) (sorted : list Order) :
  x ∈ TradingDatabase.insert_created_at_desc o sorted <-> x = o \/ x ∈ sorted.
Proof.
  induction sorted as [|y rest IH]; simpl.
  - rewrite elem_of_cons. reflexivity.
  - destruct (Order.createdAt y <=? Order.createdAt o).
    + rewrite elem_of_cons. reflexivity.
    + rewrite !elem_of_cons, IH. tauto.
Qed.

Lemma elem_of_order_by_created_at_desc (x : Order) (rows : list Order) :
  x ∈ TradingDatabase.order_by_created_at_desc rows <-> x ∈ rows.
Proof.
  unfold TradingDatabase.order_by_created_at_desc.
  induction rows as [|y rest IH]; simpl.
  - reflexivity.
  - rewrite elem_of_insert_created_at_desc, elem_of_cons, IH. reflexivity.
Qed.

Lemma NoDup_map_eq {A B : Type} (f : A -> B) (l : list A) (x y : A) :
  NoDup (map f l) -> x ∈ l -> y ∈ l -> f x = f y -> x = y.
Proof.
  induction l as [|z rest IH]; simpl; intros Hnd Hx Hy Hf.
  - apply elem_of_nil in Hx. contradiction.
  - apply NoDup_cons in Hnd as [Hz Hnd].
    apply elem_of_cons in Hx as [->|Hx]; apply elem_of_cons in Hy as [->|Hy].
    + reflexivity.
    + exfalso. apply Hz. rewrite Hf. apply list_elem_of_fmap_2. exact Hy.
    + exfalso. apply Hz. rewrite <- Hf. apply list_elem_of_fmap_2. exact Hx.
    + apply IH; assumption.
Qed.

(** A row of the orders table whose identity is that of no triggered order
    of the pass comes out of the loop as it went in. *)
Lemma checkAndExecuteOrders_loop_untouched
    (CONFIG : TradingConfig) (position : Position) (row : Order)
    (pendingOrders : list Order) (w : World) :
  (forall order, order ∈ pendingOrders ->
     OrderManager.shouldTriggerOrder order position = true ->
     Order.id order ≠ Order.id row) ->
  row ∈ orders w ->
  row ∈ orders
          (OrderManager.checkAndExecuteOrders_loop CONFIG pendingOrders position w).2.
Proof.
  revert w. induction pendingOrders as [|order rest IH]; intros w Hids Hrow.
  - exact Hrow.
  - rewrite checkAndExecuteOrders_loop_cons.
    assert (Hrest : forall o, o ∈ rest ->
              OrderManager.shouldTriggerOrder o position = true ->
              Order.id o ≠ Order.id row).
    { intros o Ho. apply Hids. apply elem_of_cons. right. exact Ho. }
    destruct (OrderManager.shouldTriggerOrder order position) eqn:Htrigger.
    2: { apply IH; assumption. }
    assert (Hne : Order.id row ≠ Order.id order).
    { intros E. apply (Hids order); [apply elem_of_cons; left; reflexivity
                                     | exact Htrigger | symmetry; exact E]. }
    pose proof (preserves_trigger_and_execute (only_order (Order.id order))
                  CONFIG order position w row Hrow Hne) as Hkept.
    destruct (trigger_and_execute CONFIG order position w) as [[[order' result]|e] w1];
      simpl in Hkept; [|exact Hkept].
    destruct (negb (success result) && _); [exact Hkept|].
    destruct (success result && _); [exact Hkept|].
    apply IH; assumption.
Qed.







(** ** Creating a position *)

Lemma all_positions_active (rows : list Position) :
  filter (fun r => Position.status r = ACTIVE) rows = rows.
Proof.
  induction rows as [|r rest IH]; [reflexivity|].
  rewrite filter_cons. destruct (decide (Position.status r = ACTIVE)) as [_|Hn].
  - rewrite IH. reflexivity.
  - destruct (Position.status r). contradiction.
Qed.

Lemma active_count_length (w : World) :
  active_count w = Z.of_nat (length (positions w)).
Proof. unfold active_count. rewrite all_positions_active. reflexivity. Qed.

Lemma find_position_None (address : string) (rows : list Position) :
  List.find (fun r => String.eqb (Position.address r) address) rows = None ->
  address ∉ map Position.address rows.
Proof.
  induction rows as [|r rest IH]; simpl; intros H.
  - apply not_elem_of_nil.
  - destruct (String.eqb (Position.address r) address) eqn:E; [discriminate|].
    apply String.eqb_neq in E. apply not_elem_of_cons. split; [congruence|].
    apply IH. exact H.
Qed.

Lemma preserves_deletePosition (positionId : string) :
  preserves no_new_position (TradingDatabase.deletePosition positionId).
Proof.
  unfold TradingDatabase.deletePosition.
  apply preserves_bind; [tc_solve | apply preserves_run_statement; tc_solve | intros _].
  apply preserves_modify. intros w. unfold no_new_position. simpl.
  apply sublist_filter.
Qed.

Lemma keeps_positions_no_new (w w' : World) :
  keeps positions w w' -> no_new_position w w'.
Proof. unfold keeps, no_new_position. intros ->. reflexivity. Qed.

Lemma insertPosition_cases (position : Position) (w : World) :
  (exists e, (TradingDatabase.insertPosition position w).1 = Throw e
     /\ positions (TradingDatabase.insertPosition position w).2 = positions w)
  \/ ((TradingDatabase.insertPosition position w).1 = Ret tt
      /\ positions (TradingDatabase.insertPosition position w).2
         = positions w ++ [position]).
Proof.
  unfold TradingDatabase.insertPosition. rewrite bind_run, run_statement_eq.
  destruct (db_faults w) as [|[e|] faults];
    try (left; eexists; split; reflexivity);
    rewrite bind_run; unfold gets; simpl;
    (destruct (existsb _ _);
     [left; eexists; split; reflexivity | right; split; reflexivity]).
Qed.

(** Once the row is inserted, the rest of the [try] block adds no position. *)
Lemma createPosition_try_positions
    (CONFIG : TradingConfig) (Number_toString : JS.number -> string)
    (position : Position) (w : World) :
  let w' := (PositionManager.createPosition_try CONFIG Number_toString position w).2 in
  positions w' = positions w
  \/ sublist (positions w') (positions w ++ [position]).
Proof.
  cbv zeta. unfold PositionManager.createPosition_try. rewrite bind_run.
  destruct (insertPosition_cases position w) as [(e & Hout & Hpos)|[Hout Hpos]];
    destruct (TradingDatabase.insertPosition position w) as [out w1];
    simpl in Hout, Hpos; subst out.
  - left. exact Hpos.
  - right. rewrite <- Hpos.
    match goal with
    | |- context [(mbind ?f ?m) w1] =>
        assert (H : preserves no_new_position (mbind f m)); [|exact (H w1)]
    end.
    frame; try apply preserves_deletePosition;
      (eapply preserves_weaken; [exact keeps_positions_no_new|]);
      eauto with frame typeclass_instances.
Qed.

Lemma unique_addresses_sublist (rows rows' : list Position) :
  sublist rows' rows ->
  NoDup (map Position.address rows) -> NoDup (map Position.address rows').
Proof.
  intros Hsub Hnodup. apply (sublist_NoDup _ _ Hnodup).
  change (sublist (Position.address <$> rows') (Position.address <$> rows)).
  apply fmap_sublist. exact Hsub.
Qed.

(** C4: the guards of [createPosition], in order.  When the number of active
    positions has reached the configured maximum, only the count is read;
    when a position already exists for the instrument, only the count and
    the position are read.  In both cases nothing is written and no position
    is returned: the call returns none (or passes on the failure of one of
    the two reads).  Consequently a call never gives an instrument a second
    position and never takes the number of active positions above the
    maximum. *)
Theorem createPosition_guards
    (CONFIG : TradingConfig) (Number_toString : JS.number -> string)
    (token : TokenData) (solInvested : JS.number) (w : World) :
  let outcome :=
    (PositionManager.createPosition CONFIG Number_toString token solInvested w).1 in
  let w' :=
    (PositionManager.createPosition CONFIG Number_toString token solInvested w).2 in
  (MAX_POSITIONS CONFIG <= active_count w ->
     w' = statements_run 1 w
     /\ (forall position, outcome <> Ret (Some position))
     /\ (db_faults w = [] -> outcome = Ret None /\ w' = w))
  /\ (find_position (TokenData.a token) w <> None ->
      (w' = statements_run 1 w \/ w' = statements_run 2 w)
      /\ (forall position, outcome <> Ret (Some position))
      /\ (db_faults w = [] -> outcome = Ret None /\ w' = w))
  /\ (unique_addresses w -> unique_addresses w')
  /\ (active_count w <= MAX_POSITIONS CONFIG ->
      active_count w' <= MAX_POSITIONS CONFIG).
Proof.
  cbv zeta.
  destruct (PositionManager.createPosition CONFIG Number_toString token solInvested w)
    as [out w'] eqn:E.
  unfold PositionManager.createPosition in E. cbv zeta in E.
  unfold TradingDatabase.getPositionCount, TradingDatabase.getPosition in E.
  rewrite !bind_run, run_statement_eq in E. unfold gets in E.
  fold (active_count (statements_run 1 w)) in E.
  assert (Hcount : active_count (statements_run 1 w) = active_count w) by reflexivity.
  rewrite Hcount in E. clear Hcount.
  simpl.
  destruct (db_faults w) as [|[e|] faults] eqn:Hfaults.
  2: { (* the count cannot be read *)
       injection E as <- <-.
       split; [|split; [|split]]; intros H; auto.
       - split; [reflexivity|]. split; [discriminate|]. discriminate.
       - split; [left; reflexivity|]. split; [discriminate|]. discriminate. }
  all: destruct (MAX_POSITIONS CONFIG <=? active_count w) eqn:Hmax;
    [ apply Z.leb_le in Hmax | apply Z.leb_gt in Hmax ].
  1, 3: (* the risk limit is reached *)
    injection E as <- <-;
    (split; [|split; [|split]]; intros H; auto);
    [ split; [reflexivity|]
    | split; [left; reflexivity|] ];
    (split; [discriminate|]);
    intros Hnone; (split; [reflexivity|]);
    first [ discriminate Hnone | apply statements_run_no_fault; exact Hfaults ].
  (* below the maximum: the position is looked up *)
  all: rewrite !bind_run, run_statement_eq in E;
    change (List.find _ (positions (statements_run 1 (statements_run 1 w))))
      with (find_position (TokenData.a token) w) in E;
    rewrite statements_run_twice in E.
  all: destruct (db_faults (statements_run 1 w)) as [|[e|] faults2] eqn:Hfaults2.
  2, 5: (* the position cannot be read *)
    injection E as <- <-;
    (split; [|split; [|split]]; intros H; auto); [lia|];
    (split; [right; reflexivity|]); (split; [discriminate|]);
    intros Hnone;
    first [ discriminate Hnone
          | unfold statements_run in Hfaults2; simpl in Hfaults2;
            rewrite Hfaults in Hfaults2; discriminate Hfaults2 ].
  all: destruct (find_position (TokenData.a token) w) as [existing|] eqn:Hfind.
  1, 3, 5, 7: (* a position exists *)
    injection E as <- <-;
    (split; [|split; [|split]]; intros H; auto); [lia|];
    (split; [right; reflexivity|]); (split; [discriminate|]);
    intros Hnone; (split; [reflexivity|]);
    first [ discriminate Hnone | apply statements_run_no_fault; exact Hfaults ].
  (* the guards are passed *)
  all: unfold Date_now, gets in E; rewrite !bind_run in E; unfold try_catch in E;
    match type of E with
    | context [PositionManager.createPosition_try _ _ ?p ?w2] =>
        pose proof (createPosition_try_positions CONFIG Number_toString p w2) as Hpos;
        cbv zeta in Hpos;
        destruct (PositionManager.createPosition_try CONFIG Number_toString p w2)
          as [[v|e] w3]
    end;
    simpl in Hpos; injection E as _ <-;
    (split; [|split; [|split]]; intros H; [lia|congruence| |]).
  all: destruct Hpos as [Hpos|Hpos];
    try (unfold unique_addresses, active_count in *; rewrite Hpos; exact H).
  all: try (unfold unique_addresses in *;
            apply (unique_addresses_sublist _ _ Hpos);
            rewrite map_app; apply NoDup_app; split; [exact H|]; split;
            [ intros x Hx Hx'; apply list_elem_of_singleton in Hx'; subst x;
              apply (find_position_None _ _ Hfind); exact Hx
            | apply NoDup_singleton ]).
  all: rewrite active_count_length in *;
    apply sublist_length in Hpos; rewrite length_app in Hpos; simpl in Hpos; lia.
Qed.

(** ** Updating a position *)

Lemma closePosition_positions (address : string) (w : World) :
  let w' := (PositionManager.closePosition address w).2 in
  positions w' = positions w
  \/ exists positionId,
       positions w' = filter (fun r => Position.id r ≠ positionId) (positions w).
Proof.
  cbv zeta. unfold PositionManager.closePosition, TradingDatabase.getPosition.
  rewrite !bind_run, run_statement_eq.
  destruct (db_faults w) as [|[e|] faults]; try (left; reflexivity).
  all: unfold gets; cbv beta iota;
    destruct (List.find _ _) as [position|]; [|left; reflexivity];
    rewrite bind_run;
    pose proof (preserves_cancelPositionOrders (keeps positions) (Position.id position)
                  (statements_run 1 w)) as Hcancel;
    destruct (TradingDatabase.cancelPositionOrders (Position.id position) _)
      as [[count|e] w2]; unfold keeps in Hcancel; simpl in Hcancel;
    [|left; exact Hcancel];
    unfold TradingDatabase.deletePosition; rewrite bind_run, run_statement_eq;
    destruct (db_faults w2) as [|[e|] faults2]; simpl;
    try (left; exact Hcancel);
    right; exists (Position.id position); rewrite Hcancel; reflexivity.
Qed.

Lemma updatePosition_cases
    (CONFIG : TradingConfig) (address : string) (newPrice lfg : JS.number)
    (w : World) :
  let outcome := (PositionManager.updatePosition CONFIG address newPrice lfg w).1 in
  let w' := (PositionManager.updatePosition CONFIG address newPrice lfg w).2 in
  match find_position address w with
  | None => positions w' = positions w /\ forall q, outcome <> Ret (Some q)
  | Some p =>
      let p1 := updated newPrice lfg (clock w) p in
      let rows1 := map (TradingDatabase.update_row p1) (positions w) in
      (positions w' = positions w /\ forall q, outcome <> Ret (Some q))
      \/ (positions w' = rows1 /\ forall q, outcome = Ret (Some q) -> q = p1)
      \/ (exists positionId,
            positions w' = filter (fun r => Position.id r ≠ positionId) rows1
            /\ forall q, outcome <> Ret (Some q))
  end.
Proof.
  cbv zeta.
  destruct (PositionManager.updatePosition CONFIG address newPrice lfg w)
    as [out w'] eqn:E. simpl.
  unfold PositionManager.updatePosition, TradingDatabase.getPosition in E.
  rewrite !bind_run, run_statement_eq in E. unfold gets in E.
  change (List.find _ (positions (statements_run 1 w)))
    with (find_position address w) in E.
  destruct (find_position address w) as [p|] eqn:Hfind.
  2: { destruct (db_faults w) as [|[e|] faults]; injection E as <- <-;
         split; try reflexivity; discriminate. }
  destruct (db_faults w) as [|[e|] faults] eqn:Hfaults.
  2: { injection E as <- <-. left. split; [reflexivity|discriminate]. }
  all: unfold Date_now, gets in E; rewrite bind_run in E; cbv beta iota zeta in E;
    change (clock (statements_run 1 w)) with (clock w) in E;
    fold (updated newPrice lfg (clock w) p) in E;
    set (p1 := updated newPrice lfg (clock w) p) in *;
    unfold TradingDatabase.updatePosition in E;
    rewrite !bind_run, run_statement_eq in E;
    destruct (db_faults (statements_run 1 w)) as [|[e|] faults2];
    try (injection E as <- <-; left; split; [reflexivity|discriminate]).
  all: unfold modify in E; cbv beta iota in E; rewrite bind_run in E;
    match type of E with
    | context [OrderManager.checkAndExecuteOrders _ ?p2 ?w3] =>
        pose proof (preserves_checkAndExecuteOrders (keeps positions) CONFIG p2 w3)
          as Hpass;
        destruct (OrderManager.checkAndExecuteOrders CONFIG p2 w3) as [[[]|e] w4]
    end;
    unfold keeps in Hpass; simpl in Hpass.
  all: first
    [ (* the pass signals the close *)
      rewrite bind_run in E;
      pose proof (closePosition_positions address w4) as Hclose; cbv zeta in Hclose;
      destruct (PositionManager.closePosition address w4) as [[[]|e'] w5];
      simpl in Hclose; unfold mret, M_ret in E; injection E as <- <-;
      (destruct Hclose as [Hclose|[positionId Hclose]];
       [ right; left; rewrite Hclose, Hpass; split; [reflexivity|discriminate]
       | right; right; exists positionId; rewrite Hclose, Hpass;
         split; [reflexivity|discriminate] ])
    | (* the position stays open, or the pass throws *)
      unfold mret, M_ret in E; injection E as <- <-; right; left; rewrite Hpass;
      split; [reflexivity|]; intros q Hq; congruence ].
Qed.

Lemma find_address_elem (address : string) (rows : list Position) (p : Position) :
  List.find (fun r => String.eqb (Position.address r) address) rows = Some p ->
  p ∈ rows /\ Position.address p = address.
Proof.
  intros H. apply List.find_some in H as [Hin Heq].
  split; [apply list_elem_of_In; exact Hin | apply String.eqb_eq; exact Heq].
Qed.

Lemma update_row_address (p1 r : Position) :
  Position.address (TradingDatabase.update_row p1 r) = Position.address r.
Proof.
  unfold TradingDatabase.update_row. destruct (String.eqb _ _); reflexivity.
Qed.



(** The row of the position that was read is, after the write, the position
    object that was written. *)
Lemma update_row_updated (newPrice lfg : JS.number) (now : Z) (p : Position) :
  TradingDatabase.update_row (updated newPrice lfg now p) p
  = updated newPrice lfg now p.
Proof.
  unfold TradingDatabase.update_row, updated. simpl.
  rewrite String.eqb_refl. destruct (JS.truthy lfg); reflexivity.
Qed.

Lemma find_update_row (address : string) (p1 : Position) (rows : list Position) :
  List.find (fun r => String.eqb (Position.address r) address)
    (map (TradingDatabase.update_row p1) rows)
  = option_map (TradingDatabase.update_row p1)
      (List.find (fun r => String.eqb (Position.address r) address) rows).
Proof.
  induction rows as [|r rest IH]; [reflexivity|]. simpl.
  rewrite update_row_address.
  destruct (String.eqb (Position.address r) address); [reflexivity|exact IH].
Qed.

Lemma unique_address_eq (rows : list Position) (p r : Position) :
  NoDup (map Position.address rows) -> p ∈ rows -> r ∈ rows ->
  Position.address r = Position.address p -> r = p.
Proof. intros Hnd Hp Hr Heq. exact (NoDup_map_eq _ _ _ _ Hnd Hr Hp Heq). Qed.

(** With one row per instrument, what is stored for the instrument after an
    update is the row that was there or the position written. *)
Lemma updatePosition_stored
    (CONFIG : TradingConfig) (address : string) (newPrice lfg : JS.number)
    (w : World) (p q : Position) :
  unique_addresses w ->
  find_position address w = Some p ->
  find_position address
    (PositionManager.updatePosition CONFIG address newPrice lfg w).2 = Some q ->
  q = p \/ q = updated newPrice lfg (clock w) p.
Proof.
  intros Hunique Hfind Hq.
  pose proof (updatePosition_cases CONFIG address newPrice lfg w) as Hcases.
  cbv zeta in Hcases. rewrite Hfind in Hcases.
  destruct (find_address_elem _ _ _ Hfind) as [Hp Hpa].
  unfold find_position in Hq.
  destruct Hcases as [[Hpos _]|[[Hpos _]|(positionId & Hpos & _)]];
    rewrite Hpos in Hq.
  - left. unfold find_position in Hfind. congruence.
  - right. rewrite find_update_row in Hq. unfold find_position in Hfind.
    rewrite Hfind in Hq. simpl in Hq. rewrite update_row_updated in Hq. congruence.
  - right. destruct (find_address_elem _ _ _ Hq) as [Hin Hqa].
    apply list_elem_of_filter in Hin as [_ Hin].
    apply list_elem_of_fmap in Hin as (r & -> & Hr).
    rewrite update_row_address in Hqa.
    assert (r = p) as ->.
    { apply (unique_address_eq (positions w)); try assumption. congruence. }
    apply update_row_updated.
Qed.

Lemma updatePosition_unique_addresses
    (CONFIG : TradingConfig) (address : string) (newPrice lfg : JS.number)
    (w : World) :
  unique_addresses w ->
  unique_addresses (PositionManager.updatePosition CONFIG address newPrice lfg w).2.
Proof.
  intros Hunique.
  pose proof (updatePosition_cases CONFIG address newPrice lfg w) as Hcases.
  cbv zeta in Hcases. unfold unique_addresses in *.
  assert (Hmap : forall p1,
            map Position.address (map (TradingDatabase.update_row p1) (positions w))
            = map Position.address (positions w)).
  { intros p1. rewrite map_map. apply map_ext. intros r. apply update_row_address. }
  destruct (find_position address w) as [p|].
  - destruct Hcases as [[Hpos _]|[[Hpos _]|(positionId & Hpos & _)]]; rewrite Hpos.
    + exact Hunique.
    + rewrite Hmap. exact Hunique.
    + apply (unique_addresses_sublist
               (map (TradingDatabase.update_row (updated newPrice lfg (clock w) p))
                  (positions w))).
      * apply sublist_filter.
      * rewrite Hmap. exact Hunique.
  - destruct Hcases as [Hpos _]. rewrite Hpos. exact Hunique.
Qed.

Lemma updatePosition_absent
    (CONFIG : TradingConfig) (address : string) (newPrice lfg : JS.number)
    (w : World) :
  find_position address w = None ->
  find_position address
    (PositionManager.updatePosition CONFIG address newPrice lfg w).2 = None.
Proof.
  intros Hfind.
  pose proof (updatePosition_cases CONFIG address newPrice lfg w) as Hcases.
  cbv zeta in Hcases. rewrite Hfind in Hcases. destruct Hcases as [Hpos _].
  unfold find_position in *. rewrite Hpos. exact Hfind.
Qed.

(** One update: what is stored afterwards lies above the old high-water mark
    and below the old low-water mark. *)
Lemma updatePosition_monotone
    (CONFIG : TradingConfig) (address : string) (newPrice lfg : JS.number)
    (w : World) (p q : Position) :
  unique_addresses w ->
  find_position address w = Some p ->
  JS.isNaN newPrice = false ->
  JS.isNaN (Position.highestPrice p) = false ->
  JS.isNaN (Position.lowestPrice p) = false ->
  find_position address
    (PositionManager.updatePosition CONFIG address newPrice lfg w).2 = Some q ->
  JS.le (Position.highestPrice p) (Position.highestPrice q) = true
  /\ JS.le (Position.lowestPrice q) (Position.lowestPrice p) = true
  /\ JS.isNaN (Position.highestPrice q) = false
  /\ JS.isNaN (Position.lowestPrice q) = false.
Proof.
  intros Hunique Hfind Hnew Hhigh Hlow Hq.
  destruct (updatePosition_stored CONFIG address newPrice lfg w p q Hunique Hfind Hq)
    as [->| ->].
  - unfold JS.le. rewrite !leb_refl by assumption. auto.
  - simpl. unfold JS.le.
    destruct (Math_max_cases _ _ Hhigh Hnew) as (_ & Hmax & _).
    destruct (Math_min_cases _ _ Hlow Hnew) as (_ & Hmin & _).
    rewrite Hmax, Hmin, Math_max_not_NaN, Math_min_not_NaN by assumption. auto.
Qed.

(** Any number of updates. *)
Lemma update_all_monotone
    (CONFIG : TradingConfig) (address : string)
    (ticks : list (JS.number * JS.number)) (w : World) (p q : Position) :
  unique_addresses w ->
  find_position address w = Some p ->
  Forall (fun tick => JS.isNaN tick.1 = false) ticks ->
  JS.isNaN (Position.highestPrice p) = false ->
  JS.isNaN (Position.lowestPrice p) = false ->
  find_position address (update_all CONFIG address ticks w) = Some q ->
  JS.le (Position.highestPrice p) (Position.highestPrice q) = true
  /\ JS.le (Position.lowestPrice q) (Position.lowestPrice p) = true.
Proof.
  revert w p. induction ticks as [|[newPrice lfg] rest IH];
    intros w p Hunique Hfind Hticks Hhigh Hlow Hq; simpl in Hq.
  - assert (q = p) as -> by congruence.
    unfold JS.le. rewrite !leb_refl by assumption. auto.
  - apply Forall_cons in Hticks as [Hnew Hrest]. simpl in Hnew.
    set (w1 := (PositionManager.updatePosition CONFIG address newPrice lfg w).2) in *.
    destruct (find_position address w1) as [p1|] eqn:Hfind1.
    + destruct (updatePosition_monotone CONFIG address newPrice lfg w p p1
                  Hunique Hfind Hnew Hhigh Hlow Hfind1) as (Hh1 & Hl1 & Hn1 & Hn2).
      destruct (IH w1 p1
                  (updatePosition_unique_addresses CONFIG address newPrice lfg w Hunique)
                  Hfind1 Hrest Hn1 Hn2 Hq) as [Hh2 Hl2].
      unfold JS.le in *. split; eapply leb_trans; eassumption.
    + exfalso.
      assert (Hgone : forall ticks' w', find_position address w' = None ->
                find_position address (update_all CONFIG address ticks' w') = None).
      { induction ticks' as [|[price' lfg'] rest' IH']; intros w' Hnone; simpl.
        - exact Hnone.
        - apply IH'. apply updatePosition_absent. exact Hnone. }
      rewrite (Hgone rest w1 Hfind1) in Hq. discriminate.
Qed.

(** C5: the extrema of a position under [updatePosition].  When an update
    returns the position, what is stored for the instrument is the position
    returned, its [highestPrice] is [Math.max] of the previous [highestPrice]
    and the new price, and its [lowestPrice] is [Math.min] of the previous
    [lowestPrice] and the new price.  For prices that are numbers, whatever an
    update ends in (returned, closed, thrown), a position stored for the
    instrument afterwards has a [highestPrice] at least the previous one and
    a [lowestPrice] at most the previous one; and so has the position stored
    after any sequence of updates, compared with the one stored before it:
    the high-water mark never decreases, the low-water mark never
    increases. *)
Theorem updatePosition_extrema
    (CONFIG : TradingConfig) (address : string) (newPrice lfg : JS.number)
    (ticks : list (JS.number * JS.number)) (w : World) (p : Position) :
  find_position address w = Some p ->
  let outcome := (PositionManager.updatePosition CONFIG address newPrice lfg w).1 in
  let w' := (PositionManager.updatePosition CONFIG address newPrice lfg w).2 in
  (forall q, outcome = Ret (Some q) ->
     find_position address w' = Some q
     /\ Position.highestPrice q = JS.Math_max (Position.highestPrice p) newPrice
     /\ Position.lowestPrice q = JS.Math_min (Position.lowestPrice p) newPrice)
  /\ (unique_addresses w ->
      JS.isNaN (Position.highestPrice p) = false ->
      JS.isNaN (Position.lowestPrice p) = false ->
      (JS.isNaN newPrice = false ->
       forall q, find_position address w' = Some q ->
         JS.le (Position.highestPrice p) (Position.highestPrice q) = true
         /\ JS.le (Position.lowestPrice q) (Position.lowestPrice p) = true)
      /\ (Forall (fun tick => JS.isNaN tick.1 = false) ticks ->
          forall q, find_position address (update_all CONFIG address ticks w) = Some q ->
            JS.le (Position.highestPrice p) (Position.highestPrice q) = true
            /\ JS.le (Position.lowestPrice q) (Position.lowestPrice p) = true)).
Proof.
  intros Hfind. cbv zeta. split.
  - intros q Hq.
    pose proof (updatePosition_cases CONFIG address newPrice lfg w) as Hcases.
    cbv zeta in Hcases. rewrite Hfind in Hcases.
    destruct Hcases as [[_ Hno]|[[Hpos Hout]|(positionId & _ & Hno)]];
      try (exfalso; exact (Hno q Hq)).
    specialize (Hout q Hq). subst q.
    split; [|split; reflexivity].
    unfold find_position. rewrite Hpos, find_update_row.
    unfold find_position in Hfind. rewrite Hfind. simpl.
    rewrite update_row_updated. reflexivity.
  - intros Hunique Hhigh Hlow. split.
    + intros Hnew q Hq.
      destruct (updatePosition_monotone CONFIG address newPrice lfg w p q
                  Hunique Hfind Hnew Hhigh Hlow Hq) as (H1 & H2 & _).
      split; assumption.
    + intros Hticks q Hq.
      exact (update_all_monotone CONFIG address ticks w p q
               Hunique Hfind Hticks Hhigh Hlow Hq).
Qed.


(** * Worked examples and departures *)

(** C1, where the code departs from the specification.  The position on "Mint1" has one
    pending order, a take-profit that sells 50% at 100000.  The price reaches
    200000 and the chain reports a balance of zero.  The sell execution
    returns the zero-balance result, a success carrying the marker; but the
    pass tests for the marker on a failed result, so it marks the order
    COMPLETED, does not signal the close, and the position stays stored. *)
Theorem zero_balance_partial_sell_does_not_close :
  let order := Examples.take_profit "o1" 50%float 100000%float in
  let position := Examples.position 200000%float 200000%float 50000%float in
  let w := Examples.holding [order] [Balance (Some 0)] [] in
  (OrderManager.executeSellOrder Examples.CONFIG order position w).1
  = Ret {| success := true;
           result_signature := None;
           result_error := Some OrderManager.NO_BALANCE |}
  /\ OrderManager.shouldTriggerOrder order position = true
  /\ (OrderManager.checkAndExecuteOrders Examples.CONFIG position w).1 = Ret false
  /\ map Order.status
       (orders (OrderManager.checkAndExecuteOrders Examples.CONFIG position w).2)
     = [COMPLETED]
  /\ (exists open,
        (PositionManager.updatePosition Examples.CONFIG "Mint1" 200000%float 0%float w).1
        = Ret (Some open)
        /\ find_position "Mint1"
             (PositionManager.updatePosition Examples.CONFIG "Mint1" 200000%float
                0%float w).2
           = Some open).
Proof.
  cbv zeta. repeat split; try (vm_compute; reflexivity).
  eexists. split; vm_compute; reflexivity.
Qed.

(** C2, where the code departs from the specification.  A fresh process creates a position
    for "Mint1" at 25000.  When the opening buy fails, the position row and
    its orders are deleted again.  When instead the insertion of the first
    default order fails (the fourth database statement), the [catch] block
    returns none without the compensating delete: the position row stays in
    the store. *)
Theorem createPosition_keeps_row_when_order_insert_fails :
  let token := Examples.tick (Some "DOG") 25000%float in
  let create :=
    PositionManager.createPosition Examples.CONFIG Examples.Number_toString token
      (SOL_INVESTMENT_AMOUNT Examples.CONFIG) in
  let failed_buy := Examples.starting [] [None] in
  let failed_insert := Examples.starting [None; None; None; Some "disk I/O error"] [] in
  ((create failed_buy).1 = Ret None
   /\ positions (create failed_buy).2 = []
   /\ orders (create failed_buy).2 = [])
  /\ ((create failed_insert).1 = Ret None
      /\ map Position.address (positions (create failed_insert).2) = ["Mint1"]
      /\ find_position "Mint1" (create failed_insert).2 <> None).
Proof.
  cbv zeta. repeat split; try (vm_compute; reflexivity).
  vm_compute. discriminate.
Qed.

(** C3, where the code departs from the specification.  The process holds
    "Mint1" with the order "o1" pending and nothing in flight.  The order is
    executed while the database refuses the next statement, which is the
    write of the status EXECUTING, placed between the insertion of the
    marker and the [try] block.  [executeOrder] throws, the identity "o1"
    is left in the in-flight set, and the next call for the order is refused
    as already executing without anything being done.  When instead the same
    statement succeeds, the marker is released. *)
Theorem executeOrder_keeps_marker_when_status_write_throws :
  let order := MoreExamples.held_order in
  let position := MoreExamples.risen in
  let first :=
    OrderManager.executeOrder Examples.CONFIG order position
      MoreExamples.failing_write in
  ("o1" ∉ executingOrders MoreExamples.failing_write)
  /\ first.1 = Throw "disk I/O error"
  /\ "o1" ∈ executingOrders first.2
  /\ OrderManager.executeOrder Examples.CONFIG order position first.2
     = (Ret (order, failed "Order already executing"), first.2)
  /\ (exists v,
        (OrderManager.executeOrder Examples.CONFIG order position MoreExamples.held).1
        = Ret v)
  /\ ("o1" ∉ executingOrders
               (OrderManager.executeOrder Examples.CONFIG order position
                  MoreExamples.held).2).
Proof.
  cbv zeta.
  assert (Hidle : Order.id MoreExamples.held_order
                  ∉ executingOrders MoreExamples.failing_write)
    by apply not_elem_of_empty.
  destruct (executeOrder_status_write_throws Examples.CONFIG MoreExamples.held_order
              MoreExamples.risen MoreExamples.failing_write "disk I/O error" []
              Hidle eq_refl) as (Hthrow & Hmarked & Hagain).
  split; [exact Hidle|]. rewrite Hthrow.
  split; [reflexivity|]. split; [exact Hmarked|].
  split; [exact (Hagain _ _ eq_refl)|].
  split; [eexists; vm_compute; reflexivity|].
  destruct (executeOrder_in_flight Examples.CONFIG MoreExamples.held_order
              MoreExamples.risen MoreExamples.held) as [_ Hreleased].
  destruct (Hreleased (not_elem_of_empty _)) as [Hret _].
  edestruct Hret as [_ Hout]; [vm_compute; reflexivity | exact Hout].
Qed.

(** ** The theorems at work on the examples *)

(** A sell that the venue confirms with the signature "5ig" leaves its row in
    the trade history. *)
Lemma trade_history_row_iff_witness :
  let order := Examples.take_profit "o1" 50%float 100000%float in
  let position := Examples.position 200000%float 200000%float 50000%float in
  let w := Examples.holding [order] [Balance (Some 1000); Balance (Some 1000)]
             [Some "5ig"] in
  db_faults w = []
  /\ exists order' result,
       OrderManager.executeOrder Examples.CONFIG order position w
       = (Ret (order', result),
          (OrderManager.executeOrder Examples.CONFIG order position w).2)
       /\ recorded order result = true
       /\ length (trade_history
                    (OrderManager.executeOrder Examples.CONFIG order position w).2)
          = 1%nat.
Proof.
  cbv zeta. split; [reflexivity|].
  destruct (proj2 (trade_history_row_iff Examples.CONFIG
                     (Examples.take_profit "o1" 50%float 100000%float)
                     (Examples.position 200000%float 200000%float 50000%float)
                     (Examples.holding
                        [Examples.take_profit "o1" 50%float 100000%float]
                        [Balance (Some 1000); Balance (Some 1000)] [Some "5ig"]))
              eq_refl) as (order' & result & Hrun & Hhistory).
  exists order', result. split; [exact Hrun|].
  assert (Hrecorded : recorded (Examples.take_profit "o1" 50%float 100000%float) result
                      = true).
  { revert Hrun. vm_compute. intros Hrun. injection Hrun as _ <-. reflexivity. }
  split; [exact Hrecorded|].
  rewrite Hhistory, Hrecorded. reflexivity.
Defined.


(** With a maximum of one position and "Mint1" already held, a tick for
    "Mint1" creates nothing. *)
Lemma createPosition_guards_witness :
  let w := Examples.holding [] [] [] in
  let token := Examples.tick (Some "DOG") 25000%float in
  MAX_POSITIONS Examples.CONFIG_one <= active_count w
  /\ find_position (TokenData.a token) w <> None
  /\ PositionManager.createPosition Examples.CONFIG_one Examples.Number_toString token
       (SOL_INVESTMENT_AMOUNT Examples.CONFIG_one) w
     = (Ret None, w)
  /\ unique_addresses
       (PositionManager.createPosition Examples.CONFIG_one Examples.Number_toString
          token (SOL_INVESTMENT_AMOUNT Examples.CONFIG_one) w).2
  /\ active_count
       (PositionManager.createPosition Examples.CONFIG_one Examples.Number_toString
          token (SOL_INVESTMENT_AMOUNT Examples.CONFIG_one) w).2
     <= MAX_POSITIONS Examples.CONFIG_one.
Proof.
  cbv zeta.
  pose proof (createPosition_guards Examples.CONFIG_one Examples.Number_toString
                (Examples.tick (Some "DOG") 25000%float)
                (SOL_INVESTMENT_AMOUNT Examples.CONFIG_one)
                (Examples.holding [] [] [])) as H.
  cbv zeta in H. destruct H as (Hrisk & Hduplicate & Hunique & Hbound).
  assert (Hmax : MAX_POSITIONS Examples.CONFIG_one
                 <= active_count (Examples.holding [] [] [])) by (vm_compute; discriminate).
  assert (Hfind : find_position
                    (TokenData.a (Examples.tick (Some "DOG") 25000%float))
                    (Examples.holding [] [] []) <> None) by (vm_compute; discriminate).
  split; [exact Hmax|]. split; [exact Hfind|]. split; [|split].
  - destruct (Hrisk Hmax) as (_ & _ & Hnone).
    destruct (Hnone eq_refl) as [Hout Hw].
    destruct (PositionManager.createPosition _ _ _ _ _) as [out w'].
    simpl in *. congruence.
  - apply Hunique. unfold unique_addresses. simpl.
    apply NoDup_singleton.
  - apply Hbound. vm_compute. discriminate.
Defined.

(** The position on "Mint1", high-water mark 50000, is updated at 60000, and
    then at 40000 and 70000. *)
Lemma updatePosition_extrema_witness :
  let p := Examples.position 50000%float 50000%float 50000%float in
  let w := Examples.holding [] [] [] in
  find_position "Mint1" w = Some p
  /\ (exists q,
        (PositionManager.updatePosition Examples.CONFIG "Mint1" 60000%float 0%float w).1
        = Ret (Some q)
        /\ Position.highestPrice q = 60000%float
        /\ Position.lowestPrice q = 50000%float
        /\ JS.le (Position.highestPrice p) (Position.highestPrice q) = true)
  /\ (exists q,
        find_position "Mint1"
          (update_all Examples.CONFIG "Mint1"
             [(60000%float, 0%float); (40000%float, 0%float); (70000%float, 0%float)] w)
        = Some q
        /\ JS.le (Position.highestPrice p) (Position.highestPrice q) = true
        /\ JS.le (Position.lowestPrice q) (Position.lowestPrice p) = true).
Proof.
  cbv zeta. split; [reflexivity|].
  pose proof (updatePosition_extrema Examples.CONFIG "Mint1" 60000%float 0%float
                [(60000%float, 0%float); (40000%float, 0%float); (70000%float, 0%float)]
                (Examples.holding [] [] [])
                (Examples.position 50000%float 50000%float 50000%float) eq_refl) as H.
  cbv zeta in H. destruct H as [Hreturned Hstored].
  assert (Hunique : unique_addresses (Examples.holding [] [] [])).
  { unfold unique_addresses. simpl. apply NoDup_singleton. }
  destruct (Hstored Hunique eq_refl eq_refl) as [Hone Hall].
  split.
  - eexists. split; [vm_compute; reflexivity|].
    edestruct Hreturned as (Hfound & Hhigh & Hlow); [vm_compute; reflexivity|].
    split; [rewrite Hhigh; reflexivity|]. split; [rewrite Hlow; reflexivity|].
    exact (proj1 (Hone eq_refl _ Hfound)).
  - eexists. split; [vm_compute; reflexivity|].
    apply Hall; [repeat constructor | vm_compute; reflexivity].
Defined.


(** * Invariants of the engine *)

(** ** What every method respects *)

Create HintDb engine.

Section Respects.
Context (CONFIG : TradingConfig) (R : relation World) `{!Invariant CONFIG R}.

Lemma respects_run_statement : preserves R TradingDatabase.run_statement.
Proof.
  intros w. unfold TradingDatabase.run_statement.
  destruct (db_faults w) as [|[e|] rest]; simpl; try reflexivity; apply ignores.
Qed.

Lemma respects_Date_now : preserves R Date_now.
Proof. apply preserves_gets. tc_solve. Qed.

Lemma respects_Math_random_1000 : preserves R Math_random_1000.
Proof.
  intros w. unfold Math_random_1000.
  destruct (randoms w); simpl; [reflexivity | apply ignores].
Qed.

Lemma respects_sendToTelegram (category : string) :
  preserves R (sendToTelegram category).
Proof. intros w. simpl. apply ignores. Qed.

Lemma respects_wait (ms : Z) : preserves R (wait ms).
Proof. intros w. simpl. apply ignores. Qed.

Lemma respects_getTokenBalance (address : string) :
  preserves R (getTokenBalance address).
Proof.
  intros w. unfold getTokenBalance.
  destruct (balance_answers w) as [|[e|b] rest]; simpl; try reflexivity; apply ignores.
Qed.

Hint Resolve respects_run_statement respects_Date_now respects_Math_random_1000
  respects_sendToTelegram respects_wait respects_getTokenBalance
  invariant_executeBuy invariant_executeSell invariant_updatePosition
  invariant_deletePosition invariant_updateOrder invariant_cancelPositionOrders
  invariant_cancelOrder invariant_insertTradeHistory : engine.

Ltac engine :=
  repeat frame_step;
  try solve [ eauto with engine typeclass_instances | apply ignores | tc_solve ].

Lemma respects_getPosition (address : string) :
  preserves R (TradingDatabase.getPosition address).
Proof. unfold TradingDatabase.getPosition. engine. Qed.

Lemma respects_getPositionCount : preserves R TradingDatabase.getPositionCount.
Proof. unfold TradingDatabase.getPositionCount. engine. Qed.

Lemma respects_getPositionOrders (positionId : string) :
  preserves R (TradingDatabase.getPositionOrders positionId).
Proof. unfold TradingDatabase.getPositionOrders. engine. Qed.

Lemma respects_getActivePositions : preserves R TradingDatabase.getActivePositions.
Proof. unfold TradingDatabase.getActivePositions. engine. Qed.

Hint Resolve respects_getPosition respects_getPositionCount
  respects_getPositionOrders respects_getActivePositions : engine.

Lemma respects_executeBuyOrder (order : Order) (position : Position) :
  preserves R (OrderManager.executeBuyOrder CONFIG order position).
Proof. unfold OrderManager.executeBuyOrder. engine. Qed.

Lemma respects_executeSellOrder (order : Order) (position : Position) :
  preserves R (OrderManager.executeSellOrder CONFIG order position).
Proof. unfold OrderManager.executeSellOrder. engine. Qed.

Lemma respects_sendOrderNotification
    (order : Order) (position : Position) (result : OrderExecutionResult) :
  preserves R (OrderManager.sendOrderNotification order position result).
Proof. unfold OrderManager.sendOrderNotification. engine. Qed.

Lemma respects_recordTradeHistory
    (order : Order) (position : Position) (result : OrderExecutionResult) :
  preserves R (OrderManager.recordTradeHistory order position result).
Proof. unfold OrderManager.recordTradeHistory. engine. Qed.

Lemma respects_generateOrderId (positionId : string) (type : OrderType) :
  preserves R (OrderManager.generateOrderId positionId type).
Proof. unfold OrderManager.generateOrderId. engine. Qed.

Lemma respects_executeOrder_catch (order : Order) (message : string) :
  preserves R (OrderManager.executeOrder_catch order message).
Proof. unfold OrderManager.executeOrder_catch. engine. Qed.

Hint Resolve respects_executeBuyOrder respects_executeSellOrder
  respects_sendOrderNotification respects_recordTradeHistory
  respects_generateOrderId respects_executeOrder_catch : engine.

Lemma respects_executeOrder_try (order : Order) (position : Position) :
  preserves R (OrderManager.executeOrder_try CONFIG order position).
Proof. unfold OrderManager.executeOrder_try. engine. Qed.

Hint Resolve respects_executeOrder_try : engine.

Lemma respects_executeOrder (order : Order) (position : Position) :
  preserves R (OrderManager.executeOrder CONFIG order position).
Proof. unfold OrderManager.executeOrder. engine. Qed.

Hint Resolve respects_executeOrder : engine.

Lemma respects_checkAndExecuteOrders_loop
    (pendingOrders : list Order) (position : Position) :
  preserves R (OrderManager.checkAndExecuteOrders_loop CONFIG pendingOrders position).
Proof.
  induction pendingOrders as [|order rest IH]; simpl.
  - engine.
  - destruct (OrderManager.shouldTriggerOrder order position); [|exact IH].
    engine.
Qed.

Hint Resolve respects_checkAndExecuteOrders_loop : engine.

Lemma respects_checkAndExecuteOrders (position : Position) :
  preserves R (OrderManager.checkAndExecuteOrders CONFIG position).
Proof. unfold OrderManager.checkAndExecuteOrders. engine. Qed.

Lemma respects_closePosition (address : string) :
  preserves R (PositionManager.closePosition address).
Proof. unfold PositionManager.closePosition. engine. Qed.

Hint Resolve respects_checkAndExecuteOrders respects_closePosition : engine.

Lemma respects_updatePosition (address : string) (newPrice lfg : JS.number) :
  preserves R (PositionManager.updatePosition CONFIG address newPrice lfg).
Proof. unfold PositionManager.updatePosition. engine. Qed.

Lemma respects_removeOrder (address orderId : string) :
  preserves R (PositionManager.removeOrder address orderId).
Proof. unfold PositionManager.removeOrder. engine. Qed.

Hint Resolve respects_updatePosition respects_removeOrder : engine.

Context `{!CreatesOrders R}.

Hint Resolve creates_orders : engine.

Lemma respects_createOrder (params : OrderCreationParams) :
  preserves R (OrderManager.createOrder params).
Proof. unfold OrderManager.createOrder. engine. Qed.

Hint Resolve respects_createOrder : engine.

Lemma respects_createDefaultOrders
    (Number_toString : JS.number -> string) (position : Position) :
  preserves R (PositionManager.createDefaultOrders CONFIG Number_toString position).
Proof. unfold PositionManager.createDefaultOrders. engine. Qed.

Lemma respects_createAndExecuteImmediateOrder
    (params : OrderCreationParams) (position : Position) :
  preserves R (OrderManager.createAndExecuteImmediateOrder CONFIG params position).
Proof. unfold OrderManager.createAndExecuteImmediateOrder. engine. Qed.

Hint Resolve respects_createDefaultOrders
  respects_createAndExecuteImmediateOrder : engine.

Lemma respects_closePositionManually (address : string) :
  preserves R (PositionManager.closePositionManually CONFIG address).
Proof. unfold PositionManager.closePositionManually. engine. Qed.

Hint Resolve respects_closePositionManually : engine.

Lemma respects_emergencyCloseAll_loop (rows : list Position) :
  preserves R (PositionManager.emergencyCloseAll_loop CONFIG rows).
Proof. induction rows as [|position rest IH]; simpl; engine. Qed.

Hint Resolve respects_emergencyCloseAll_loop : engine.

Lemma respects_emergencyCloseAll :
  preserves R (PositionManager.emergencyCloseAll CONFIG).
Proof. unfold PositionManager.emergencyCloseAll. engine. Qed.

Lemma respects_addCustomOrder (address : string) (orderParams : OrderCreationParams) :
  preserves R (PositionManager.addCustomOrder address orderParams).
Proof. unfold PositionManager.addCustomOrder. engine. Qed.

Context `{!OpensPositions R}.

Hint Resolve opens_positions : engine.

Lemma respects_createPosition
    (Number_toString : JS.number -> string) (token : TokenData)
    (solInvested : JS.number) :
  preserves R (PositionManager.createPosition CONFIG Number_toString token solInvested).
Proof.
  unfold PositionManager.createPosition, PositionManager.createPosition_try. engine.
Qed.

Hint Resolve respects_createPosition : engine.

Lemma respects_filterToken (item : TokenData) : preserves R (filterToken item).
Proof. unfold filterToken. engine. Qed.

Hint Resolve respects_filterToken : engine.

Lemma respects_processToken_try
    (Number_toString : JS.number -> string) (token : TokenData) :
  preserves R (WebSocketHandler.processToken_try CONFIG Number_toString token).
Proof.
  unfold WebSocketHandler.processToken_try, PositionManager.getPosition. engine.
Qed.

Hint Resolve respects_processToken_try : engine.

Lemma respects_processToken `{!Ignores R set_processing}
    (Number_toString : JS.number -> string) (token : TokenData) :
  preserves R (WebSocketHandler.processToken CONFIG Number_toString token).
Proof. unfold WebSocketHandler.processToken. engine. Qed.

End Respects.

(** ** Relations that are invariants *)

(** A relation that ignores the surroundings is respected by the trades, and
    it is an invariant once the writes of the database layer respect it. *)
Lemma invariant_of_writes
    (CONFIG : TradingConfig) (R : relation World)
    `{!IgnoresSurroundings R} `{!Ignores R set_db_faults}
    `{!Ignores R set_executingOrders} :
  (forall position, preserves R (TradingDatabase.updatePosition position)) ->
  (forall positionId, preserves R (TradingDatabase.deletePosition positionId)) ->
  (forall order, preserves R (TradingDatabase.updateOrder order)) ->
  (forall positionId, preserves R (TradingDatabase.cancelPositionOrders positionId)) ->
  (forall orderId, preserves R (TradingDatabase.cancelOrder orderId)) ->
  (forall trade, preserves R (TradingDatabase.insertTradeHistory trade)) ->
  Invariant CONFIG R.
Proof.
  intros. split; try tc_solve; try assumption.
  - intros. apply preserves_executeBuy; tc_solve.
  - intros. apply preserves_executeSell; tc_solve.
Qed.

(** A write of the database layer: one statement, then a change of the
    tables that the relation accepts. *)
Ltac write_respects :=
  intros;
  lazymatch goal with
  | |- preserves _ (?method _) => unfold method
  | |- preserves _ ?method => unfold method
  end;
  apply preserves_bind; [tc_solve | apply preserves_run_statement; tc_solve | intros _].

(** *** A relation that looks at no table *)

Section LooksAtNoTable.
Context (CONFIG : TradingConfig) (R : relation World)
  `{!IgnoresSurroundings R} `{!Ignores R set_db_faults}
  `{!Ignores R set_executingOrders} `{!Ignores R set_positions}
  `{!Ignores R set_orders} `{!Ignores R set_trade_history}.

Lemma looks_at_no_table_cancelOrder (orderId : string) :
  preserves R (TradingDatabase.cancelOrder orderId).
Proof. unfold TradingDatabase.cancelOrder. frame. Qed.

Lemma looks_at_no_table_updatePosition (position : Position) :
  preserves R (TradingDatabase.updatePosition position).
Proof. unfold TradingDatabase.updatePosition. frame. Qed.

Lemma looks_at_no_table_deletePosition (positionId : string) :
  preserves R (TradingDatabase.deletePosition positionId).
Proof.
  unfold TradingDatabase.deletePosition. frame.
  etransitivity; [apply (ignores (setter := set_positions)) | apply ignores].
Qed.

Lemma looks_at_no_table_insertPosition (position : Position) :
  preserves R (TradingDatabase.insertPosition position).
Proof. unfold TradingDatabase.insertPosition. frame. Qed.

Lemma looks_at_no_table_invariant : Invariant CONFIG R.
Proof.
  apply invariant_of_writes; try tc_solve; intros.
  - apply looks_at_no_table_updatePosition.
  - apply looks_at_no_table_deletePosition.
  - apply preserves_updateOrder; tc_solve.
  - apply preserves_cancelPositionOrders; tc_solve.
  - apply looks_at_no_table_cancelOrder.
  - apply preserves_insertTradeHistory; tc_solve.
Qed.

Lemma looks_at_no_table_creates : CreatesOrders R.
Proof. intros order. apply preserves_insertOrder; tc_solve. Qed.

Lemma looks_at_no_table_opens : OpensPositions R.
Proof. intros position. apply looks_at_no_table_insertPosition. Qed.

End LooksAtNoTable.

(** *** The constraints of the schema *)

#[global] Instance stays_consistent_preorder : PreOrder stays_consistent.
Proof.
  split.
  - intros w H. exact H.
  - intros w1 w2 w3 H12 H23 H. apply H23, H12, H.
Qed.

#[global] Hint Extern 1 (Ignores stays_consistent _) =>
  (intros ? ? ?; assumption) : typeclass_instances.

#[global] Instance stays_consistent_surroundings : IgnoresSurroundings stays_consistent.
Proof. split; tc_solve. Qed.

Lemma update_row_id (p1 r : Position) :
  Position.id (TradingDatabase.update_row p1 r) = Position.id r.
Proof.
  unfold TradingDatabase.update_row. destruct (String.eqb _ _); reflexivity.
Qed.

Lemma update_order_row_keys (order r : Order) :
  Order.id (TradingDatabase.update_order_row order r) = Order.id r
  /\ Order.positionId (TradingDatabase.update_order_row order r) = Order.positionId r.
Proof.
  unfold TradingDatabase.update_order_row.
  destruct (String.eqb _ _); split; reflexivity.
Qed.

Lemma cancel_row_keys (positionId : string) (r : Order) :
  Order.id (TradingDatabase.cancel_row positionId r) = Order.id r
  /\ Order.positionId (TradingDatabase.cancel_row positionId r) = Order.positionId r.
Proof.
  unfold TradingDatabase.cancel_row. destruct (bool_decide _); split; reflexivity.
Qed.

Lemma cancel_order_row_keys (orderId : string) (r : Order) :
  Order.id (TradingDatabase.cancel_order_row orderId r) = Order.id r
  /\ Order.positionId (TradingDatabase.cancel_order_row orderId r) = Order.positionId r.
Proof.
  unfold TradingDatabase.cancel_order_row. destruct (bool_decide _); split; reflexivity.
Qed.

(** Rewriting rows in place, keys untouched, keeps the constraints. *)
Lemma consistent_map_orders (f : Order -> Order) (w : World) :
  (forall r, Order.id (f r) = Order.id r /\ Order.positionId (f r) = Order.positionId r) ->
  consistent w -> consistent (set_orders (map f (orders w)) w).
Proof.
  intros Hf (Hid & Haddress & Horder & Href). unfold consistent. simpl.
  split; [exact Hid|]. split; [exact Haddress|]. split.
  - rewrite map_map.
    rewrite (map_ext (fun r => Order.id (f r)) Order.id); [exact Horder|].
    intros r. apply Hf.
  - intros o Ho. apply list_elem_of_fmap in Ho as (r & -> & Hr).
    rewrite (proj2 (Hf r)). apply Href. exact Hr.
Qed.

Lemma consistent_map_positions (f : Position -> Position) (w : World) :
  (forall r, Position.id (f r) = Position.id r) ->
  (forall r, Position.address (f r) = Position.address r) ->
  consistent w -> consistent (set_positions (map f (positions w)) w).
Proof.
  intros Hfid Hfaddress (Hid & Haddress & Horder & Href). unfold consistent. simpl.
  rewrite !map_map.
  rewrite (map_ext (fun r => Position.id (f r)) Position.id) by exact Hfid.
  rewrite (map_ext (fun r => Position.address (f r)) Position.address)
    by exact Hfaddress.
  auto.
Qed.

Lemma existsb_false_not_elem {A : Type} (key : A -> string) (k : string) (rows : list A) :
  existsb (fun r => String.eqb (key r) k) rows = false -> k ∉ map key rows.
Proof.
  induction rows as [|r rest IH]; simpl; intros H.
  - apply not_elem_of_nil.
  - apply orb_false_iff in H as [Hr Hrest]. apply String.eqb_neq in Hr.
    apply not_elem_of_cons. split; [congruence | apply IH; exact Hrest].
Qed.

Lemma existsb_true_elem {A : Type} (key : A -> string) (k : string) (rows : list A) :
  existsb (fun r => String.eqb (key r) k) rows = true -> k ∈ map key rows.
Proof.
  induction rows as [|r rest IH]; simpl; intros H; [discriminate|].
  apply orb_true_iff in H as [Hr|Hrest].
  - apply String.eqb_eq in Hr. subst k. apply elem_of_cons. left. reflexivity.
  - apply elem_of_cons. right. apply IH. exact Hrest.
Qed.

Lemma NoDup_snoc {A : Type} (l : list A) (x : A) :
  NoDup l -> x ∉ l -> NoDup (l ++ [x]).
Proof.
  intros Hl Hx. apply NoDup_app. split; [exact Hl|]. split.
  - intros y Hy Hy'. apply list_elem_of_singleton in Hy'. subst y. exact (Hx Hy).
  - apply NoDup_singleton.
Qed.

Lemma stays_consistent_updatePosition (position : Position) :
  preserves stays_consistent (TradingDatabase.updatePosition position).
Proof.
  write_respects. apply preserves_modify. intros w H.
  apply consistent_map_positions;
    [intros r; apply update_row_id | intros r; apply update_row_address | exact H].
Qed.

Lemma stays_consistent_deletePosition (positionId : string) :
  preserves stays_consistent (TradingDatabase.deletePosition positionId).
Proof.
  write_respects. apply preserves_modify.
  intros w (Hid & Haddress & Horder & Href). unfold consistent. simpl.
  split; [|split; [|split]].
  - apply (sublist_NoDup _ _ Hid).
    change (sublist (Position.id <$> filter (fun r => Position.id r ≠ positionId)
                                       (positions w))
                    (Position.id <$> positions w)).
    apply fmap_sublist, sublist_filter.
  - apply (unique_addresses_sublist (positions w)); [apply sublist_filter | exact Haddress].
  - apply (sublist_NoDup _ _ Horder).
    change (sublist (Order.id <$> filter (fun o => Order.positionId o ≠ positionId)
                                    (orders w))
                    (Order.id <$> orders w)).
    apply fmap_sublist, sublist_filter.
  - intros o Ho. apply list_elem_of_filter in Ho as [Hne Ho].
    specialize (Href o Ho). apply list_elem_of_fmap in Href as (r & Hr & Hin).
    apply list_elem_of_fmap. exists r. split; [exact Hr|].
    apply list_elem_of_filter. split; [congruence | exact Hin].
Qed.

Lemma stays_consistent_updateOrder (order : Order) :
  preserves stays_consistent (TradingDatabase.updateOrder order).
Proof.
  write_respects. apply preserves_modify. intros w H.
  apply consistent_map_orders; [intros r; apply update_order_row_keys | exact H].
Qed.

Lemma stays_consistent_cancelPositionOrders (positionId : string) :
  preserves stays_consistent (TradingDatabase.cancelPositionOrders positionId).
Proof.
  intros w. unfold TradingDatabase.cancelPositionOrders.
  rewrite bind_run, run_statement_eq.
  destruct (db_faults w) as [|[e|] rest] eqn:E; simpl; try (intros H; exact H).
  all: intros H; apply (consistent_map_orders _ (statements_run 1 w));
    [intros r; apply cancel_row_keys | exact H].
Qed.

Lemma stays_consistent_cancelOrder (orderId : string) :
  preserves stays_consistent (TradingDatabase.cancelOrder orderId).
Proof.
  intros w. unfold TradingDatabase.cancelOrder.
  rewrite bind_run, run_statement_eq.
  destruct (db_faults w) as [|[e|] rest] eqn:E; simpl; try (intros H; exact H).
  all: intros H; apply (consistent_map_orders _ (statements_run 1 w));
    [intros r; apply cancel_order_row_keys | exact H].
Qed.

Lemma stays_consistent_insertTradeHistory (trade : TradeHistoryRecord) :
  preserves stays_consistent (TradingDatabase.insertTradeHistory trade).
Proof. apply preserves_insertTradeHistory; tc_solve. Qed.

#[global] Instance stays_consistent_invariant (CONFIG : TradingConfig) :
  Invariant CONFIG stays_consistent.
Proof.
  apply invariant_of_writes; try tc_solve.
  - apply stays_consistent_updatePosition.
  - apply stays_consistent_deletePosition.
  - apply stays_consistent_updateOrder.
  - apply stays_consistent_cancelPositionOrders.
  - apply stays_consistent_cancelOrder.
  - apply stays_consistent_insertTradeHistory.
Qed.

#[global] Instance stays_consistent_creates : CreatesOrders stays_consistent.
Proof.
  intros order w. unfold TradingDatabase.insertOrder.
  rewrite bind_run, run_statement_eq.
  destruct (db_faults w) as [|[e|] rest] eqn:E; simpl; try (intros H; exact H).
  all: rewrite bind_run; unfold gets; cbv beta iota;
    destruct (existsb _ (orders _)) eqn:Hkey; [intros H; exact H|];
    destruct (existsb _ (positions _)) eqn:Hforeign; [|intros H; exact H];
    apply existsb_false_not_elem in Hkey; apply existsb_true_elem in Hforeign;
    simpl in Hkey, Hforeign;
    intros (Hid & Haddress & Horder & Href); unfold consistent; simpl;
    (split; [exact Hid|]); (split; [exact Haddress|]); split;
    [ rewrite map_app; apply NoDup_snoc; [exact Horder | exact Hkey]
    | intros o Ho; apply elem_of_app in Ho as [Ho|Ho];
      [ apply Href; exact Ho
      | apply list_elem_of_singleton in Ho; subst o; exact Hforeign ] ].
Qed.

#[global] Instance stays_consistent_opens : OpensPositions stays_consistent.
Proof.
  intros position w. unfold TradingDatabase.insertPosition.
  rewrite bind_run, run_statement_eq.
  destruct (db_faults w) as [|[e|] rest] eqn:E; simpl; try (intros H; exact H).
  all: rewrite bind_run; unfold gets; cbv beta iota;
    destruct (existsb _ _) eqn:Hkey; [intros H; exact H|];
    intros (Hid & Haddress & Horder & Href); unfold consistent; simpl;
    assert (Hkeys : (Position.id position ∉ map Position.id (positions w))
                    /\ (Position.address position
                          ∉ map Position.address (positions w)));
    [ clear -Hkey; simpl in Hkey; induction (positions w) as [|r rows IH]; simpl;
      [ split; apply not_elem_of_nil
      | simpl in Hkey; apply orb_false_iff in Hkey as [Hr Hrows];
        apply orb_false_iff in Hr as [Hr1 Hr2];
        apply String.eqb_neq in Hr1; apply String.eqb_neq in Hr2;
        destruct (IH Hrows) as [IH1 IH2];
        split; apply not_elem_of_cons; split; congruence ]
    | ];
    destruct Hkeys as [Hkey1 Hkey2]; rewrite !map_app;
    (split; [apply NoDup_snoc; assumption|]);
    (split; [apply NoDup_snoc; assumption|]);
    (split; [exact Horder|]);
    intros o Ho; apply elem_of_app; left; apply Href; exact Ho.
Qed.

(** *** The trade history only grows *)

#[global] Instance history_grows_preorder : PreOrder history_grows.
Proof.
  split.
  - intros w. unfold history_grows. reflexivity.
  - intros w1 w2 w3 H12 H23. unfold history_grows in *. etransitivity; eassumption.
Qed.

#[global] Hint Extern 1 (Ignores history_grows _) =>
  (intros ? ?; unfold history_grows; simpl; reflexivity) : typeclass_instances.

#[global] Instance history_grows_surroundings : IgnoresSurroundings history_grows.
Proof. split; tc_solve. Qed.

Lemma history_grows_insertTradeHistory (trade : TradeHistoryRecord) :
  preserves history_grows (TradingDatabase.insertTradeHistory trade).
Proof.
  write_respects. apply preserves_modify. intros w. unfold history_grows. simpl.
  apply prefix_app_r. reflexivity.
Qed.

#[global] Instance history_grows_invariant (CONFIG : TradingConfig) :
  Invariant CONFIG history_grows.
Proof.
  apply invariant_of_writes; try tc_solve; intros.
  - apply looks_at_no_table_updatePosition; tc_solve.
  - apply looks_at_no_table_deletePosition; tc_solve.
  - apply preserves_updateOrder; tc_solve.
  - apply preserves_cancelPositionOrders; tc_solve.
  - apply looks_at_no_table_cancelOrder; tc_solve.
  - apply history_grows_insertTradeHistory.
Qed.

#[global] Instance history_grows_creates : CreatesOrders history_grows.
Proof. intros order. apply preserves_insertOrder; tc_solve. Qed.

#[global] Instance history_grows_opens : OpensPositions history_grows.
Proof. intros position. apply looks_at_no_table_insertPosition; tc_solve. Qed.

(** *** No instrument is added *)

#[global] Instance no_new_instrument_preorder : PreOrder no_new_instrument.
Proof.
  split.
  - intros w. unfold no_new_instrument. reflexivity.
  - intros w1 w2 w3 H12 H23. unfold no_new_instrument in *.
    etransitivity; eassumption.
Qed.

#[global] Hint Extern 1 (Ignores no_new_instrument _) =>
  (intros ? ?; unfold no_new_instrument; simpl; reflexivity) : typeclass_instances.

#[global] Instance no_new_instrument_surroundings : IgnoresSurroundings no_new_instrument.
Proof. split; tc_solve. Qed.

Lemma map_update_row_address (p1 : Position) (rows : list Position) :
  map Position.address (map (TradingDatabase.update_row p1) rows)
  = map Position.address rows.
Proof. rewrite map_map. apply map_ext. intros r. apply update_row_address. Qed.

#[global] Instance no_new_instrument_invariant (CONFIG : TradingConfig) :
  Invariant CONFIG no_new_instrument.
Proof.
  apply invariant_of_writes; try tc_solve; intros.
  - write_respects. apply preserves_modify. intros w. unfold no_new_instrument.
    simpl. rewrite map_update_row_address. reflexivity.
  - write_respects. apply preserves_modify. intros w. unfold no_new_instrument.
    simpl.
    change (sublist (Position.address <$> filter (fun r => Position.id r ≠ positionId)
                                            (positions w))
                    (Position.address <$> positions w)).
    apply fmap_sublist, sublist_filter.
  - apply preserves_updateOrder; tc_solve.
  - apply preserves_cancelPositionOrders; tc_solve.
  - apply looks_at_no_table_cancelOrder; tc_solve.
  - apply preserves_insertTradeHistory; tc_solve.
Qed.

#[global] Instance no_new_instrument_creates : CreatesOrders no_new_instrument.
Proof. intros order. apply preserves_insertOrder; tc_solve. Qed.

(** *** No order is redefined *)

Lemma same_definition_refl (o : Order) : same_definition o o.
Proof. unfold same_definition. repeat split. Qed.

Lemma same_definition_trans (o1 o2 o3 : Order) :
  same_definition o1 o2 -> same_definition o2 o3 -> same_definition o1 o3.
Proof.
  unfold same_definition. intros H12 H23.
  repeat match goal with H : _ /\ _ |- _ => destruct H end.
  repeat split; congruence.
Qed.

#[global] Instance orders_redefined_nowhere_preorder : PreOrder orders_redefined_nowhere.
Proof.
  split.
  - intros w o Ho. exists o. split; [exact Ho | apply same_definition_refl].
  - intros w1 w2 w3 H12 H23 o3 Ho3.
    destruct (H23 o3 Ho3) as (o2 & Ho2 & Hs23).
    destruct (H12 o2 Ho2) as (o1 & Ho1 & Hs12).
    exists o1. split; [exact Ho1 | eapply same_definition_trans; eassumption].
Qed.

#[global] Hint Extern 1 (Ignores orders_redefined_nowhere _) =>
  (intros ? ? ? ?; eexists; split; [eassumption | apply same_definition_refl])
  : typeclass_instances.

#[global] Instance orders_redefined_nowhere_surroundings :
  IgnoresSurroundings orders_redefined_nowhere.
Proof. split; tc_solve. Qed.

(** Rewriting rows in place redefines no order when each row keeps its
    definition. *)
Lemma orders_redefined_nowhere_map (f : Order -> Order) (w w1 : World) :
  (forall r, same_definition r (f r)) ->
  orders w1 = orders w ->
  orders_redefined_nowhere w (set_orders (map f (orders w1)) w1).
Proof.
  intros Hf Horders o' Ho'. simpl in Ho'. rewrite Horders in Ho'.
  apply list_elem_of_fmap in Ho' as (r & -> & Hr).
  exists r. split; [exact Hr | apply Hf].
Qed.

Lemma update_order_row_same_definition (order r : Order) :
  same_definition r (TradingDatabase.update_order_row order r).
Proof.
  unfold TradingDatabase.update_order_row, same_definition.
  destruct (String.eqb _ _); repeat split.
Qed.

Lemma cancel_row_same_definition (positionId : string) (r : Order) :
  same_definition r (TradingDatabase.cancel_row positionId r).
Proof.
  unfold TradingDatabase.cancel_row, same_definition.
  destruct (bool_decide _); repeat split.
Qed.

Lemma cancel_order_row_same_definition (orderId : string) (r : Order) :
  same_definition r (TradingDatabase.cancel_order_row orderId r).
Proof.
  unfold TradingDatabase.cancel_order_row, same_definition.
  destruct (bool_decide _); repeat split.
Qed.

#[global] Instance orders_redefined_nowhere_invariant (CONFIG : TradingConfig) :
  Invariant CONFIG orders_redefined_nowhere.
Proof.
  apply invariant_of_writes; try tc_solve; intros.
  - apply looks_at_no_table_updatePosition; tc_solve.
  - write_respects. apply preserves_modify. intros w o' Ho'. simpl in Ho'.
    apply list_elem_of_filter in Ho' as [_ Ho'].
    exists o'. split; [exact Ho' | apply same_definition_refl].
  - write_respects. apply preserves_modify. intros w.
    apply orders_redefined_nowhere_map;
      [intros r; apply update_order_row_same_definition | reflexivity].
  - intros w. unfold TradingDatabase.cancelPositionOrders.
    rewrite bind_run, run_statement_eq.
    destruct (db_faults w) as [|[e|] rest]; simpl;
      first [ apply (ignores (setter := set_db_faults))
            | apply (orders_redefined_nowhere_map _ w (statements_run 1 w));
              [intros r; apply cancel_row_same_definition | reflexivity] ].
  - intros w. unfold TradingDatabase.cancelOrder.
    rewrite bind_run, run_statement_eq.
    destruct (db_faults w) as [|[e|] rest]; simpl;
      first [ apply (ignores (setter := set_db_faults))
            | apply (orders_redefined_nowhere_map _ w (statements_run 1 w));
              [intros r; apply cancel_order_row_same_definition | reflexivity] ].
  - apply preserves_insertTradeHistory; tc_solve.
Qed.

(** *** With trading switched off, no swap is submitted *)

(** A computation that never reaches [executeJupiterSwap] leaves the list of
    swaps submitted as it was: by running it. *)
Ltac keeps_by_running :=
  intros;
  lazymatch goal with
  | |- preserves _ (?method _) => unfold method
  | |- preserves _ ?method => unfold method
  end;
  let w := fresh "w" in
  intros w; unfold keeps, TradingDatabase.run_statement; unfold_monad;
  destruct (db_faults w) as [|[?|] ?]; simpl;
  repeat match goal with
         | |- context [if ?b then _ else _] => destruct b; simpl
         end;
  reflexivity.

Lemma dry_run_executeBuy (CONFIG : TradingConfig) (position : Position) :
  TRADE_ENABLED CONFIG = false ->
  JupiterSwap.executeBuy CONFIG position = mret (succeeded None).
Proof. intros H. unfold JupiterSwap.executeBuy. rewrite H. reflexivity. Qed.

Lemma dry_run_executeSell
    (CONFIG : TradingConfig) (address : string) (symbol : option string)
    (gain sellRatio : JS.number) (reason : string) :
  TRADE_ENABLED CONFIG = false ->
  JupiterSwap.executeSell CONFIG address symbol gain sellRatio reason
  = mret (succeeded None).
Proof. intros H. unfold JupiterSwap.executeSell. rewrite H. reflexivity. Qed.

Lemma dry_run_invariant (CONFIG : TradingConfig) :
  TRADE_ENABLED CONFIG = false -> Invariant CONFIG (keeps swaps_sent).
Proof.
  intros Hoff. split; try tc_solve.
  - intros. rewrite dry_run_executeBuy by exact Hoff. apply preserves_ret. tc_solve.
  - intros. rewrite dry_run_executeSell by exact Hoff. apply preserves_ret. tc_solve.
  - keeps_by_running.
  - keeps_by_running.
  - keeps_by_running.
  - keeps_by_running.
  - keeps_by_running.
  - keeps_by_running.
Qed.

Lemma keeps_swaps_sent_creates : CreatesOrders (keeps swaps_sent).
Proof. intros order. keeps_by_running. Qed.

Lemma keeps_swaps_sent_opens : OpensPositions (keeps swaps_sent).
Proof. intros position. keeps_by_running. Qed.

(** * Further properties of the engine *)

(** ** The constraints of the schema hold throughout *)

(** X1: the constraints that the schema declares (primary keys of positions
    and orders, one position per address, every order attached to a stored
    position) are kept by every operation of the engine, however it ends:
    processing a tick, creating, updating and closing a position, the
    emergency close, adding and removing an order. *)
Theorem engine_keeps_schema
    (CONFIG : TradingConfig) (Number_toString : JS.number -> string) (w : World) :
  consistent w ->
  (forall token,
     consistent (WebSocketHandler.processToken CONFIG Number_toString token w).2)
  /\ (forall token solInvested,
        consistent
          (PositionManager.createPosition CONFIG Number_toString token solInvested w).2)
  /\ (forall address newPrice lfg,
        consistent (PositionManager.updatePosition CONFIG address newPrice lfg w).2)
  /\ (forall address,
        consistent (PositionManager.closePositionManually CONFIG address w).2)
  /\ consistent (PositionManager.emergencyCloseAll CONFIG w).2
  /\ (forall address orderParams,
        consistent (PositionManager.addCustomOrder address orderParams w).2)
  /\ (forall address orderId,
        consistent (PositionManager.removeOrder address orderId w).2).
Proof.
  intros H. split; [|split; [|split; [|split; [|split; [|split]]]]]; intros.
  - apply (respects_processToken CONFIG stays_consistent); exact H.
  - apply (respects_createPosition CONFIG stays_consistent); exact H.
  - apply (respects_updatePosition CONFIG stays_consistent); exact H.
  - apply (respects_closePositionManually CONFIG stays_consistent); exact H.
  - apply (respects_emergencyCloseAll CONFIG stays_consistent); exact H.
  - apply (respects_addCustomOrder CONFIG stays_consistent); exact H.
  - apply (respects_removeOrder CONFIG stays_consistent); exact H.
Qed.

(** ** The trade history is append-only *)

(** X2: no operation of the engine deletes or rewrites a row of the trade
    history: after any of them, however it ends, the history that was there
    is a prefix of the history stored. *)
Theorem engine_appends_history
    (CONFIG : TradingConfig) (Number_toString : JS.number -> string) (w : World) :
  (forall token,
     trade_history w `prefix_of`
       trade_history (WebSocketHandler.processToken CONFIG Number_toString token w).2)
  /\ (forall address newPrice lfg,
        trade_history w `prefix_of`
          trade_history (PositionManager.updatePosition CONFIG address newPrice lfg w).2)
  /\ (forall address,
        trade_history w `prefix_of`
          trade_history (PositionManager.closePositionManually CONFIG address w).2)
  /\ trade_history w `prefix_of`
       trade_history (PositionManager.emergencyCloseAll CONFIG w).2
  /\ (forall address orderParams,
        trade_history w `prefix_of`
          trade_history (PositionManager.addCustomOrder address orderParams w).2)
  /\ (forall address orderId,
        trade_history w `prefix_of`
          trade_history (PositionManager.removeOrder address orderId w).2).
Proof.
  split; [|split; [|split; [|split; [|split]]]]; intros.
  - apply (respects_processToken CONFIG history_grows).
  - apply (respects_updatePosition CONFIG history_grows).
  - apply (respects_closePositionManually CONFIG history_grows).
  - apply (respects_emergencyCloseAll CONFIG history_grows).
  - apply (respects_addCustomOrder CONFIG history_grows).
  - apply (respects_removeOrder CONFIG history_grows).
Qed.

(** ** Trading switched off *)

(** X3: with [TRADE_ENABLED] false no operation of the engine submits a
    swap: the list of swaps sent to the venue is the same after processing a
    tick, updating or closing a position, and the emergency close. *)
Theorem dry_run_submits_no_swap
    (CONFIG : TradingConfig) (Number_toString : JS.number -> string) (w : World) :
  TRADE_ENABLED CONFIG = false ->
  (forall token,
     swaps_sent (WebSocketHandler.processToken CONFIG Number_toString token w).2
     = swaps_sent w)
  /\ (forall address newPrice lfg,
        swaps_sent (PositionManager.updatePosition CONFIG address newPrice lfg w).2
        = swaps_sent w)
  /\ (forall address,
        swaps_sent (PositionManager.closePositionManually CONFIG address w).2
        = swaps_sent w)
  /\ swaps_sent (PositionManager.emergencyCloseAll CONFIG w).2 = swaps_sent w.
Proof.
  intros Hoff.
  pose proof (dry_run_invariant CONFIG Hoff) as Hinv.
  pose proof keeps_swaps_sent_creates as Hcreates.
  pose proof keeps_swaps_sent_opens as Hopens.
  split; [|split; [|split]]; intros.
  - apply (respects_processToken CONFIG (keeps swaps_sent)).
  - apply (respects_updatePosition CONFIG (keeps swaps_sent)).
  - apply (respects_closePositionManually CONFIG (keeps swaps_sent)).
  - apply (respects_emergencyCloseAll CONFIG (keeps swaps_sent)).
Qed.

(** ** Processing a tick *)

#[global] Instance keeps_processing_invariant (CONFIG : TradingConfig) :
  Invariant CONFIG (keeps processing).
Proof. apply looks_at_no_table_invariant; tc_solve. Qed.

#[global] Instance keeps_processing_creates : CreatesOrders (keeps processing).
Proof. apply looks_at_no_table_creates; tc_solve. Qed.

#[global] Instance keeps_processing_opens : OpensPositions (keeps processing).
Proof. apply looks_at_no_table_opens; tc_solve. Qed.

(** The shape of a run of [processToken] that passes both guards. *)
Lemma processToken_run
    (CONFIG : TradingConfig) (Number_toString : JS.number -> string)
    (token : TokenData) (w : World) :
  let address := TokenData.a token in
  let w1 := set_processing ({[address]} ∪ processing w) w in
  let w2 := (WebSocketHandler.processToken_try CONFIG Number_toString token w1).2 in
  WebSocketHandler.processToken CONFIG Number_toString token w = (Ret tt, w)
  \/ ((address ∉ processing w)
      /\ WebSocketHandler.processToken CONFIG Number_toString token w
         = (Ret tt, set_processing (processing w2 ∖ {[address]}) w2)).
Proof.
  cbv zeta. unfold WebSocketHandler.processToken. cbv zeta.
  destruct (_ || _); [left; reflexivity|].
  unfold_monad.
  destruct (bool_decide (TokenData.a token ∈ processing w)) eqn:Hbusy;
    [left; reflexivity|].
  apply bool_decide_eq_false_1 in Hbusy. right. split; [exact Hbusy|].
  destruct (WebSocketHandler.processToken_try CONFIG Number_toString token _)
    as [[[]|e] w2]; reflexivity.
Qed.

(** X4: [processToken] never throws, whatever the database, the chain or the
    swap venue do, and it leaves the set of instruments being processed as it
    found it.  A tick for an instrument that is being processed is dropped:
    nothing changes. *)
Theorem processToken_never_throws
    (CONFIG : TradingConfig) (Number_toString : JS.number -> string)
    (token : TokenData) (w : World) :
  let outcome := (WebSocketHandler.processToken CONFIG Number_toString token w).1 in
  let w' := (WebSocketHandler.processToken CONFIG Number_toString token w).2 in
  outcome = Ret tt
  /\ processing w' = processing w
  /\ (TokenData.a token ∈ processing w -> w' = w).
Proof.
  cbv zeta.
  destruct (processToken_run CONFIG Number_toString token w) as [E|[Hfree E]];
    cbv zeta in E; rewrite E; simpl.
  - auto.
  - split; [reflexivity|]. split; [|contradiction].
    rewrite (respects_processToken_try CONFIG (keeps processing)). simpl.
    apply release_marker. exact Hfree.
Qed.

(** ** Where positions come from *)

(** [createPosition] stores at most the position it builds. *)
Lemma createPosition_positions
    (CONFIG : TradingConfig) (Number_toString : JS.number -> string)
    (token : TokenData) (solInvested : JS.number) (w : World) :
  let w' :=
    (PositionManager.createPosition CONFIG Number_toString token solInvested w).2 in
  sublist (positions w') (positions w ++ [opened token solInvested (clock w)]).
Proof.
  cbv zeta.
  assert (Hself : sublist (positions w)
                    (positions w ++ [opened token solInvested (clock w)])).
  { apply sublist_inserts_r. reflexivity. }
  destruct (PositionManager.createPosition CONFIG Number_toString token solInvested w)
    as [out w'] eqn:E.
  unfold PositionManager.createPosition in E. cbv zeta in E.
  unfold TradingDatabase.getPositionCount, TradingDatabase.getPosition in E.
  rewrite !bind_run, run_statement_eq in E. unfold gets in E. simpl.
  destruct (db_faults w) as [|[e|] faults];
    try (injection E as _ <-; exact Hself).
  all: destruct (MAX_POSITIONS CONFIG <=? _);
    try (injection E as _ <-; exact Hself).
  all: rewrite !bind_run, run_statement_eq in E;
    destruct (db_faults (statements_run 1 w)) as [|[e|] faults2];
    try (injection E as _ <-; exact Hself).
  all: destruct (List.find _ _);
    try (injection E as _ <-; exact Hself).
  all: unfold Date_now, gets in E; rewrite !bind_run in E; unfold try_catch in E;
    match type of E with
    | context [PositionManager.createPosition_try _ _ ?p ?w2] =>
        pose proof (createPosition_try_positions CONFIG Number_toString p w2) as Hpos;
        cbv zeta in Hpos;
        destruct (PositionManager.createPosition_try CONFIG Number_toString p w2)
          as [[v|e] w3]
    end;
    simpl in Hpos; injection E as _ <-;
    (destruct Hpos as [Hpos|Hpos]; [rewrite Hpos; exact Hself | exact Hpos]).
Qed.

Lemma filterToken_run (item : TokenData) (w : World) :
  filterToken item w = (Ret (match (filterToken item w).1 with
                             | Ret b => b
                             | Throw _ => false
                             end), w).
Proof. reflexivity. Qed.

Lemma filterToken_market_cap (item : TokenData) (w : World) :
  (filterToken item w).1 = Ret true ->
  JS.ge (TokenData.mc item) 20000%float = true
  /\ JS.le (TokenData.mc item) 50000%float = true.
Proof.
  unfold filterToken, Date_now. unfold_monad. simpl. intros H.
  injection H as H.
  repeat (apply andb_true_iff in H as [H ?]).
  split; assumption.
Qed.

(** X5: [processToken] stores a position for an instrument that had none
    only when the tick passes [filterToken]; the position stored is then the
    one built from the tick: identity and address are the tick's address, the
    four prices are the tick's market cap, which lies between 20000 and
    50000, the stake is [SOL_INVESTMENT_AMOUNT], both times are the time of
    the tick. *)
Theorem processToken_opens_filtered
    (CONFIG : TradingConfig) (Number_toString : JS.number -> string)
    (token : TokenData) (w : World) (q : Position) :
  q ∈ positions (WebSocketHandler.processToken CONFIG Number_toString token w).2 ->
  Position.address q ∉ map Position.address (positions w) ->
  q = opened token (SOL_INVESTMENT_AMOUNT CONFIG) (clock w)
  /\ (filterToken token w).1 = Ret true
  /\ JS.ge (Position.entryPrice q) 20000%float = true
  /\ JS.le (Position.entryPrice q) 50000%float = true.
Proof.
  intros Hq Hnew.
  assert (Hold : q ∉ positions w).
  { intros Hin. apply Hnew. apply list_elem_of_fmap_2. exact Hin. }
  destruct (processToken_run CONFIG Number_toString token w) as [E|[_ E]];
    cbv zeta in E; rewrite E in Hq; simpl in Hq; [contradiction|].
  clear E. set (w1 := set_processing _ w) in Hq.
  destruct (WebSocketHandler.processToken_try CONFIG Number_toString token w1)
    as [out w2] eqn:E.
  simpl in Hq.
  unfold WebSocketHandler.processToken_try, PositionManager.getPosition,
    TradingDatabase.getPosition in E.
  cbv zeta in E. rewrite !bind_run, run_statement_eq in E. unfold gets in E.
  destruct (db_faults w1) as [|[e|] faults];
    try (injection E as _ <-; contradiction).
  all: cbv beta iota in E.
  all: set (w3 := statements_run 1 w1) in E;
    destruct (List.find _ _) as [held|].
  1, 3: (* the instrument is held: the position is updated *)
    rewrite bind_run in E;
    pose proof (respects_updatePosition CONFIG no_new_instrument
                  (TokenData.a token) (TokenData.mc token) (TokenData.lc_flg token)
                  w3) as Hno;
    destruct (PositionManager.updatePosition CONFIG _ _ _ w3) as [[v|e] w4];
    unfold no_new_instrument in Hno; simpl in Hno; injection E as _ <-;
    exfalso; apply Hnew;
    apply (fun H => elem_of_sublist _ _ _ H Hno);
    apply list_elem_of_fmap_2; exact Hq.
  (* the instrument is new: the tick is filtered *)
  all: rewrite bind_run, filterToken_run in E;
    change ((filterToken token w3).1) with ((filterToken token w).1) in E;
    destruct ((filterToken token w).1) as [[|]|e] eqn:Hfilter;
    try (injection E as _ <-; contradiction).
  all: rewrite bind_run in E;
    pose proof (createPosition_positions CONFIG Number_toString token
                  (SOL_INVESTMENT_AMOUNT CONFIG) w3) as Hpos;
    cbv zeta in Hpos;
    destruct (PositionManager.createPosition CONFIG Number_toString token _ w3)
      as [[[created|]|e] w4];
    simpl in Hpos; injection E as _ <-; simpl in Hq;
    apply (fun H => elem_of_sublist _ _ _ H Hpos) in Hq;
    apply elem_of_app in Hq as [Hq|Hq]; try contradiction;
    apply list_elem_of_singleton in Hq; subst q;
    (split; [reflexivity|]); (split; [reflexivity|]);
    apply (filterToken_market_cap token w Hfilter).
Qed.

(** ** What an evaluation pass and a price update leave alone *)

(** X6: an evaluation pass touches only the pending orders of the position
    it evaluates: every row of the orders table that is not PENDING
    (completed, failed, cancelled: none is executed again) or that belongs to
    another position is in the table afterwards, as it was. *)
Theorem checkAndExecuteOrders_touches_only_pending
    (CONFIG : TradingConfig) (position : Position) (w : World) (row : Order) :
  NoDup (map Order.id (orders w)) ->
  row ∈ orders w ->
  Order.status row ≠ PENDING \/ Order.positionId row ≠ Position.id position ->
  row ∈ orders (OrderManager.checkAndExecuteOrders CONFIG position w).2.
Proof.
  intros Hnodup Hrow Hother.
  unfold OrderManager.checkAndExecuteOrders, TradingDatabase.getPositionOrders.
  unfold_monad.
  destruct (run_statement_cases w)
    as [(e & faults & _ & Hrun)|(w2 & Hrun & _ & Horders & _)]; rewrite Hrun.
  - exact Hrow.
  - apply checkAndExecuteOrders_loop_untouched; [|rewrite Horders; exact Hrow].
    intros o Ho _ Heq.
    apply list_elem_of_filter in Ho as [Hpending Ho].
    apply (proj1 (elem_of_order_by_created_at_desc _ _)) in Ho.
    apply list_elem_of_filter in Ho as [Hposition Ho].
    rewrite Horders in Ho.
    assert (o = row) by (eapply NoDup_map_eq; eassumption).
    subst o. destruct Hother as [Hother|Hother]; contradiction.
Qed.

(** X7: a price update opens nothing and redefines nothing: after
    [updatePosition], however it ends, no instrument has been added to the
    positions held, no order has been added, and every order stored has the
    identity, position, type, sell ratio, trigger, creation time and
    descriptions it had. *)
Theorem updatePosition_opens_nothing
    (CONFIG : TradingConfig) (address : string) (newPrice lfg : JS.number)
    (w : World) :
  let w' := (PositionManager.updatePosition CONFIG address newPrice lfg w).2 in
  sublist (map Position.address (positions w')) (map Position.address (positions w))
  /\ (forall o', o' ∈ orders w' ->
        exists o, o ∈ orders w /\ same_definition o o').
Proof.
  cbv zeta. split.
  - apply (respects_updatePosition CONFIG no_new_instrument).
  - apply (respects_updatePosition CONFIG orders_redefined_nowhere).
Qed.

(** ** Closing positions *)

Lemma preserves_closePosition_rows (address : string) :
  preserves no_new_position (PositionManager.closePosition address).
Proof.
  unfold PositionManager.closePosition. frame. apply preserves_deletePosition.
Qed.

Lemma preserves_closePositionManually_rows
    (CONFIG : TradingConfig) (address : string) :
  preserves no_new_position (PositionManager.closePositionManually CONFIG address).
Proof.
  unfold PositionManager.closePositionManually,
    OrderManager.createAndExecuteImmediateOrder.
  frame. apply preserves_closePosition_rows.
Qed.

Lemma preserves_emergencyCloseAll_loop_rows
    (CONFIG : TradingConfig) (rows : list Position) :
  preserves no_new_position (PositionManager.emergencyCloseAll_loop CONFIG rows).
Proof.
  induction rows as [|position rest IH]; simpl; frame.
  apply preserves_closePositionManually_rows.
Qed.

(** X8: closing only removes positions.  After [closePositionManually] and
    after [emergencyCloseAll], however they end, the rows of the positions
    table are rows that were there, unchanged and in the same order: none is
    added, none is rewritten. *)
Theorem closing_only_removes_positions (CONFIG : TradingConfig) (w : World) :
  (forall address,
     sublist (positions (PositionManager.closePositionManually CONFIG address w).2)
             (positions w))
  /\ sublist (positions (PositionManager.emergencyCloseAll CONFIG w).2) (positions w).
Proof.
  split.
  - intros address. apply preserves_closePositionManually_rows.
  - assert (H : preserves no_new_position (PositionManager.emergencyCloseAll CONFIG)).
    { unfold PositionManager.emergencyCloseAll, TradingDatabase.getActivePositions.
      frame. apply preserves_emergencyCloseAll_loop_rows. }
    apply H.
Qed.

(** What [closePosition] has done when it returns. *)
Lemma closePosition_returns (address : string) (w w' : World) :
  PositionManager.closePosition address w = (Ret tt, w') ->
  match find_position address w with
  | None => positions w' = positions w /\ orders w' = orders w
  | Some p =>
      positions w' = filter (fun r => Position.id r ≠ Position.id p) (positions w)
      /\ forall o, o ∈ orders w' -> Order.positionId o ≠ Position.id p
  end.
Proof.
  unfold PositionManager.closePosition, TradingDatabase.getPosition.
  rewrite !bind_run, run_statement_eq. unfold gets.
  change (List.find _ (positions (statements_run 1 w)))
    with (find_position address w).
  intros E.
  destruct (db_faults w) as [|[e|] faults]; try discriminate E.
  all: cbv beta iota in E; destruct (find_position address w) as [p|];
    [|injection E as <-; split; reflexivity].
  all: rewrite bind_run in E;
    pose proof (preserves_cancelPositionOrders (keeps positions) (Position.id p)
                  (statements_run 1 w)) as Hcancel;
    destruct (TradingDatabase.cancelPositionOrders (Position.id p) _)
      as [[count|e] w2]; unfold keeps in Hcancel; simpl in Hcancel;
    [|discriminate E];
    unfold TradingDatabase.deletePosition in E;
    rewrite bind_run, run_statement_eq in E;
    destruct (db_faults w2) as [|[e|] faults2]; try discriminate E;
    unfold modify in E; injection E as <-; simpl; rewrite Hcancel;
    (split; [reflexivity|]);
    intros o Ho; apply list_elem_of_filter in Ho as [Hne _]; exact Hne.
Qed.

(** X9: the outcome of a manual close.  For an instrument that has no
    position, [closePositionManually] does not return true and leaves the
    three tables as they were.  When it returns true, the instrument has no
    position any more and no order of the position it had is left; when it
    returns false, the positions are as they were. *)
Theorem closePositionManually_outcome
    (CONFIG : TradingConfig) (address : string) (w : World) :
  let outcome := (PositionManager.closePositionManually CONFIG address w).1 in
  let w' := (PositionManager.closePositionManually CONFIG address w).2 in
  (find_position address w = None ->
     outcome <> Ret true
     /\ positions w' = positions w /\ orders w' = orders w
     /\ trade_history w' = trade_history w)
  /\ (unique_addresses w -> outcome = Ret true ->
      find_position address w' = None
      /\ forall p, find_position address w = Some p ->
           forall o, o ∈ orders w' -> Order.positionId o ≠ Position.id p)
  /\ (outcome = Ret false -> positions w' = positions w).
Proof.
  cbv zeta.
  destruct (PositionManager.closePositionManually CONFIG address w) as [out w'] eqn:E.
  simpl.
  unfold PositionManager.closePositionManually, TradingDatabase.getPosition in E.
  rewrite !bind_run, run_statement_eq in E. unfold gets in E.
  change (List.find _ (positions (statements_run 1 w)))
    with (find_position address w) in E.
  destruct (find_position address w) as [p|] eqn:Hfind.
  2: { destruct (db_faults w) as [|[e|] faults]; injection E as <- <-;
         (split; [|split]); intros; try discriminate; try reflexivity;
         repeat split; try reflexivity; discriminate. }
  split; [discriminate|].
  destruct (db_faults w) as [|[e|] faults].
  2: { injection E as <- <-. split; intros; [discriminate|reflexivity]. }
  all: cbv beta iota in E; rewrite bind_run in E;
    match type of E with
    | context [OrderManager.createAndExecuteImmediateOrder ?c ?params ?held ?w1] =>
        assert (Hkeep : preserves (keeps positions)
                          (OrderManager.createAndExecuteImmediateOrder c params held))
          by (unfold OrderManager.createAndExecuteImmediateOrder; frame);
        specialize (Hkeep w1);
        destruct (OrderManager.createAndExecuteImmediateOrder c params held w1)
          as [[[|]|e] w2]
    end;
    unfold keeps in Hkeep; simpl in Hkeep.
  2, 3, 5, 6: injection E as <- <-; split; intros; [discriminate|exact Hkeep].
  all: rewrite bind_run in E;
    destruct (PositionManager.closePosition address w2) as [[[]|e] w3] eqn:Hclose;
    injection E as <- <-;
    (split; [|discriminate]); intros Hunique Htrue; try discriminate Htrue.
  all: apply closePosition_returns in Hclose;
    unfold find_position in Hclose; rewrite Hkeep in Hclose;
    fold (find_position address w) in Hclose; rewrite Hfind in Hclose;
    destruct Hclose as [Hpositions Horders];
    (split; [|intros p' Hp'; injection Hp' as <-; exact Horders]);
    unfold find_position; rewrite Hpositions;
    destruct (List.find _ _) as [r|] eqn:Hr; [exfalso|reflexivity];
    apply find_address_elem in Hr as [Hr Haddress];
    apply list_elem_of_filter in Hr as [Hne Hr];
    destruct (find_address_elem _ _ _ Hfind) as [Hp Hpa];
    apply Hne; f_equal;
    apply (unique_address_eq (positions w)); try assumption; congruence.
Qed.

(** * The database layer *)

(** ** Positions: insert, look up, delete *)

Lemma find_position_app (address : string) (rows : list Position) (p : Position) :
  List.find (fun r => String.eqb (Position.address r) address) (rows ++ [p])
  = match List.find (fun r => String.eqb (Position.address r) address) rows with
    | Some r => Some r
    | None => if String.eqb (Position.address p) address then Some p else None
    end.
Proof.
  induction rows as [|r rest IH]; simpl; [reflexivity|].
  destruct (String.eqb (Position.address r) address); [reflexivity|exact IH].
Qed.

Lemma existsb_position_keys (p : Position) (rows : list Position) :
  existsb (fun r =>
     String.eqb (Position.id r) (Position.id p)
     || String.eqb (Position.address r) (Position.address p)) rows = false <->
  (forall r, r ∈ rows ->
     Position.id r ≠ Position.id p /\ Position.address r ≠ Position.address p).
Proof.
  induction rows as [|x rest IH]; simpl.
  - split; [intros _ r Hr; apply elem_of_nil in Hr; contradiction | reflexivity].
  - rewrite orb_false_iff, orb_false_iff, IH, !String.eqb_neq. split.
    + intros [[H1 H2] Hrest] r Hr. apply elem_of_cons in Hr as [->|Hr]; auto.
    + intros H. split.
      * apply H. apply elem_of_cons. left. reflexivity.
      * intros r Hr. apply H. apply elem_of_cons. right. exact Hr.
Qed.

(** The two ways [insertPosition] ends. *)
Lemma insertPosition_run (position : Position) (w : World) :
  let stored := forall r, r ∈ positions w ->
    Position.id r ≠ Position.id position
    /\ Position.address r ≠ Position.address position in
  (exists e, TradingDatabase.insertPosition position w = (Throw e, statements_run 1 w)
     /\ ((exists rest, db_faults w = Some e :: rest) \/ ~ stored))
  \/ (TradingDatabase.insertPosition position w
      = (Ret tt, set_positions (positions w ++ [position]) (statements_run 1 w))
      /\ stored).
Proof.
  cbv zeta. unfold TradingDatabase.insertPosition.
  rewrite bind_run, run_statement_eq.
  destruct (db_faults w) as [|[e|] faults] eqn:Hfaults.
  2: { left. exists e. split; [reflexivity|]. left. eexists. reflexivity. }
  all: rewrite bind_run; unfold gets; cbv beta iota;
    change (positions (statements_run 1 w)) with (positions w);
    destruct (existsb _ (positions w)) eqn:Hkeys;
    [ left; eexists; split; [reflexivity|]; right; intros Hstored;
      apply existsb_position_keys in Hstored; congruence
    | right; split; [reflexivity|]; apply existsb_position_keys; exact Hkeys ].
Qed.

(** X10: inserting a position and looking it up.  [insertPosition] succeeds
    only when no stored position has the same identity or the same address;
    the row is then appended, [getPosition] on its address returns that
    position, and the look-up of every other address gives what it gave
    before.  When a stored position has the same identity or address,
    [insertPosition] throws and the table is as it was. *)
Theorem insertPosition_getPosition (position : Position) (w : World) :
  let outcome := (TradingDatabase.insertPosition position w).1 in
  let w' := (TradingDatabase.insertPosition position w).2 in
  (outcome = Ret tt ->
     positions w' = positions w ++ [position]
     /\ (forall r, r ∈ positions w ->
           Position.id r ≠ Position.id position
           /\ Position.address r ≠ Position.address position)
     /\ (forall found w2,
           TradingDatabase.getPosition (Position.address position) w' = (Ret found, w2) ->
           found = Some position)
     /\ (forall address, address ≠ Position.address position ->
           find_position address w' = find_position address w))
  /\ (forall r, r ∈ positions w ->
        Position.id r = Position.id position
        \/ Position.address r = Position.address position ->
        (exists e, outcome = Throw e) /\ positions w' = positions w).
Proof.
  cbv zeta.
  destruct (insertPosition_run position w) as [(e & E & Hwhy)|[E Hstored]];
    cbv zeta in *; rewrite E; simpl.
  - split; [discriminate|]. intros r Hr Hsame. split; [eauto|reflexivity].
  - split.
    + intros _. split; [reflexivity|]. split; [exact Hstored|].
      assert (Hfind : forall address,
                find_position address
                  (set_positions (positions w ++ [position]) (statements_run 1 w))
                = match find_position address w with
                  | Some r => Some r
                  | None => if String.eqb (Position.address position) address
                            then Some position else None
                  end).
      { intros address. unfold find_position. simpl. apply find_position_app. }
      split.
      * intros found w2. unfold TradingDatabase.getPosition.
        rewrite bind_run, run_statement_eq. unfold gets.
        match goal with
        | |- context [List.find ?f (positions ?w3)] =>
            change (List.find f (positions w3))
              with (find_position (Position.address position)
                      (set_positions (positions w ++ [position]) (statements_run 1 w)))
        end.
        rewrite Hfind, String.eqb_refl.
        destruct (find_position (Position.address position) w) as [r|] eqn:Hr.
        { apply find_address_elem in Hr as [Hr Haddress].
          destruct (Hstored r Hr) as [_ Hne]. contradiction. }
        destruct (db_faults _) as [|[e|] faults]; intros H;
          first [discriminate H | injection H as <- _; reflexivity].
      * intros address Hne. rewrite Hfind.
        destruct (find_position address w); [reflexivity|].
        destruct (String.eqb (Position.address position) address) eqn:Heq;
          [|reflexivity].
        apply String.eqb_eq in Heq. congruence.
    + intros r Hr Hsame. exfalso. destruct (Hstored r Hr). destruct Hsame; contradiction.
Qed.

(** ** Orders: create, look up *)

Lemma find_order_app (orderId : string) (rows : list Order) (o : Order) :
  List.find (fun r => String.eqb (Order.id r) orderId) (rows ++ [o])
  = match List.find (fun r => String.eqb (Order.id r) orderId) rows with
    | Some r => Some r
    | None => if String.eqb (Order.id o) orderId then Some o else None
    end.
Proof.
  induction rows as [|r rest IH]; simpl; [reflexivity|].
  destruct (String.eqb (Order.id r) orderId); [reflexivity|exact IH].
Qed.

Lemma find_order_None (orderId : string) (rows : list Order) :
  orderId ∉ map Order.id rows ->
  List.find (fun r => String.eqb (Order.id r) orderId) rows = None.
Proof.
  induction rows as [|r rest IH]; simpl; intros H; [reflexivity|].
  apply not_elem_of_cons in H as [Hne Hrest].
  destruct (String.eqb (Order.id r) orderId) eqn:E.
  - apply String.eqb_eq in E. congruence.
  - apply IH. exact Hrest.
Qed.

(** What [createOrder] does, however it ends. *)
Lemma createOrder_spec (params : OrderCreationParams) (w : World) :
  let outcome := (OrderManager.createOrder params w).1 in
  let w' := (OrderManager.createOrder params w).2 in
  orderCounter w' = orderCounter w + 1
  /\ (forall order, outcome = Ret order ->
        order = Order.mk (Order.id order) (params_positionId params)
                  (params_type params) PENDING (params_sellRatio params)
                  (params_triggerType params) (params_triggerCondition params)
                  (params_triggerValue params) (params_triggerDescription params)
                  (clock w) None None None None 0 (params_description params)
        /\ orders w' = orders w ++ [order]
        /\ (Order.id order ∉ map Order.id (orders w))
        /\ params_positionId params ∈ map Position.id (positions w)
        /\ (forall found w2,
              TradingDatabase.getOrder (Order.id order) w' = (Ret found, w2) ->
              found = Some order))
  /\ (forall e, outcome = Throw e -> orders w' = orders w)
  /\ (params_positionId params ∉ map Position.id (positions w) ->
      exists e, outcome = Throw e).
Proof.
  cbv zeta.
  destruct (OrderManager.createOrder params w) as [out w'] eqn:E. simpl.
  unfold OrderManager.createOrder, OrderManager.generateOrderId, Date_now,
    Math_random_1000 in E.
  repeat (rewrite ?bind_run in E; unfold modify, gets, mret, M_ret in E;
          cbv beta iota in E).
  simpl randoms in E.
  destruct (randoms w) as [|random randoms']; cbv beta iota in E;
    repeat (rewrite ?bind_run in E;
            unfold modify, gets, mret, M_ret, TradingDatabase.insertOrder in E;
            cbv beta iota in E);
    rewrite run_statement_eq in E.
  all: match type of E with
       | context [db_faults ?w1] => destruct (db_faults w1) as [|[e|] faults]
       end;
    repeat (rewrite ?bind_run in E;
            unfold modify, gets, mret, M_ret, throw in E; cbv beta iota in E);
    cbn [orders positions clock orderCounter statements_run set_db_faults
         set_orderCounter set_randoms set_orders] in E.
  2, 5: injection E as <- <-; simpl;
    (split; [reflexivity|]); (split; [discriminate|]);
    (split; [intros; reflexivity|]); intros _; eauto.
  all: destruct (existsb _ (orders w)) eqn:Hkey;
    [ injection E as <- <-; simpl;
      (split; [reflexivity|]); (split; [discriminate|]);
      (split; [intros; reflexivity|]); intros _; eauto
    | ];
    destruct (existsb _ (positions w)) eqn:Hforeign;
    [ | injection E as <- <-; simpl;
        (split; [reflexivity|]); (split; [discriminate|]);
        (split; [intros; reflexivity|]); intros _; eauto ];
    apply existsb_false_not_elem in Hkey; apply existsb_true_elem in Hforeign;
    cbn [Order.id Order.positionId] in Hkey, Hforeign;
    injection E as <- <-;
    cbn [orders positions orderCounter statements_run set_db_faults
         set_orderCounter set_randoms set_orders fst snd];
    (split; [reflexivity|]);
    (split; [|split; [discriminate|intros Habsent; contradiction]]);
    intros order Horder; injection Horder as <-;
    cbn [Order.id Order.set_triggeredAt Order.set_executedAt Order.set_signature
         Order.set_error Order.positionId Order.type Order.status Order.sellRatio
         Order.triggerType Order.triggerCondition Order.triggerValue
         Order.triggerDescription Order.createdAt Order.triggeredAt
         Order.executedAt Order.signature Order.error Order.retryCount
         Order.description clock];
    (split; [reflexivity|]); (split; [reflexivity|]);
    (split; [exact Hkey|]); (split; [exact Hforeign|]);
    intros found w2; unfold TradingDatabase.getOrder;
    rewrite bind_run, run_statement_eq; unfold gets;
    cbn [orders statements_run set_db_faults set_orders];
    rewrite find_order_app, (find_order_None _ _ Hkey);
    cbn [Order.id]; rewrite String.eqb_refl;
    match goal with
    | |- context [db_faults ?w3] => destruct (db_faults w3) as [|[?|] ?]
    end;
    intros H; first [discriminate H | injection H as <- _; reflexivity].
Qed.

(** X11: creating an order and looking it up.  [createOrder] advances the
    order counter by one whether or not the insert succeeds.  When it
    returns, the order returned is PENDING, carries the parameters given and
    the time of the call, has never been retried, and has a fresh identity;
    its position is a stored position; the row appended to the table is the
    order returned, and [getOrder] on its identity returns it.  When it
    throws, the table is as it was; for a position that is not stored it
    throws. *)
Theorem createOrder_getOrder (params : OrderCreationParams) (w : World) :
  let outcome := (OrderManager.createOrder params w).1 in
  let w' := (OrderManager.createOrder params w).2 in
  orderCounter w' = orderCounter w + 1
  /\ (forall order, outcome = Ret order ->
        order = Order.mk (Order.id order) (params_positionId params)
                  (params_type params) PENDING (params_sellRatio params)
                  (params_triggerType params) (params_triggerCondition params)
                  (params_triggerValue params) (params_triggerDescription params)
                  (clock w) None None None None 0 (params_description params)
        /\ orders w' = orders w ++ [order]
        /\ (Order.id order ∉ map Order.id (orders w))
        /\ params_positionId params ∈ map Position.id (positions w)
        /\ (forall found w2,
              TradingDatabase.getOrder (Order.id order) w' = (Ret found, w2) ->
              found = Some order))
  /\ (forall e, outcome = Throw e -> orders w' = orders w)
  /\ (params_positionId params ∉ map Position.id (positions w) ->
      exists e, outcome = Throw e).
Proof. exact (createOrder_spec params w). Qed.

(** ** Cancelling orders *)






(** ** The list queries *)

Section OrderBy.
Context {A : Type} (R : relation A) `{!forall x y, Decision (R x y)}.
Context `{!Transitive R} `{!Total R}.

Lemma insert_before_permutation (o : A) (sorted : list A) :
  insert_before R o sorted ≡ₚ o :: sorted.
Proof.
  induction sorted as [|x rest IH]; simpl; [reflexivity|].
  destruct (decide (R o x)); [reflexivity|].
  rewrite IH. apply Permutation_swap.
Qed.

Lemma insert_before_sorted (o : A) (sorted : list A) :
  StronglySorted R sorted -> StronglySorted R (insert_before R o sorted).
Proof.
  induction sorted as [|x rest IH]; simpl; intros Hsorted.
  - apply SSorted_cons; [apply SSorted_nil | apply Forall_nil_2].
  - apply StronglySorted_inv in Hsorted as [Hrest Hx].
    destruct (decide (R o x)) as [Hox|Hox].
    + apply SSorted_cons.
      * apply SSorted_cons; assumption.
      * apply Forall_cons. split; [exact Hox|].
        eapply Forall_impl; [exact Hx|]. intros y Hxy. etransitivity; eassumption.
    + apply SSorted_cons; [apply IH; exact Hrest|].
      rewrite (insert_before_permutation o rest).
      apply Forall_cons. split; [|exact Hx].
      destruct (total R o x); [contradiction|assumption].
Qed.

Lemma foldr_insert_before (rows : list A) :
  foldr (insert_before R) [] rows ≡ₚ rows
  /\ StronglySorted R (foldr (insert_before R) [] rows).
Proof.
  induction rows as [|x rest [IHp IHs]]; simpl.
  - split; [reflexivity | apply SSorted_nil].
  - split; [|apply insert_before_sorted; exact IHs].
    rewrite insert_before_permutation, IHp. reflexivity.
Qed.

End OrderBy.

#[global] Instance created_not_before_dec (a b : Order) : Decision (created_not_before a b).
Proof. unfold created_not_before. tc_solve. Defined.
#[global] Instance created_not_after_dec (a b : Order) : Decision (created_not_after a b).
Proof. unfold created_not_after. tc_solve. Defined.
#[global] Instance entered_not_before_dec (a b : Position) :
  Decision (entered_not_before a b).
Proof. unfold entered_not_before. tc_solve. Defined.

#[global] Instance created_not_before_order : Transitive created_not_before.
Proof. unfold created_not_before. intros a b c. lia. Qed.
#[global] Instance created_not_before_total : Total created_not_before.
Proof. unfold created_not_before. intros a b. lia. Qed.
#[global] Instance created_not_after_order : Transitive created_not_after.
Proof. unfold created_not_after. intros a b c. lia. Qed.
#[global] Instance created_not_after_total : Total created_not_after.
Proof. unfold created_not_after. intros a b. lia. Qed.
#[global] Instance entered_not_before_order : Transitive entered_not_before.
Proof. unfold entered_not_before. intros a b c. lia. Qed.
#[global] Instance entered_not_before_total : Total entered_not_before.
Proof. unfold entered_not_before. intros a b. lia. Qed.

Lemma insert_created_at_desc_eq (o : Order) (sorted : list Order) :
  TradingDatabase.insert_created_at_desc o sorted
  = insert_before created_not_before o sorted.
Proof.
  induction sorted as [|x rest IH]; simpl; [reflexivity|].
  destruct (decide (created_not_before o x)) as [H|H]; unfold created_not_before in H.
  - apply Z.leb_le in H. rewrite H. reflexivity.
  - apply Z.leb_nle in H. rewrite H, IH. reflexivity.
Qed.

Lemma insert_created_at_asc_eq (o : Order) (sorted : list Order) :
  TradingDatabase.insert_created_at_asc o sorted
  = insert_before created_not_after o sorted.
Proof.
  induction sorted as [|x rest IH]; simpl; [reflexivity|].
  destruct (decide (created_not_after o x)) as [H|H]; unfold created_not_after in H.
  - apply Z.leb_le in H. rewrite H. reflexivity.
  - apply Z.leb_nle in H. rewrite H, IH. reflexivity.
Qed.

Lemma insert_entry_time_desc_eq (p : Position) (sorted : list Position) :
  TradingDatabase.insert_entry_time_desc p sorted
  = insert_before entered_not_before p sorted.
Proof.
  induction sorted as [|x rest IH]; simpl; [reflexivity|].
  destruct (decide (entered_not_before p x)) as [H|H]; unfold entered_not_before in H.
  - apply Z.leb_le in H. rewrite H. reflexivity.
  - apply Z.leb_nle in H. rewrite H, IH. reflexivity.
Qed.

Lemma order_by_created_at_desc_sorted (rows : list Order) :
  TradingDatabase.order_by_created_at_desc rows ≡ₚ rows
  /\ StronglySorted created_not_before (TradingDatabase.order_by_created_at_desc rows).
Proof.
  unfold TradingDatabase.order_by_created_at_desc.
  replace (foldr TradingDatabase.insert_created_at_desc [] rows)
    with (foldr (insert_before created_not_before) [] rows).
  - apply foldr_insert_before; tc_solve.
  - induction rows as [|x rest IH]; simpl; [reflexivity|].
    rewrite IH, insert_created_at_desc_eq. reflexivity.
Qed.

Lemma order_by_created_at_asc_sorted (rows : list Order) :
  TradingDatabase.order_by_created_at_asc rows ≡ₚ rows
  /\ StronglySorted created_not_after (TradingDatabase.order_by_created_at_asc rows).
Proof.
  unfold TradingDatabase.order_by_created_at_asc.
  replace (foldr TradingDatabase.insert_created_at_asc [] rows)
    with (foldr (insert_before created_not_after) [] rows).
  - apply foldr_insert_before; tc_solve.
  - induction rows as [|x rest IH]; simpl; [reflexivity|].
    rewrite IH, insert_created_at_asc_eq. reflexivity.
Qed.

Lemma order_by_entry_time_desc_sorted (rows : list Position) :
  TradingDatabase.order_by_entry_time_desc rows ≡ₚ rows
  /\ StronglySorted entered_not_before (TradingDatabase.order_by_entry_time_desc rows).
Proof.
  unfold TradingDatabase.order_by_entry_time_desc.
  replace (foldr TradingDatabase.insert_entry_time_desc [] rows)
    with (foldr (insert_before entered_not_before) [] rows).
  - apply foldr_insert_before; tc_solve.
  - induction rows as [|x rest IH]; simpl; [reflexivity|].
    rewrite IH, insert_entry_time_desc_eq. reflexivity.
Qed.

(** A query: one statement, then the rows selected. *)
Lemma query_run {A : Type} (select : World -> A) (w : World) (rows : A) (w' : World) :
  (TradingDatabase.run_statement;; gets select) w = (Ret rows, w') ->
  rows = select (statements_run 1 w) /\ w' = statements_run 1 w.
Proof.
  rewrite bind_run, run_statement_eq. unfold gets.
  destruct (db_faults w) as [|[e|] faults]; intros H; try discriminate H;
    injection H as <- <-; split; reflexivity.
Qed.

(** X13: the orders of a position, as [getPositionOrders] returns them: the
    stored orders of that position, each once, newest first; the query
    changes nothing in the tables. *)
Theorem getPositionOrders_newest_first
    (positionId : string) (w w' : World) (rows : list Order) :
  TradingDatabase.getPositionOrders positionId w = (Ret rows, w') ->
  rows ≡ₚ filter (fun o => Order.positionId o = positionId) (orders w)
  /\ StronglySorted created_not_before rows
  /\ orders w' = orders w /\ positions w' = positions w.
Proof.
  intros H. apply query_run in H as [-> ->].
  change (orders (statements_run 1 w)) with (orders w).
  destruct (order_by_created_at_desc_sorted
              (filter (fun o => Order.positionId o = positionId) (orders w)))
    as [Hp Hs].
  auto.
Qed.

(** X14: the pending orders, as [getPendingOrders] returns them: the stored
    orders whose status is PENDING, each once, oldest first.  No order
    returned is in another status, EXECUTING included. *)
Theorem getPendingOrders_oldest_first (w w' : World) (rows : list Order) :
  TradingDatabase.getPendingOrders w = (Ret rows, w') ->
  rows ≡ₚ filter (fun o => Order.status o = PENDING) (orders w)
  /\ StronglySorted created_not_after rows
  /\ Forall (fun o => Order.status o = PENDING) rows
  /\ filter (fun o => Order.status o = EXECUTING) rows = [].
Proof.
  intros H. apply query_run in H as [-> ->].
  change (orders (statements_run 1 w)) with (orders w).
  destruct (order_by_created_at_asc_sorted
              (filter (fun o => Order.status o = PENDING) (orders w)))
    as [Hp Hs].
  assert (Hpending : Forall (fun o => Order.status o = PENDING)
                       (TradingDatabase.order_by_created_at_asc
                          (filter (fun o => Order.status o = PENDING) (orders w)))).
  { rewrite Hp. apply Forall_forall. intros o Ho.
    apply list_elem_of_filter in Ho as [Ho _]. exact Ho. }
  split; [exact Hp|]. split; [exact Hs|]. split; [exact Hpending|].
  clear Hp Hs. induction Hpending as [|o rest Ho _ IH]; [reflexivity|].
  rewrite filter_cons. destruct (decide (Order.status o = EXECUTING)); [congruence|].
  exact IH.
Qed.

(** X15: the active positions, as [getActivePositions] returns them: every
    stored position, each once, most recently entered first; their number is
    the count that [getPositionCount] reports, the one the risk limit is
    checked against. *)
Theorem getActivePositions_all
    (w w1 w2 : World) (rows : list Position) (count : Z) :
  TradingDatabase.getActivePositions w = (Ret rows, w1) ->
  TradingDatabase.getPositionCount w = (Ret count, w2) ->
  rows ≡ₚ positions w
  /\ StronglySorted entered_not_before rows
  /\ count = Z.of_nat (length rows).
Proof.
  intros Hrows Hcount.
  apply query_run in Hrows as [-> _]. apply query_run in Hcount as [-> _].
  change (positions (statements_run 1 w)) with (positions w).
  rewrite all_positions_active.
  destruct (order_by_entry_time_desc_sorted (positions w)) as [Hp Hs].
  split; [exact Hp|]. split; [exact Hs|]. rewrite Hp. reflexivity.
Qed.

(** ** Cleaning the trade history *)

(** X16: [cleanOldData] deletes from the trade history the rows executed
    before the cut-off, 30 days before the time of the call, in seconds, and
    nothing else: positions and orders are untouched, the rows kept are in
    their order, a row executed at or after the cut-off is kept, and when the
    statement succeeds no older row is left.  A row recorded with the time
    [ms], not more than 30 days before the call, is kept. *)
Theorem cleanOldData_keeps_recent (w : World) :
  let outcome := (TradingDatabase.cleanOldData w).1 in
  let w' := (TradingDatabase.cleanOldData w).2 in
  let cutoff := (clock w - 2592000000) / 1000 in
  sublist (trade_history w') (trade_history w)
  /\ positions w' = positions w /\ orders w' = orders w
  /\ (forall t, t ∈ trade_history w ->
        cutoff <= TradeHistoryRecord.executedAt t -> t ∈ trade_history w')
  /\ (outcome = Ret tt ->
      forall t, t ∈ trade_history w' -> cutoff <= TradeHistoryRecord.executedAt t)
  /\ (forall t ms, t ∈ trade_history w ->
        TradeHistoryRecord.executedAt t = ms / 1000 ->
        clock w - 2592000000 <= ms -> t ∈ trade_history w').
Proof.
  cbv zeta.
  destruct (TradingDatabase.cleanOldData w) as [out w'] eqn:E. simpl.
  unfold TradingDatabase.cleanOldData, Date_now in E.
  rewrite !bind_run in E. unfold gets in E. cbv beta iota zeta in E.
  rewrite bind_run, run_statement_eq in E.
  change (30 * 24 * 60 * 60 * 1000) with 2592000000 in E.
  assert (Hrecent : forall ms, clock w - 2592000000 <= ms ->
            (clock w - 2592000000) / 1000 <= ms / 1000).
  { intros ms Hms. apply Z.div_le_mono; lia. }
  destruct (db_faults w) as [|[e|] faults]; unfold modify in E; injection E as <- <-;
    simpl.
  2: { split; [reflexivity|]. split; [reflexivity|]. split; [reflexivity|].
       split; [auto|]. split; [discriminate|]. auto. }
  all: split; [apply sublist_filter|]; split; [reflexivity|]; split; [reflexivity|];
    split;
    [ intros t Ht Hcut; apply list_elem_of_filter; split; [lia|exact Ht]
    | split;
      [ intros _ t Ht; apply list_elem_of_filter in Ht as [Hcut _]; lia
      | intros t ms Ht Hat Hms; apply list_elem_of_filter; split; [|exact Ht];
        rewrite Hat; specialize (Hrecent ms Hms); lia ] ].
Qed.

(** ** Adding an order by hand *)

(** X17: [addCustomOrder] attaches the order to the position stored for the
    address, whatever position the parameters name.  Without a position it
    does not return true and the orders are as they were.  With one, when it
    returns true one order has been appended, PENDING, of the type, ratio and
    trigger given, attached to that position; when it returns false the
    orders are as they were; it throws only when reading the position fails.
    The positions are never touched. *)
Theorem addCustomOrder_outcome
    (address : string) (orderParams : OrderCreationParams) (w : World) :
  let outcome := (PositionManager.addCustomOrder address orderParams w).1 in
  let w' := (PositionManager.addCustomOrder address orderParams w).2 in
  positions w' = positions w
  /\ (find_position address w = None -> outcome <> Ret true /\ orders w' = orders w)
  /\ (forall p, find_position address w = Some p ->
        (outcome = Ret true ->
           exists order,
             orders w' = orders w ++ [order]
             /\ Order.positionId order = Position.id p
             /\ Order.status order = PENDING
             /\ Order.type order = params_type orderParams
             /\ Order.sellRatio order = params_sellRatio orderParams
             /\ Order.triggerType order = params_triggerType orderParams
             /\ Order.triggerCondition order = params_triggerCondition orderParams
             /\ Order.triggerValue order = params_triggerValue orderParams)
        /\ (outcome = Ret false -> orders w' = orders w)
        /\ (forall e, outcome = Throw e -> exists rest, db_faults w = Some e :: rest)).
Proof.
  cbv zeta. split.
  { assert (H : preserves (keeps positions)
                  (PositionManager.addCustomOrder address orderParams))
      by (unfold PositionManager.addCustomOrder; frame).
    apply H. }
  destruct (PositionManager.addCustomOrder address orderParams w) as [out w'] eqn:E.
  simpl.
  unfold PositionManager.addCustomOrder, TradingDatabase.getPosition in E.
  rewrite !bind_run, run_statement_eq in E. unfold gets in E.
  change (List.find _ (positions (statements_run 1 w)))
    with (find_position address w) in E.
  destruct (find_position address w) as [p|] eqn:Hfind.
  2: { split; [|discriminate]. intros _.
       destruct (db_faults w) as [|[e|] faults]; injection E as <- <-;
         split; try discriminate; reflexivity. }
  split; [discriminate|]. intros p' Hp'. injection Hp' as <-.
  destruct (db_faults w) as [|[e|] faults] eqn:Hfaults.
  2: { injection E as <- <-.
       split; [discriminate|]. split; [discriminate|].
       intros e' He'. injection He' as <-. eauto. }
  all: cbv beta iota in E; unfold try_catch in E; rewrite bind_run in E;
    pose proof (createOrder_spec
                  (PositionManager.with_positionId (Position.id p) orderParams)
                  (statements_run 1 w)) as Hcreate;
    cbv zeta in Hcreate;
    destruct (OrderManager.createOrder _ (statements_run 1 w)) as [[order|e] w2];
    simpl in Hcreate; destruct Hcreate as (_ & Hreturned & Hthrown & _);
    unfold mret, M_ret in E; injection E as <- <-.
  1, 3: destruct (Hreturned order eq_refl) as (Horder & Horders & _);
    (split; [intros _; exists order; (split; [exact Horders|]);
             rewrite Horder; simpl; repeat split|]);
    (split; [discriminate|]); discriminate.
  all: split; [discriminate|]; split; [|discriminate]; intros _;
    exact (Hthrown e eq_refl).
Qed.

(** ** Closing a position in the store *)

Lemma filter_cancel_row (positionId : string) (rows : list Order) :
  filter (fun o => Order.positionId o ≠ positionId)
    (map (TradingDatabase.cancel_row positionId) rows)
  = filter (fun o => Order.positionId o ≠ positionId) rows.
Proof.
  induction rows as [|r rest IH]; [reflexivity|].
  simpl. rewrite !filter_cons, IH.
  destruct (cancel_row_keys positionId r) as [_ Hposition].
  unfold TradingDatabase.cancel_row in *.
  destruct (bool_decide _) eqn:E.
  - apply bool_decide_eq_true_1 in E as [E _]. simpl.
    destruct (decide (Order.positionId r ≠ positionId)); [contradiction|reflexivity].
  - reflexivity.
Qed.

Lemma cancel_row_cases (positionId : string) (r : Order) :
  (Order.positionId r = positionId /\ Order.status r = PENDING
   /\ TradingDatabase.cancel_row positionId r = Order.set_status CANCELLED r)
  \/ ((Order.positionId r ≠ positionId \/ Order.status r ≠ PENDING)
      /\ TradingDatabase.cancel_row positionId r = r).
Proof.
  unfold TradingDatabase.cancel_row.
  destruct (bool_decide _) eqn:E.
  - apply bool_decide_eq_true_1 in E as [H1 H2]. left. auto.
  - apply bool_decide_eq_false_1 in E. right. split; [|reflexivity].
    destruct (decide (Order.positionId r = positionId)); [|auto].
    right. intros H. apply E. auto.
Qed.

(** The three statements of [closePosition] for a stored position. *)
Lemma closePosition_run (address : string) (w : World) (p : Position) :
  find_position address w = Some p ->
  let cancelled :=
    map (TradingDatabase.cancel_row (Position.id p)) (orders w) in
  PositionManager.closePosition address w
  = match db_faults w with
    | Some e :: _ => (Throw e, statements_run 1 w)
    | _ :: Some e :: _ => (Throw e, statements_run 2 w)
    | _ :: _ :: Some e :: _ =>
        (Throw e, set_orders cancelled (statements_run 3 w))
    | _ =>
        (Ret tt,
         set_orders
           (filter (fun o => Order.positionId o ≠ Position.id p) (orders w))
           (set_positions
              (filter (fun r => Position.id r ≠ Position.id p) (positions w))
              (statements_run 3 w)))
    end.
Proof.
  intros Hfind. cbv zeta.
  unfold PositionManager.closePosition, TradingDatabase.getPosition.
  rewrite !bind_run, run_statement_eq. unfold gets.
  change (List.find _ (positions (statements_run 1 w)))
    with (find_position address w).
  rewrite Hfind.
  unfold TradingDatabase.cancelPositionOrders, TradingDatabase.deletePosition,
    TradingDatabase.run_statement, statements_run.
  unfold_monad.
  destruct (db_faults w) as [|[e1|] [|[e2|] [|[e3|] faults]]]; simpl;
    rewrite ?filter_cancel_row; reflexivity.
Qed.

(** X18: [closePosition] on a stored position.  When it returns, the
    position row and all the orders of the position are gone, and the two
    tables are otherwise as they were.  When it throws, the position is still
    stored and no order row is lost.  Orders of other positions are never
    touched.  When the delete fails after the cancel went through, the
    position is still stored but none of its orders is PENDING any more. *)
Theorem closePosition_outcome (address : string) (w : World) (p : Position) :
  find_position address w = Some p ->
  let outcome := (PositionManager.closePosition address w).1 in
  let w' := (PositionManager.closePosition address w).2 in
  (outcome = Ret tt ->
     positions w' = filter (fun r => Position.id r ≠ Position.id p) (positions w)
     /\ orders w' = filter (fun o => Order.positionId o ≠ Position.id p) (orders w))
  /\ (forall e, outcome = Throw e ->
        positions w' = positions w /\ length (orders w') = length (orders w))
  /\ (forall o, o ∈ orders w -> Order.positionId o ≠ Position.id p -> o ∈ orders w')
  /\ (forall e rest, db_faults w = None :: None :: Some e :: rest ->
        outcome = Throw e
        /\ find_position address w' = Some p
        /\ forall o, o ∈ orders w' -> Order.positionId o = Position.id p ->
             Order.status o ≠ PENDING).
Proof.
  intros Hfind. cbv zeta.
  rewrite (closePosition_run address w p Hfind).
  assert (Hcancelled : forall o, o ∈ orders w ->
            Order.positionId o ≠ Position.id p ->
            o ∈ map (TradingDatabase.cancel_row (Position.id p)) (orders w)).
  { intros o Ho Hne. apply list_elem_of_fmap. exists o. split; [|exact Ho].
    destruct (cancel_row_cases (Position.id p) o) as [(H1 & _)|[_ ->]];
      [contradiction|reflexivity]. }
  assert (Hnone : forall o,
            o ∈ map (TradingDatabase.cancel_row (Position.id p)) (orders w) ->
            Order.positionId o = Position.id p -> Order.status o ≠ PENDING).
  { intros o Ho Hid. apply list_elem_of_fmap in Ho as (r & -> & Hr).
    destruct (cancel_row_cases (Position.id p) r) as [(_ & _ & ->)|[Hother Hsame]].
    - discriminate.
    - rewrite Hsame in *. destruct Hother; [contradiction|assumption]. }
  assert (Hkept : forall o, o ∈ orders w ->
            Order.positionId o ≠ Position.id p ->
            o ∈ filter (fun o => Order.positionId o ≠ Position.id p) (orders w)).
  { intros o Ho Hne. apply list_elem_of_filter. auto. }
  destruct (db_faults w) as [|[e1|] [|[e2|] [|[e3|] faults]]]; simpl;
    (split; [first [discriminate | intros _; split; reflexivity]|]);
    (split; [first [discriminate
                   | intros e He; split; [reflexivity|];
                     first [reflexivity | apply length_map]]|]);
    (split; [first [exact Hkept | exact Hcancelled | auto]|]);
    intros e rest Hscript; try discriminate Hscript.
  injection Hscript as <- _. split; [reflexivity|]. split; [exact Hfind|exact Hnone].
Qed.

(** ** What an execution stores *)




(** ** The orders a position starts with *)

#[global] Instance orders_kept_preorder : PreOrder orders_kept.
Proof.
  split.
  - intros w o Ho. exact Ho.
  - intros w1 w2 w3 H12 H23 o Ho. apply H23, H12, Ho.
Qed.

#[global] Hint Extern 1 (Ignores orders_kept _) =>
  (intros ? ? ? ?; assumption) : typeclass_instances.

#[global] Instance orders_kept_surroundings : IgnoresSurroundings orders_kept.
Proof. split; tc_solve. Qed.

Lemma orders_kept_insertOrder (order : Order) :
  preserves orders_kept (TradingDatabase.insertOrder order).
Proof.
  intros w. unfold TradingDatabase.insertOrder.
  rewrite bind_run, run_statement_eq.
  destruct (db_faults w) as [|[e|] faults]; simpl; try (intros o Ho; exact Ho).
  all: unfold_monad; simpl;
    destruct (existsb _ (orders w)); [intros o Ho; exact Ho|];
    destruct (existsb _ (positions w)); [|intros o Ho; exact Ho];
    intros o Ho; simpl; apply elem_of_app; left; exact Ho.
Qed.

Lemma orders_kept_createOrder (params : OrderCreationParams) :
  preserves orders_kept (OrderManager.createOrder params).
Proof.
  unfold OrderManager.createOrder. frame. apply orders_kept_insertOrder.
Qed.

(** When [createDefaultOrders] returns, the stop-loss order is stored and
    the positions are as they were. *)
Lemma createDefaultOrders_returned
    (CONFIG : TradingConfig) (Number_toString : JS.number -> string)
    (p : Position) (w w' : World) :
  PositionManager.createDefaultOrders CONFIG Number_toString p w = (Ret tt, w') ->
  positions w' = positions w
  /\ exists o, o ∈ orders w' /\ initial_stop_loss CONFIG p o.
Proof.
  intros E. split.
  { pose proof (preserves_createDefaultOrders (keeps positions) CONFIG
                  Number_toString p w) as H.
    rewrite E in H. exact H. }
  unfold PositionManager.createDefaultOrders in E. rewrite bind_run in E.
  match type of E with
  | context [OrderManager.createOrder ?params w] =>
      pose proof (createOrder_spec params w) as Hcreate; cbv zeta in Hcreate;
      destruct (OrderManager.createOrder params w) as [[o|e] w1];
      [|discriminate E]
  end.
  simpl in Hcreate. destruct Hcreate as (_ & Hreturned & _).
  destruct (Hreturned o eq_refl) as (Ho & Horders & _).
  exists o. split.
  - match type of E with
    | ?rest w1 = _ =>
        assert (Hkept : preserves orders_kept rest)
          by (frame; apply orders_kept_createOrder);
        specialize (Hkept w1); rewrite E in Hkept; simpl in Hkept
    end.
    apply Hkept. rewrite Horders. apply elem_of_app. right.
    apply list_elem_of_singleton. reflexivity.
  - rewrite Ho. unfold initial_stop_loss. simpl. repeat split.
Qed.

(** X20: a position that [createPosition] returns is stored, it is the
    position built from the tick, and its stop-loss order is stored with it,
    PENDING: sell everything once the gain falls to [INITIAL_STOP_LOSS]. *)
Theorem createPosition_places_stop_loss
    (CONFIG : TradingConfig) (Number_toString : JS.number -> string)
    (token : TokenData) (solInvested : JS.number) (w : World) (p : Position) :
  (PositionManager.createPosition CONFIG Number_toString token solInvested w).1
  = Ret (Some p) ->
  let w' :=
    (PositionManager.createPosition CONFIG Number_toString token solInvested w).2 in
  p = opened token solInvested (clock w)
  /\ p ∈ positions w'
  /\ exists o, o ∈ orders w' /\ initial_stop_loss CONFIG p o.
Proof.
  cbv zeta.
  destruct (PositionManager.createPosition CONFIG Number_toString token solInvested w)
    as [out w'] eqn:E.
  simpl. intros ->.
  unfold PositionManager.createPosition in E. cbv zeta in E.
  unfold TradingDatabase.getPositionCount, TradingDatabase.getPosition in E.
  rewrite !bind_run, run_statement_eq in E. unfold gets in E.
  destruct (db_faults w) as [|[e|] faults]; try discriminate E.
  all: destruct (MAX_POSITIONS CONFIG <=? _); try discriminate E.
  all: rewrite !bind_run, run_statement_eq in E;
    destruct (db_faults (statements_run 1 w)) as [|[e|] faults2];
    try discriminate E.
  all: destruct (List.find _ _); try discriminate E.
  all: unfold Date_now, gets in E; rewrite !bind_run in E; unfold try_catch in E;
    cbv beta iota in E;
    change (clock (statements_run 1 (statements_run 1 w))) with (clock w) in E;
    fold (opened token solInvested (clock w)) in E;
    set (p0 := opened token solInvested (clock w)) in *;
    set (w2 := statements_run 1 (statements_run 1 w)) in *;
    destruct (PositionManager.createPosition_try CONFIG Number_toString p0 w2)
      as [[created|e] w3] eqn:Htry;
    try discriminate E; injection E as -> <-;
    unfold PositionManager.createPosition_try in Htry;
    rewrite bind_run in Htry;
    destruct (insertPosition_run p0 w2) as [(e & Hinsert & _)|[Hinsert _]];
    cbv zeta in Hinsert; rewrite Hinsert in Htry; try discriminate Htry;
    rewrite bind_run in Htry;
    destruct (PositionManager.createDefaultOrders CONFIG Number_toString p0 _)
      as [[[]|e] w4] eqn:Hdefaults; try discriminate Htry;
    apply createDefaultOrders_returned in Hdefaults as (Hpositions & o & Ho & Hstop);
    rewrite bind_run in Htry;
    pose proof (preserves_executeBuy (keeps positions) CONFIG p0 w4) as Hbuy1;
    pose proof (preserves_executeBuy (keeps orders) CONFIG p0 w4) as Hbuy2;
    destruct (JupiterSwap.executeBuy CONFIG p0 w4) as [[result|e] w5];
    try discriminate Htry; unfold keeps in Hbuy1, Hbuy2; simpl in Hbuy1, Hbuy2;
    destruct (negb (success result));
    [ rewrite bind_run in Htry;
      destruct (TradingDatabase.deletePosition _ _) as [[[]|?] ?];
      discriminate Htry
    | ];
    injection Htry as <- <-;
    (split; [reflexivity|]);
    (split;
     [ rewrite Hbuy1, Hpositions; simpl; apply elem_of_app; right;
       apply list_elem_of_singleton; reflexivity
     | exists o; rewrite Hbuy2; split; [exact Ho|exact Hstop] ]).
Qed.

(** * Selling and buying *)



(** * The settings *)

Lemma leb_negb_ltb (x y : float) :
  JS.isNaN x = false -> JS.isNaN y = false ->
  PrimFloat.leb x y = negb (PrimFloat.ltb y x).
Proof.
  intros Hx Hy. rewrite FloatAxioms.ltb_spec, FloatAxioms.leb_spec.
  unfold SFltb, SFleb.
  rewrite (SFcompare_antisym (Prim2SF x) (Prim2SF y)).
  destruct (SFcompare (Prim2SF x) (Prim2SF y)) as [[]|] eqn:E; simpl; try reflexivity.
  apply SFcompare_nan in E.
  destruct E as [E|E]; [ apply isNaN_false in Hx | apply isNaN_false in Hy ];
    contradiction.
Qed.

Lemma compare_NaN (x y : float) :
  JS.isNaN x = true ->
  PrimFloat.leb x y = false /\ PrimFloat.leb y x = false
  /\ PrimFloat.ltb x y = false /\ PrimFloat.ltb y x = false.
Proof.
  unfold JS.isNaN, is_nan. rewrite FloatAxioms.eqb_spec. intros H.
  rewrite !FloatAxioms.leb_spec, !FloatAxioms.ltb_spec.
  unfold SFeqb, SFleb, SFltb in *.
  destruct (Prim2SF x) as [s|s| |s m e]; simpl in H.
  - destruct s; discriminate.
  - destruct s; discriminate.
  - destruct (Prim2SF y) as [s'|s'| |s' m' e']; simpl; auto.
  - destruct s; rewrite Z.compare_refl, Pos.compare_cont_refl in H; discriminate.
Qed.

(** X22: what [validateConfig] accepts.  For settings that are numbers it
    returns true exactly when the stake is positive, the maximum number of
    positions is positive, the stop loss is negative, the profit threshold
    is positive and the four sell ratios lie between 0 and 100.  It does not
    reject a setting that is not a number: with every numeric setting NaN and
    a positive maximum it returns true.  The two target market caps are not
    looked at. *)
Theorem validateConfig_accepts (CONFIG : TradingConfig) :
  (settings_are_numbers CONFIG ->
     validateConfig CONFIG = true <-> settings_in_range CONFIG)
  /\ (0 < MAX_POSITIONS CONFIG ->
      JS.isNaN (SOL_INVESTMENT_AMOUNT CONFIG) = true ->
      JS.isNaN (INITIAL_STOP_LOSS CONFIG) = true ->
      JS.isNaN (DOUBLE_PROFIT_THRESHOLD CONFIG) = true ->
      JS.isNaN (DOUBLE_SELL_RATIO CONFIG) = true ->
      JS.isNaN (TARGET_MC_1_RATIO CONFIG) = true ->
      JS.isNaN (TARGET_MC_2_RATIO CONFIG) = true ->
      JS.isNaN (LFG_SELL_RATIO CONFIG) = true ->
      validateConfig CONFIG = true)
  /\ (forall target1 target2,
        validateConfig
          {| TRADE_ENABLED := TRADE_ENABLED CONFIG;
             SOL_INVESTMENT_AMOUNT := SOL_INVESTMENT_AMOUNT CONFIG;
             MAX_POSITIONS := MAX_POSITIONS CONFIG;
             INITIAL_STOP_LOSS := INITIAL_STOP_LOSS CONFIG;
             DOUBLE_PROFIT_THRESHOLD := DOUBLE_PROFIT_THRESHOLD CONFIG;
             DOUBLE_SELL_RATIO := DOUBLE_SELL_RATIO CONFIG;
             TARGET_MC_1 := target1;
             TARGET_MC_1_RATIO := TARGET_MC_1_RATIO CONFIG;
             TARGET_MC_2 := target2;
             TARGET_MC_2_RATIO := TARGET_MC_2_RATIO CONFIG;
             LFG_SELL_RATIO := LFG_SELL_RATIO CONFIG |}
        = validateConfig CONFIG).
Proof.
  assert (Hzero : JS.isNaN 0%float = false) by reflexivity.
  assert (Hhundred : JS.isNaN 100%float = false) by reflexivity.
  assert (Hsegment : forall (b : bool) (message : string) (rest : list string),
            (if (0 <? length ((if b then [message] else []) ++ rest))%nat
             then false else true) = true
            <-> b = false
                /\ (if (0 <? length rest)%nat then false else true) = true).
  { intros [] message rest; simpl; split; try discriminate; try tauto.
    intros [H _]. discriminate H. }
  assert (Hlast : forall (b : bool) (message : string),
            (if (0 <? length (if b then [message] else []))%nat
             then false else true) = true <-> b = false).
  { intros [] message; simpl; split; try discriminate; reflexivity. }
  split; [|split; [|reflexivity]].
  - intros (H1 & H2 & H3 & H4 & H5 & H6 & H7).
    unfold validateConfig, validateConfig_errors.
    rewrite !Hsegment, Hlast.
    unfold settings_in_range, percentage, JS.le, JS.ge, JS.lt, JS.gt.
    rewrite (leb_negb_ltb _ _ H1 Hzero), (leb_negb_ltb _ _ Hzero H2),
      (leb_negb_ltb _ _ H3 Hzero),
      (leb_negb_ltb _ _ Hzero H4), (leb_negb_ltb _ _ H4 Hhundred),
      (leb_negb_ltb _ _ Hzero H5), (leb_negb_ltb _ _ H5 Hhundred),
      (leb_negb_ltb _ _ Hzero H6), (leb_negb_ltb _ _ H6 Hhundred),
      (leb_negb_ltb _ _ Hzero H7), (leb_negb_ltb _ _ H7 Hhundred).
    rewrite !orb_false_iff, !negb_false_iff, !negb_true_iff, Z.leb_gt.
    tauto.
  - intros Hmax H1 H2 H3 H4 H5 H6 H7.
    unfold validateConfig, validateConfig_errors, JS.le, JS.ge, JS.lt, JS.gt.
    destruct (compare_NaN _ 0%float H1) as (-> & _).
    destruct (compare_NaN _ 0%float H2) as (_ & -> & _).
    destruct (compare_NaN _ 0%float H3) as (-> & _).
    destruct (compare_NaN _ 0%float H4) as (_ & _ & -> & _).
    destruct (compare_NaN _ 100%float H4) as (_ & _ & _ & ->).
    destruct (compare_NaN _ 0%float H5) as (_ & _ & -> & _).
    destruct (compare_NaN _ 100%float H5) as (_ & _ & _ & ->).
    destruct (compare_NaN _ 0%float H6) as (_ & _ & -> & _).
    destruct (compare_NaN _ 100%float H6) as (_ & _ & _ & ->).
    destruct (compare_NaN _ 0%float H7) as (_ & _ & -> & _).
    destruct (compare_NaN _ 100%float H7) as (_ & _ & _ & ->).
    destruct (Z.leb_spec (MAX_POSITIONS CONFIG) 0); [lia|]. reflexivity.
Qed.

(** * The identities of orders *)

Lemma ascii_list_of_append (a b : string) :
  String.list_ascii_of_string (a +:+ b) = String.list_ascii_of_string a ++ String.list_ascii_of_string b.
Proof. induction a as [|c a IH]; simpl; [reflexivity|]. rewrite IH. reflexivity. Qed.

(** Two texts that agree after their first separator agree before it. *)
Lemma split_at_first {A : Type} (u : A) (a b x y : list A) :
  u ∉ a -> u ∉ b -> a ++ u :: x = b ++ u :: y -> a = b /\ x = y.
Proof.
  revert b. induction a as [|c a IH]; intros [|d b] Ha Hb E; simpl in E.
  - injection E as <-. auto.
  - injection E as <- _. exfalso. apply Hb. apply elem_of_cons. left. reflexivity.
  - injection E as -> _. exfalso. apply Ha. apply elem_of_cons. left. reflexivity.
  - injection E as <- E.
    apply not_elem_of_cons in Ha as [_ Ha]. apply not_elem_of_cons in Hb as [_ Hb].
    destruct (IH b Ha Hb E) as [-> ->]. auto.
Qed.

(** Two texts that agree up to their last separator agree after it. *)
Lemma split_at_last {A : Type} (u : A) (a b x y : list A) :
  u ∉ a -> u ∉ b -> x ++ u :: a = y ++ u :: b -> x = y /\ a = b.
Proof.
  intros Ha Hb E. apply (f_equal reverse) in E.
  rewrite !reverse_app, !reverse_cons, <- !app_assoc in E. simpl in E.
  apply split_at_first in E as [E1 E2];
    try (rewrite elem_of_reverse; assumption).
  split; apply (inj reverse); assumption.
Qed.

Lemma digits_have_no_underscore (d : Decimal.uint) :
  "_"%char ∉ String.list_ascii_of_string (NilEmpty.string_of_uint d).
Proof.
  induction d; simpl; try apply not_elem_of_nil;
    apply not_elem_of_cons; (split; [discriminate|assumption]).
Qed.

Lemma toString_has_no_underscore (z : Z) :
  "_"%char ∉ String.list_ascii_of_string (JS.toString z).
Proof.
  unfold JS.toString, NilZero.string_of_int, NilZero.string_of_uint.
  destruct (Z.to_int z) as [d|d]; destruct d; simpl;
    repeat (apply not_elem_of_cons; split; [discriminate|]);
    try apply not_elem_of_nil; apply digits_have_no_underscore.
Qed.

Lemma toString_inj (z1 z2 : Z) : JS.toString z1 = JS.toString z2 -> z1 = z2.
Proof.
  unfold JS.toString. intros E.
  assert (Hnil : forall z, Z.to_int z <> Decimal.Pos Decimal.Nil
                           /\ Z.to_int z <> Decimal.Neg Decimal.Nil).
  { intros z. split; intros H; pose proof (f_equal Z.of_int H) as H';
      rewrite DecimalZ.of_to in H'; simpl in H'; subst z; discriminate H. }
  apply DecimalZ.to_int_inj.
  destruct (Hnil z1) as [H1 H1'], (Hnil z2) as [H2 H2'].
  pose proof (NilZero.isi _ H1 H1') as E1. pose proof (NilZero.isi _ H2 H2') as E2.
  rewrite E in E1. congruence.
Qed.

(** The counter can be read off an identity. *)
Lemma order_id_counter
    (positionId1 positionId2 type1 type2 : string)
    (timestamp1 timestamp2 counter1 counter2 random1 random2 : Z) :
  positionId1 +:+ "_" +:+ type1 +:+ "_" +:+ JS.toString timestamp1 +:+ "_"
    +:+ JS.toString counter1 +:+ "_" +:+ JS.toString random1
  = positionId2 +:+ "_" +:+ type2 +:+ "_" +:+ JS.toString timestamp2 +:+ "_"
    +:+ JS.toString counter2 +:+ "_" +:+ JS.toString random2 ->
  counter1 = counter2.
Proof.
  intros E. apply (f_equal String.list_ascii_of_string) in E.
  rewrite !ascii_list_of_append in E.
  change (String.list_ascii_of_string "_") with ["_"%char] in E.
  simpl app in E.
  assert (Hlast : forall p t s c r : list ascii,
            p ++ "_"%char :: t ++ "_"%char :: s ++ "_"%char :: c ++ "_"%char :: r
            = ((p ++ "_"%char :: t ++ "_"%char :: s) ++ "_"%char :: c)
              ++ "_"%char :: r).
  { intros. repeat (rewrite <- app_assoc; simpl). reflexivity. }
  rewrite !Hlast in E.
  apply split_at_last in E as [E _]; try apply toString_has_no_underscore.
  apply split_at_last in E as [_ E]; try apply toString_has_no_underscore.
  apply toString_inj.
  rewrite <- (String.string_of_list_ascii_of_string (JS.toString counter1)),
    <- (String.string_of_list_ascii_of_string (JS.toString counter2)), E.
  reflexivity.
Qed.

Lemma generateOrderId_run (positionId : string) (type : OrderType) (w : World) :
  exists random w',
    OrderManager.generateOrderId positionId type w
    = (Ret (positionId +:+ "_" +:+ OrderType_name type +:+ "_"
            +:+ JS.toString (clock w) +:+ "_"
            +:+ JS.toString (orderCounter w + 1) +:+ "_" +:+ JS.toString random),
       w')
    /\ orderCounter w' = orderCounter w + 1.
Proof.
  unfold OrderManager.generateOrderId, Date_now, Math_random_1000. unfold_monad.
  simpl. destruct (randoms w) as [|random rest]; simpl;
    eexists _, _; split; reflexivity.
Qed.

(** X23: the identities that [generateOrderId] builds.  Every call returns
    and advances the order counter by one, and the counter can be read off
    the identity: two identities built from different counter values differ,
    whatever the position, the type, the clock and the random draw.  So two
    calls in a row never build the same identity. *)
Theorem generateOrderId_fresh
    (positionId1 positionId2 : string) (type1 type2 : OrderType) (w1 w2 : World) :
  let first := OrderManager.generateOrderId positionId1 type1 w1 in
  let second := OrderManager.generateOrderId positionId2 type2 w2 in
  (exists id, first.1 = Ret id)
  /\ orderCounter first.2 = orderCounter w1 + 1
  /\ (orderCounter w1 ≠ orderCounter w2 -> first.1 ≠ second.1)
  /\ (OrderManager.generateOrderId positionId2 type2 first.2).1 ≠ first.1.
Proof.
  cbv zeta.
  assert (Hdiffer : forall p1 p2 t1 t2 (u1 u2 : World),
            orderCounter u1 ≠ orderCounter u2 ->
            (OrderManager.generateOrderId p1 t1 u1).1
            ≠ (OrderManager.generateOrderId p2 t2 u2).1).
  { intros p1 p2 t1 t2 u1 u2 Hne.
    destruct (generateOrderId_run p1 t1 u1) as (r1 & u1' & -> & _).
    destruct (generateOrderId_run p2 t2 u2) as (r2 & u2' & -> & _).
    simpl. intros E. injection E as E.
    apply order_id_counter in E. lia. }
  destruct (generateOrderId_run positionId1 type1 w1) as (r1 & w1' & E1 & Hcounter).
  split; [rewrite E1; eauto|]. split; [rewrite E1; exact Hcounter|].
  split; [apply Hdiffer|].
  apply Hdiffer. rewrite E1. simpl. lia.
Qed.

(** * Worked examples of the further properties *)

Lemma held_consistent : consistent MoreExamples.held.
Proof.
  unfold consistent. simpl.
  split; [apply NoDup_singleton|]. split; [apply NoDup_singleton|].
  split; [apply NoDup_singleton|].
  intros o Ho. apply list_elem_of_singleton in Ho. subst o.
  apply list_elem_of_singleton. reflexivity.
Defined.

(** The process that holds "Mint1" satisfies the constraints, and still does
    after the tick that executes its order and after the emergency close. *)
Lemma engine_keeps_schema_witness :
  consistent MoreExamples.held
  /\ consistent
       (WebSocketHandler.processToken Examples.CONFIG Examples.Number_toString
          MoreExamples.rise MoreExamples.held).2
  /\ consistent (PositionManager.emergencyCloseAll Examples.CONFIG MoreExamples.held).2.
Proof.
  split; [exact held_consistent|].
  destruct (engine_keeps_schema Examples.CONFIG Examples.Number_toString
              MoreExamples.held held_consistent)
    as (Htick & _ & _ & _ & Hall & _).
  split; [apply Htick | exact Hall].
Defined.

(** With trading switched off, the tick that triggers the order of "Mint1"
    completes the order and submits nothing. *)
Lemma dry_run_submits_no_swap_witness :
  TRADE_ENABLED MoreExamples.CONFIG_dry = false
  /\ swaps_sent
       (WebSocketHandler.processToken MoreExamples.CONFIG_dry Examples.Number_toString
          MoreExamples.rise MoreExamples.held).2
     = []
  /\ swaps_sent (PositionManager.emergencyCloseAll MoreExamples.CONFIG_dry MoreExamples.held).2
     = [].
Proof.
  split; [reflexivity|].
  destruct (dry_run_submits_no_swap MoreExamples.CONFIG_dry Examples.Number_toString
              MoreExamples.held eq_refl)
    as (Htick & _ & _ & Hall).
  split; [apply Htick | exact Hall].
Defined.

(** A tick for "Mint1" while "Mint1" is being processed changes nothing. *)
Lemma processToken_never_throws_witness :
  let w := set_processing {["Mint1"]} MoreExamples.held in
  "Mint1" ∈ processing w
  /\ WebSocketHandler.processToken Examples.CONFIG Examples.Number_toString
       MoreExamples.rise w
     = (Ret tt, w).
Proof.
  cbv zeta.
  assert (Hbusy : "Mint1" ∈ processing (set_processing {["Mint1"]} MoreExamples.held))
    by (simpl; apply elem_of_singleton_2; reflexivity).
  split; [exact Hbusy|].
  pose proof (processToken_never_throws Examples.CONFIG Examples.Number_toString
                MoreExamples.rise (set_processing {["Mint1"]} MoreExamples.held)) as H.
  cbv zeta in H. destruct H as (Hout & _ & Hsame).
  specialize (Hsame Hbusy).
  destruct (WebSocketHandler.processToken _ _ _ _) as [outcome w'].
  simpl in Hout, Hsame. rewrite Hout, Hsame. reflexivity.
Defined.

(** The tick for "Mint2" passes the filter; the position stored for it is
    the one built from the tick. *)
Lemma processToken_opens_filtered_witness :
  let w' :=
    (WebSocketHandler.processToken Examples.CONFIG Examples.Number_toString
       MoreExamples.good_tick MoreExamples.ready).2 in
  let q := opened MoreExamples.good_tick 0.01%float 1700000000000 in
  q ∈ positions w'
  /\ (Position.address q ∉ map Position.address (positions MoreExamples.ready))
  /\ (filterToken MoreExamples.good_tick MoreExamples.ready).1 = Ret true
  /\ JS.le (Position.entryPrice q) 50000%float = true.
Proof.
  cbv zeta.
  assert (Hq : opened MoreExamples.good_tick 0.01%float 1700000000000
               ∈ positions
                   (WebSocketHandler.processToken Examples.CONFIG
                      Examples.Number_toString MoreExamples.good_tick
                      MoreExamples.ready).2)
    by (vm_compute; apply list_elem_of_singleton; reflexivity).
  assert (Hnew : Position.address (opened MoreExamples.good_tick 0.01%float 1700000000000)
                 ∉ map Position.address (positions MoreExamples.ready))
    by (simpl; apply not_elem_of_nil).
  split; [exact Hq|]. split; [exact Hnew|].
  destruct (processToken_opens_filtered Examples.CONFIG Examples.Number_toString
              MoreExamples.good_tick MoreExamples.ready _ Hq Hnew)
    as (_ & Hfilter & _ & Hle).
  split; [exact Hfilter | exact Hle].
Defined.

(** The evaluation pass that executes the pending order of "Mint1" leaves
    the executed order of the same position as it was. *)
Lemma checkAndExecuteOrders_touches_only_pending_witness :
  NoDup (map Order.id (orders MoreExamples.held_twice))
  /\ MoreExamples.done_order ∈ orders MoreExamples.held_twice
  /\ Order.status MoreExamples.done_order ≠ PENDING
  /\ MoreExamples.done_order
     ∈ orders (OrderManager.checkAndExecuteOrders Examples.CONFIG MoreExamples.risen
                 MoreExamples.held_twice).2.
Proof.
  assert (Hkeys : NoDup (map Order.id (orders MoreExamples.held_twice))).
  { simpl. apply NoDup_cons. split; [|apply NoDup_singleton].
    intros H. apply list_elem_of_singleton in H. discriminate H. }
  assert (Hrow : MoreExamples.done_order ∈ orders MoreExamples.held_twice).
  { simpl. apply elem_of_cons. right. apply list_elem_of_singleton. reflexivity. }
  assert (Hdone : Order.status MoreExamples.done_order ≠ PENDING) by discriminate.
  split; [exact Hkeys|]. split; [exact Hrow|]. split; [exact Hdone|].
  apply (checkAndExecuteOrders_touches_only_pending Examples.CONFIG MoreExamples.risen
           MoreExamples.held_twice MoreExamples.done_order Hkeys Hrow).
  left. exact Hdone.
Defined.

(** The tick that executes the order of "Mint1": the order stored afterwards
    is the one that was pending, completed. *)
Lemma updatePosition_opens_nothing_witness :
  let w' :=
    (PositionManager.updatePosition Examples.CONFIG "Mint1" 200000%float 0%float
       MoreExamples.held).2 in
  let o' :=
    Order.set_signature (Some "5ig")
      (Order.set_executedAt (Some 1700000060000)
         (Order.set_triggeredAt (Some 1700000060000)
            (Order.set_status COMPLETED MoreExamples.held_order))) in
  o' ∈ orders w'
  /\ exists o, o ∈ orders MoreExamples.held /\ same_definition o o'.
Proof.
  cbv zeta.
  pose proof (updatePosition_opens_nothing Examples.CONFIG "Mint1" 200000%float
                0%float MoreExamples.held) as H.
  cbv zeta in H. destruct H as [_ H].
  assert (Ho : Order.set_signature (Some "5ig")
                 (Order.set_executedAt (Some 1700000060000)
                    (Order.set_triggeredAt (Some 1700000060000)
                       (Order.set_status COMPLETED MoreExamples.held_order)))
               ∈ orders
                   (PositionManager.updatePosition Examples.CONFIG "Mint1"
                      200000%float 0%float MoreExamples.held).2)
    by (vm_compute; apply list_elem_of_singleton; reflexivity).
  split; [exact Ho | exact (H _ Ho)].
Defined.

(** Closing "Mint1" by hand sells everything and removes the position;
    closing an instrument that is not held does nothing. *)
Lemma closePositionManually_outcome_witness :
  let closed :=
    PositionManager.closePositionManually Examples.CONFIG "Mint1" MoreExamples.held in
  let missing :=
    PositionManager.closePositionManually Examples.CONFIG "Mint9" MoreExamples.held in
  unique_addresses MoreExamples.held
  /\ closed.1 = Ret true
  /\ find_position "Mint1" closed.2 = None
  /\ find_position "Mint9" MoreExamples.held = None
  /\ missing.1 <> Ret true
  /\ orders missing.2 = orders MoreExamples.held.
Proof.
  cbv zeta.
  assert (Hunique : unique_addresses MoreExamples.held) by apply NoDup_singleton.
  assert (Hclosed : (PositionManager.closePositionManually Examples.CONFIG "Mint1"
                       MoreExamples.held).1 = Ret true)
    by (vm_compute; reflexivity).
  assert (Hmissing : find_position "Mint9" MoreExamples.held = None) by reflexivity.
  split; [exact Hunique|]. split; [exact Hclosed|].
  pose proof (closePositionManually_outcome Examples.CONFIG "Mint1" MoreExamples.held)
    as H1.
  pose proof (closePositionManually_outcome Examples.CONFIG "Mint9" MoreExamples.held)
    as H9.
  cbv zeta in H1, H9.
  destruct H1 as (_ & Htrue & _). destruct (Htrue Hunique Hclosed) as [Hgone _].
  destruct H9 as (Hnone & _). destruct (Hnone Hmissing) as (Hout & _ & Horders & _).
  split; [exact Hgone|]. split; [exact Hmissing|]. split; [exact Hout | exact Horders].
Defined.

(** The position on "Mint1" is inserted into an empty table and found
    again; inserting it where it is already stored throws. *)
Lemma insertPosition_getPosition_witness :
  let p := Examples.position 50000%float 50000%float 50000%float in
  let inserted := TradingDatabase.insertPosition p Examples.fresh in
  inserted.1 = Ret tt
  /\ positions inserted.2 = [p]
  /\ p ∈ positions MoreExamples.held
  /\ (exists e, (TradingDatabase.insertPosition p MoreExamples.held).1 = Throw e)
  /\ positions (TradingDatabase.insertPosition p MoreExamples.held).2
     = positions MoreExamples.held.
Proof.
  cbv zeta.
  assert (Hok : (TradingDatabase.insertPosition
                   (Examples.position 50000%float 50000%float 50000%float)
                   Examples.fresh).1 = Ret tt) by (vm_compute; reflexivity).
  assert (Hheld : Examples.position 50000%float 50000%float 50000%float
                  ∈ positions MoreExamples.held)
    by (apply list_elem_of_singleton; reflexivity).
  pose proof (insertPosition_getPosition
                (Examples.position 50000%float 50000%float 50000%float)
                Examples.fresh) as Hfresh.
  pose proof (insertPosition_getPosition
                (Examples.position 50000%float 50000%float 50000%float)
                MoreExamples.held) as Hdup.
  cbv zeta in Hfresh, Hdup.
  destruct Hfresh as [Hfresh _]. destruct (Hfresh Hok) as (Hrows & _).
  destruct Hdup as [_ Hdup].
  destruct (Hdup _ Hheld (or_introl eq_refl)) as [Hthrow Hsame].
  split; [exact Hok|]. split; [exact Hrows|]. split; [exact Hheld|].
  split; [exact Hthrow | exact Hsame].
Defined.

(** A custom order created for the position held is appended and found
    again; for a position that is not stored, [createOrder] throws. *)
Lemma createOrder_getOrder_witness :
  let created := OrderManager.createOrder MoreExamples.quarter_at_300 MoreExamples.held in
  (exists order,
     created.1 = Ret order
     /\ orders created.2 = orders MoreExamples.held ++ [order]
     /\ Order.status order = PENDING)
  /\ (params_positionId MoreExamples.quarter_at_300
        ∉ map Position.id (positions Examples.fresh))
  /\ exists e,
       (OrderManager.createOrder MoreExamples.quarter_at_300 Examples.fresh).1 = Throw e.
Proof.
  cbv zeta.
  pose proof (createOrder_getOrder MoreExamples.quarter_at_300 MoreExamples.held)
    as Hheld.
  pose proof (createOrder_getOrder MoreExamples.quarter_at_300 Examples.fresh)
    as Hfresh.
  cbv zeta in Hheld, Hfresh.
  destruct Hheld as (_ & Hret & _). destruct Hfresh as (_ & _ & _ & Hthrow).
  assert (Hnone : params_positionId MoreExamples.quarter_at_300
                  ∉ map Position.id (positions Examples.fresh))
    by apply not_elem_of_nil.
  split; [|split; [exact Hnone | exact (Hthrow Hnone)]].
  destruct (OrderManager.createOrder MoreExamples.quarter_at_300 MoreExamples.held).1
    as [order|e] eqn:E; [|vm_compute in E; discriminate E].
  destruct (Hret order eq_refl) as (Horder & Hrows & _).
  exists order. split; [reflexivity|]. split; [exact Hrows|].
  rewrite Horder. reflexivity.
Defined.


(** The three orders of "Mint1", as the two queries return them. *)
Lemma getPositionOrders_newest_first_witness :
  exists rows w',
    TradingDatabase.getPositionOrders "Mint1" MoreExamples.held_thrice = (Ret rows, w')
    /\ rows = [MoreExamples.newer_order; MoreExamples.held_order; MoreExamples.done_order]
    /\ rows ≡ₚ filter (fun o => Order.positionId o = "Mint1")
                 (orders MoreExamples.held_thrice)
    /\ StronglySorted created_not_before rows.
Proof.
  eexists. eexists.
  assert (E : TradingDatabase.getPositionOrders "Mint1" MoreExamples.held_thrice
              = (Ret [MoreExamples.newer_order; MoreExamples.held_order;
                      MoreExamples.done_order],
                 MoreExamples.held_thrice)) by (vm_compute; reflexivity).
  split; [exact E|]. split; [reflexivity|].
  destruct (getPositionOrders_newest_first "Mint1" MoreExamples.held_thrice _ _ E)
    as (Hperm & Hsorted & _).
  split; [exact Hperm | exact Hsorted].
Defined.

(** The pending ones among them, oldest first. *)
Lemma getPendingOrders_oldest_first_witness :
  exists rows w',
    TradingDatabase.getPendingOrders MoreExamples.held_thrice = (Ret rows, w')
    /\ rows = [MoreExamples.held_order; MoreExamples.newer_order]
    /\ StronglySorted created_not_after rows
    /\ Forall (fun o => Order.status o = PENDING) rows.
Proof.
  eexists. eexists.
  assert (E : TradingDatabase.getPendingOrders MoreExamples.held_thrice
              = (Ret [MoreExamples.held_order; MoreExamples.newer_order],
                 MoreExamples.held_thrice)) by (vm_compute; reflexivity).
  split; [exact E|]. split; [reflexivity|].
  destruct (getPendingOrders_oldest_first MoreExamples.held_thrice _ _ E)
    as (_ & Hsorted & Hpending & _).
  split; [exact Hsorted | exact Hpending].
Defined.

(** The one position held is the one returned, and the count is 1. *)
Lemma getActivePositions_all_witness :
  exists rows w1 count w2,
    TradingDatabase.getActivePositions MoreExamples.held = (Ret rows, w1)
    /\ TradingDatabase.getPositionCount MoreExamples.held = (Ret count, w2)
    /\ rows ≡ₚ positions MoreExamples.held
    /\ count = 1.
Proof.
  eexists. eexists. eexists. eexists.
  assert (E1 : TradingDatabase.getActivePositions MoreExamples.held
               = (Ret (positions MoreExamples.held), MoreExamples.held))
    by (vm_compute; reflexivity).
  assert (E2 : TradingDatabase.getPositionCount MoreExamples.held
               = (Ret 1, MoreExamples.held)) by (vm_compute; reflexivity).
  split; [exact E1|]. split; [exact E2|].
  destruct (getActivePositions_all MoreExamples.held _ _ _ _ E1 E2) as (Hperm & _ & _).
  split; [exact Hperm | reflexivity].
Defined.

(** The trade recorded by a manual close is kept by a clean-up on the same
    day and deleted by a clean-up 31 days later. *)
Lemma cleanOldData_keeps_recent_witness :
  let w :=
    (PositionManager.closePositionManually Examples.CONFIG "Mint1" MoreExamples.held).2 in
  let later := set_clock (clock w + 31 * 86400000) w in
  exists t,
    trade_history w = [t]
    /\ TradeHistoryRecord.executedAt t = clock w / 1000
    /\ t ∈ trade_history (TradingDatabase.cleanOldData w).2
    /\ (TradingDatabase.cleanOldData later).1 = Ret tt
    /\ t ∉ trade_history (TradingDatabase.cleanOldData later).2.
Proof.
  cbv zeta. eexists.
  split; [vm_compute; reflexivity|]. split; [vm_compute; reflexivity|].
  match goal with
  | |- ?t ∈ trade_history (TradingDatabase.cleanOldData ?w).2 /\ _ =>
      pose proof (cleanOldData_keeps_recent w) as Hsame;
      pose proof (cleanOldData_keeps_recent (set_clock (clock w + 31 * 86400000) w))
        as Hlater;
      assert (Hin : t ∈ trade_history w)
        by (vm_compute; apply list_elem_of_singleton; reflexivity);
      assert (Hwhen : TradeHistoryRecord.executedAt t = clock w / 1000)
        by (vm_compute; reflexivity);
      assert (Hrecent : clock w - 2592000000 <= clock w) by lia
  end.
  cbv zeta in Hsame, Hlater.
  destruct Hsame as (_ & _ & _ & _ & _ & Hkept).
  destruct Hlater as (_ & _ & _ & _ & Hold & _).
  split; [exact (Hkept _ _ Hin Hwhen Hrecent)|].
  match goal with
  | |- ?outcome = Ret tt /\ _ =>
      assert (Hout : outcome = Ret tt) by (vm_compute; reflexivity)
  end.
  split; [exact Hout|].
  intros Hleft. specialize (Hold Hout _ Hleft).
  vm_compute in Hold. exact (Hold eq_refl).
Defined.

(** A custom order for "Mint1" is appended to the orders of the position
    held; for an instrument that is not held nothing is stored. *)
Lemma addCustomOrder_outcome_witness :
  let p := Examples.position 50000%float 50000%float 50000%float in
  let added :=
    PositionManager.addCustomOrder "Mint1" MoreExamples.quarter_at_300 MoreExamples.held in
  let refused :=
    PositionManager.addCustomOrder "Mint9" MoreExamples.quarter_at_300 MoreExamples.held in
  find_position "Mint1" MoreExamples.held = Some p
  /\ added.1 = Ret true
  /\ (exists order,
        orders added.2 = orders MoreExamples.held ++ [order]
        /\ Order.positionId order = "Mint1"
        /\ Order.status order = PENDING)
  /\ find_position "Mint9" MoreExamples.held = None
  /\ orders refused.2 = orders MoreExamples.held.
Proof.
  cbv zeta.
  pose proof (addCustomOrder_outcome "Mint1" MoreExamples.quarter_at_300
                MoreExamples.held) as H1.
  pose proof (addCustomOrder_outcome "Mint9" MoreExamples.quarter_at_300
                MoreExamples.held) as H9.
  cbv zeta in H1, H9.
  assert (Hheld : find_position "Mint1" MoreExamples.held
                  = Some (Examples.position 50000%float 50000%float 50000%float))
    by reflexivity.
  assert (Hout : (PositionManager.addCustomOrder "Mint1" MoreExamples.quarter_at_300
                    MoreExamples.held).1 = Ret true) by (vm_compute; reflexivity).
  assert (Hmissing : find_position "Mint9" MoreExamples.held = None) by reflexivity.
  destruct H1 as (_ & _ & H1). destruct (H1 _ Hheld) as (Htrue & _).
  destruct (Htrue Hout) as (order & Hrows & Hposition & Hstatus & _).
  destruct H9 as (_ & H9 & _). destruct (H9 Hmissing) as [_ Hsame].
  split; [exact Hheld|]. split; [exact Hout|].
  split; [exists order; split; [exact Hrows|]; split; [exact Hposition | exact Hstatus]|].
  split; [exact Hmissing | exact Hsame].
Defined.

(** Closing "Mint1" removes its row; when the delete statement fails after
    the cancel went through, the position stays, with no pending order. *)
Lemma closePosition_outcome_witness :
  let p := Examples.position 50000%float 50000%float 50000%float in
  let faulty := set_db_faults [None; None; Some "disk I/O error"] MoreExamples.held in
  find_position "Mint1" MoreExamples.held = Some p
  /\ (PositionManager.closePosition "Mint1" MoreExamples.held).1 = Ret tt
  /\ orders (PositionManager.closePosition "Mint1" MoreExamples.held).2
     = filter (fun o => Order.positionId o ≠ Position.id p) (orders MoreExamples.held)
  /\ find_position "Mint1" faulty = Some p
  /\ (PositionManager.closePosition "Mint1" faulty).1 = Throw "disk I/O error"
  /\ find_position "Mint1" (PositionManager.closePosition "Mint1" faulty).2 = Some p.
Proof.
  cbv zeta.
  assert (Hheld : find_position "Mint1" MoreExamples.held
                  = Some (Examples.position 50000%float 50000%float 50000%float))
    by reflexivity.
  assert (Hfaulty : find_position "Mint1"
                      (set_db_faults [None; None; Some "disk I/O error"]
                         MoreExamples.held)
                    = Some (Examples.position 50000%float 50000%float 50000%float))
    by reflexivity.
  assert (Hout : (PositionManager.closePosition "Mint1" MoreExamples.held).1 = Ret tt)
    by (vm_compute; reflexivity).
  pose proof (closePosition_outcome "Mint1" MoreExamples.held _ Hheld) as H1.
  pose proof (closePosition_outcome "Mint1" _ _ Hfaulty) as H2.
  cbv zeta in H1, H2.
  destruct H1 as (Hret & _). destruct (Hret Hout) as [_ Horders].
  destruct H2 as (_ & _ & _ & Hfail).
  destruct (Hfail "disk I/O error" [] eq_refl) as (Hthrow & Hstored & _).
  split; [exact Hheld|]. split; [exact Hout|]. split; [exact Horders|].
  split; [exact Hfaulty|]. split; [exact Hthrow | exact Hstored].
Defined.


(** The position opened for the tick of "Mint2" is stored with its
    stop-loss order. *)
Lemma createPosition_places_stop_loss_witness :
  let p := opened MoreExamples.good_tick 0.01%float 1700000000000 in
  let created :=
    PositionManager.createPosition Examples.CONFIG Examples.Number_toString
      MoreExamples.good_tick 0.01%float MoreExamples.ready in
  created.1 = Ret (Some p)
  /\ p ∈ positions created.2
  /\ exists o, o ∈ orders created.2 /\ initial_stop_loss Examples.CONFIG p o.
Proof.
  cbv zeta.
  assert (Hout : (PositionManager.createPosition Examples.CONFIG
                    Examples.Number_toString MoreExamples.good_tick 0.01%float
                    MoreExamples.ready).1
                 = Ret (Some (opened MoreExamples.good_tick 0.01%float 1700000000000)))
    by (vm_compute; reflexivity).
  split; [exact Hout|].
  pose proof (createPosition_places_stop_loss Examples.CONFIG Examples.Number_toString
                MoreExamples.good_tick 0.01%float MoreExamples.ready _ Hout) as H.
  cbv zeta in H. destruct H as (_ & Hstored & Hstop).
  split; [exact Hstored | exact Hstop].
Defined.


Lemma default_settings_are_numbers : settings_are_numbers Examples.CONFIG.
Proof. repeat split. Defined.

Lemma default_settings_in_range : settings_in_range Examples.CONFIG.
Proof. repeat split. Defined.

(** The default settings are accepted; so are settings that are not
    numbers. *)
Lemma validateConfig_accepts_witness :
  settings_are_numbers Examples.CONFIG
  /\ settings_in_range Examples.CONFIG
  /\ validateConfig Examples.CONFIG = true
  /\ JS.isNaN (SOL_INVESTMENT_AMOUNT MoreExamples.CONFIG_nan) = true
  /\ validateConfig MoreExamples.CONFIG_nan = true.
Proof.
  destruct (validateConfig_accepts Examples.CONFIG) as (Hnumbers & _).
  destruct (validateConfig_accepts MoreExamples.CONFIG_nan) as (_ & Hnan & _).
  split; [exact default_settings_are_numbers|].
  split; [exact default_settings_in_range|].
  split; [exact (proj2 (Hnumbers default_settings_are_numbers) default_settings_in_range)|].
  split; [reflexivity|].
  apply Hnan; reflexivity.
Defined.

(** Two identities built for the same position and type, at the same time,
    from the counter values 0 and 5, differ. *)
Lemma generateOrderId_fresh_witness :
  let later := set_orderCounter 5 Examples.fresh in
  orderCounter Examples.fresh ≠ orderCounter later
  /\ (OrderManager.generateOrderId "Mint1" TAKE_PROFIT Examples.fresh).1
     ≠ (OrderManager.generateOrderId "Mint1" TAKE_PROFIT later).1.
Proof.
  cbv zeta.
  assert (Hcounter : orderCounter Examples.fresh
                     ≠ orderCounter (set_orderCounter 5 Examples.fresh))
    by discriminate.
  split; [exact Hcounter|].
  pose proof (generateOrderId_fresh "Mint1" "Mint1" TAKE_PROFIT TAKE_PROFIT
                Examples.fresh (set_orderCounter 5 Examples.fresh)) as H.
  cbv zeta in H. destruct H as (_ & _ & Hdiffer & _).
  exact (Hdiffer Hcounter).
Defined.
